(** * The WebSocket relay service of the Polymarket backend

    A shallow embedding of [src/services/websocketService.js]: the
    [WebSocketService] class with its client registry, the per-market
    orderbook subscriber sets, the polling timers, and the handlers the
    [ws] library and the Node timers call into.

    The service runs on the single-threaded Node event loop.  Each callback
    (a [ws] event, a firing timer, the resumption of [pollOrderbook] after
    its awaited fetches) runs to completion, so the service is a state
    machine whose transitions are those callbacks.  Methods are written in
    a small monad that threads the service state, collects the observable
    effects (frames written to sockets, console lines) and propagates
    JavaScript exceptions. *)

From stdpp Require Import base gmap strings list fin_maps fin_sets pretty.
From Stdlib Require Import ZArith Lia Permutation Ascii String.

Set Warnings "-register-all,-clear-no-such-hyp".
Local Open Scope string_scope.
Local Open Scope Z_scope.

(** ** JavaScript values *)

(** The numbers of a message are taken to be safe integers
    ([Number.isSafeInteger]): the integers a JavaScript number holds
    exactly, which [String] and [JSON.stringify] write in plain decimal.
    Fractions and larger magnitudes are outside the model. *)
Definition MAX_SAFE_INTEGER : Z := 9007199254740991.

Record number : Type := Number {
  int_of : Z;
  int_safe : Is_true (Z.abs int_of <=? MAX_SAFE_INTEGER)
}.

Global Instance number_eq_dec : EqDecision number.
Proof.
  intros [x Hx] [y Hy]. destruct (decide (x = y)) as [->|H].
  - left. f_equal. apply proof_irrel.
  - right. by intros [= ?].
Defined.

(** The number an integer is, [0] outside the range. *)
Definition to_number (z : Z) : number :=
  match decide (Is_true (Z.abs z <=? MAX_SAFE_INTEGER)) with
  | left H => Number z H
  | right _ => Number 0 I
  end.

(** What [JSON.parse] returns.  An object lists its properties, each name
    once, in enumeration order, which for names that are not array indices
    is the order of the text. *)
Inductive json : Type :=
| JNull
| JBool (b : bool)
| JNum (n : number)
| JStr (s : string)
| JArr (xs : list json)
| JObj (fields : list (string * json)).

(** A value that may be [undefined] is an [option json], with [None] for
    [undefined]. *)

Module Js.

(** Own-property lookup on a parsed object. *)
Fixpoint field (k : string) (fs : list (string * json)) : option json :=
  match fs with
  | [] => None
  | (k', v) :: fs' => if decide (k' = k) then Some v else field k fs'
  end.

(** [ToBoolean]. *)
Definition truthy (v : option json) : bool :=
  match v with
  | None => false
  | Some JNull => false
  | Some (JBool b) => b
  | Some (JNum n) => negb (int_of n =? 0)
  | Some (JStr s) => negb (bool_decide (s = EmptyString))
  | Some (JArr _) => true
  | Some (JObj _) => true
  end.

Fixpoint join (sep : string) (l : list string) : string :=
  match l with
  | [] => EmptyString
  | [x] => x
  | x :: l' => x +:+ sep +:+ join sep l'
  end.

(** [ToString(v)], as a template literal applies it; [None] when it throws
    a [TypeError].  A parsed object inherits [Object.prototype.toString]
    unless it has an own property [toString]; that one is never callable,
    and neither is then what [valueOf] gives a primitive, so the conversion
    throws.  An array is joined ([null] elements as the empty string), which
    converts its elements. *)
Fixpoint to_string (v : json) : option string :=
  match v with
  | JNull => Some "null"
  | JBool true => Some "true"
  | JBool false => Some "false"
  | JNum n => Some (pretty (int_of n))
  | JStr s => Some s
  | JArr xs =>
      match
        (fix elements (xs : list json) : option (list string) :=
           match xs with
           | [] => Some []
           | x :: xs' =>
               match match x with
                     | JNull => Some EmptyString
                     | _ => to_string x
                     end, elements xs' with
               | Some a, Some l => Some (a :: l)
               | _, _ => None
               end
           end) xs
      with
      | Some l => Some (join "," l)
      | None => None
      end
  | JObj fs =>
      match field "toString" fs with
      | Some _ => None
      | None => Some "[object Object]"
      end
  end.

(** The conversion does not throw. *)
Definition prints (v : json) : bool :=
  match to_string v with
  | Some _ => true
  | None => false
  end.

(** [`${v}`] for a value that may be [undefined]. *)
Definition template (v : option json) : option string :=
  match v with
  | None => Some "undefined"
  | Some v => to_string v
  end.

Definition dquote : string := String (ascii_of_nat 34) EmptyString.
Definition backslash : string := String (ascii_of_nat 92) EmptyString.

Definition hex_digit (n : nat) : ascii :=
  ascii_of_nat (if (n <? 10)%nat then 48 + n else 87 + n)%nat.

(** The escape [JSON.stringify] writes for one character of a string. *)
Definition escape_char (a : ascii) : string :=
  let n := nat_of_ascii a in
  if (n =? 34)%nat then backslash +:+ dquote
  else if (n =? 92)%nat then backslash +:+ backslash
  else if (n =? 8)%nat then backslash +:+ "b"
  else if (n =? 12)%nat then backslash +:+ "f"
  else if (n =? 10)%nat then backslash +:+ "n"
  else if (n =? 13)%nat then backslash +:+ "r"
  else if (n =? 9)%nat then backslash +:+ "t"
  else if (n <? 32)%nat then
    backslash +:+ "u00" +:+
      String (hex_digit (n / 16)) (String (hex_digit (n mod 16)) EmptyString)
  else String a EmptyString.

Fixpoint escape (s : string) : string :=
  match s with
  | EmptyString => EmptyString
  | String a s' => escape_char a +:+ escape s'
  end.

Definition quote (s : string) : string := dquote +:+ escape s +:+ dquote.

(** [JSON.stringify(v)] for a defined value. *)
Fixpoint stringify (v : json) : string :=
  match v with
  | JNull => "null"
  | JBool true => "true"
  | JBool false => "false"
  | JNum n => pretty (int_of n)
  | JStr s => quote s
  | JArr xs => "[" +:+ join "," (map stringify xs) +:+ "]"
  | JObj fs =>
      "{" +:+
      join "," (map (fun kv => match kv with
                               | (k, x) => quote k +:+ ":" +:+ stringify x
                               end) fs)
      +:+ "}"
  end.

(** [`${JSON.stringify(v)}`]: [JSON.stringify(undefined)] is [undefined]. *)
Definition stringify_template (v : option json) : string :=
  match v with
  | None => "undefined"
  | Some v => stringify v
  end.

(** An object literal as [JSON.stringify] will write it: properties whose
    value is [undefined] are left out. *)
Definition obj (fs : list (string * option json)) : json :=
  JObj (omap (fun kv => match kv with (k, v) => pair k <$> v end) fs).

End Js.

(** ** Keys of the orderbook maps

    [orderbookSubscriptions] and [orderbookIntervals] are JavaScript [Map]s
    keyed by whatever [params.market_id] was.  A [Map] compares strings,
    numbers, booleans and [null] by value and arrays and objects by
    identity, and every parsed message holds objects of its own: such a key
    is the address [KRef r] of its object. *)
Inductive mkey : Type :=
| KNull
| KBool (b : bool)
| KNum (n : number)
| KStr (s : string)
| KRef (r : nat).

Global Instance mkey_eq_dec : EqDecision mkey.
Proof. solve_decision. Defined.

Definition mkey_code (k : mkey) : unit + bool + Z + string + nat :=
  match k with
  | KNull => inl (inl (inl (inl tt)))
  | KBool b => inl (inl (inl (inr b)))
  | KNum n => inl (inl (inr (int_of n)))
  | KStr s => inl (inr s)
  | KRef r => inr r
  end.

Definition mkey_decode (x : unit + bool + Z + string + nat) : mkey :=
  match x with
  | inl (inl (inl (inl _))) => KNull
  | inl (inl (inl (inr b))) => KBool b
  | inl (inl (inr n)) => KNum (to_number n)
  | inl (inr s) => KStr s
  | inr r => KRef r
  end.

Global Instance mkey_countable : Countable mkey.
Proof.
  apply (inj_countable' mkey_code mkey_decode). intros [| |n| |]; try done.
  destruct n as [z Hz]. cbn. f_equal. unfold to_number.
  destruct (decide _) as [H|H]; [|done]. f_equal. apply proof_irrel.
Defined.

(** ** The service state *)

(** [ws.readyState]. *)
Inductive readyState : Type := CONNECTING | OPEN | CLOSING | CLOSED.

Global Instance readyState_eq_dec : EqDecision readyState.
Proof. solve_decision. Defined.

(** An entry of [this.clients]: the socket (of which only [readyState] is
    read) and the set of subscription keys. *)
Record client : Type := Client {
  ws : readyState;
  subscriptions : gset string
}.

Global Instance client_eq_dec : EqDecision client.
Proof. solve_decision. Defined.

(** The fields of [WebSocketService] that the handlers read or write,
    followed by what the Node runtime holds for it: the live [setInterval]
    timers with the market id their callback closes over, the calls of
    [pollOrderbook] suspended at an [await], the objects used as [Map]
    keys, and the pending reconnect timeouts. *)
Record service : Type := Service {
  clients : gmap string client;
  polymarketWs : option readyState;
  orderbookSubscriptions : gmap mkey (gset string);
  orderbookIntervals : gmap mkey nat;
  timers : gmap nat mkey;
  next_timer : nat;
  polls : list mkey;
  heap : list json;
  reconnects : nat
}.

(** The state the constructor builds. *)
Definition constructor : service :=
  {| clients := ∅; polymarketWs := None;
     orderbookSubscriptions := ∅; orderbookIntervals := ∅;
     timers := ∅; next_timer := 0%nat; polls := []; heap := [];
     reconnects := 0%nat |}.

Definition with_clients (f : gmap string client → gmap string client) (s : service) : service :=
  {| clients := f (clients s); polymarketWs := polymarketWs s;
     orderbookSubscriptions := orderbookSubscriptions s;
     orderbookIntervals := orderbookIntervals s;
     timers := timers s; next_timer := next_timer s; polls := polls s;
     heap := heap s; reconnects := reconnects s |}.

Definition with_polymarketWs (w : option readyState) (s : service) : service :=
  {| clients := clients s; polymarketWs := w;
     orderbookSubscriptions := orderbookSubscriptions s;
     orderbookIntervals := orderbookIntervals s;
     timers := timers s; next_timer := next_timer s; polls := polls s;
     heap := heap s; reconnects := reconnects s |}.

Definition with_subscriptions
    (f : gmap mkey (gset string) → gmap mkey (gset string)) (s : service) : service :=
  {| clients := clients s; polymarketWs := polymarketWs s;
     orderbookSubscriptions := f (orderbookSubscriptions s);
     orderbookIntervals := orderbookIntervals s;
     timers := timers s; next_timer := next_timer s; polls := polls s;
     heap := heap s; reconnects := reconnects s |}.

Definition with_intervals (f : gmap mkey nat → gmap mkey nat) (s : service) : service :=
  {| clients := clients s; polymarketWs := polymarketWs s;
     orderbookSubscriptions := orderbookSubscriptions s;
     orderbookIntervals := f (orderbookIntervals s);
     timers := timers s; next_timer := next_timer s; polls := polls s;
     heap := heap s; reconnects := reconnects s |}.

Definition with_timers (f : gmap nat mkey → gmap nat mkey) (n : nat) (s : service) : service :=
  {| clients := clients s; polymarketWs := polymarketWs s;
     orderbookSubscriptions := orderbookSubscriptions s;
     orderbookIntervals := orderbookIntervals s;
     timers := f (timers s); next_timer := n; polls := polls s;
     heap := heap s; reconnects := reconnects s |}.

Definition with_polls (f : list mkey → list mkey) (s : service) : service :=
  {| clients := clients s; polymarketWs := polymarketWs s;
     orderbookSubscriptions := orderbookSubscriptions s;
     orderbookIntervals := orderbookIntervals s;
     timers := timers s; next_timer := next_timer s; polls := f (polls s);
     heap := heap s; reconnects := reconnects s |}.

Definition with_heap (h : list json) (s : service) : service :=
  {| clients := clients s; polymarketWs := polymarketWs s;
     orderbookSubscriptions := orderbookSubscriptions s;
     orderbookIntervals := orderbookIntervals s;
     timers := timers s; next_timer := next_timer s; polls := polls s;
     heap := h; reconnects := reconnects s |}.

Definition with_reconnects (n : nat) (s : service) : service :=
  {| clients := clients s; polymarketWs := polymarketWs s;
     orderbookSubscriptions := orderbookSubscriptions s;
     orderbookIntervals := orderbookIntervals s;
     timers := timers s; next_timer := next_timer s; polls := polls s;
     heap := heap s; reconnects := n |}.

(** ** Observable effects *)

(** The lines the service writes to the console. *)
Inductive console : Type :=
| LogClientConnected
| LogClientDisconnected
| LogSocketError
| LogParseError (e : string)
| LogUnknownType (t : option json)
| LogSubscribed (clientId : string) (marketId : mkey)
| LogUnsubscribed (clientId : string) (marketId : mkey)
| LogStartedPolling (marketId : mkey)
| LogStoppedPolling (marketId : mkey)
| WarnNoMarket (marketId : mkey)
| LogPollError (marketId : mkey) (e : string)
| LogUpstreamConnected
| LogUpstreamClosed
| LogUpstreamError
| LogUpstreamParseError (e : string).

Inductive effect : Type :=
| WsSend (clientId : string) (payload : json)
    (* client.ws.send(JSON.stringify(payload)) *)
| UpstreamSubscribe (channel params : option json)
    (* polymarketWs.send(JSON.stringify({type:'subscribe', channel, ...params})) *)
| Fetch (marketId : mkey)
    (* gammaService.getMarket(marketId) is called *)
| Log (line : console).

(** ** The method monad *)

Inductive completion (A : Type) : Type :=
| Ret (a : A)
| Throw (e : string).
Arguments Ret {A} a.
Arguments Throw {A} e.

Record result (A : Type) : Type := Result {
  out : completion A;
  final : service;
  trace : list effect
}.
Arguments Result {A} out final trace.
Arguments out {A} r.
Arguments final {A} r.
Arguments trace {A} r.

Definition M (A : Type) : Type := service → result A.

Global Instance M_ret : MRet M := λ A a s, Result (Ret a) s [].

Global Instance M_bind : MBind M := λ A B f m s,
  match m s with
  | Result (Ret a) s1 t1 =>
      match f a s1 with
      | Result o s2 t2 => Result o s2 (t1 ++ t2)
      end
  | Result (Throw e) s1 t1 => Result (Throw e) s1 t1
  end.

Definition throw {A} (e : string) : M A := λ s, Result (Throw e) s [].
Definition get : M service := λ s, Result (Ret s) s [].
Definition modify (f : service → service) : M unit := λ s, Result (Ret tt) (f s) [].
Definition emit (e : effect) : M unit := λ s, Result (Ret tt) s [e].
Definition skip : M unit := mret tt.

(** [try { body } catch (error) { handler(error) }]. *)
Definition try_catch {A} (body : M A) (handler : string → M A) : M A := λ s,
  match body s with
  | Result (Ret a) s1 t1 => Result (Ret a) s1 t1
  | Result (Throw e) s1 t1 =>
      match handler e s1 with
      | Result o s2 t2 => Result o s2 (t1 ++ t2)
      end
  end.

(** [xs.forEach(x => body(x))] over the entries [xs] held when the loop
    starts. *)
Fixpoint for_each {A} (xs : list A) (body : A → M unit) : M unit :=
  match xs with
  | [] => skip
  | x :: xs' => body x ;; for_each xs' body
  end.

(** ** Reading parsed messages *)

(** [v.k] for the property names the service reads ([type], [channel],
    [params], [market_id]; no prototype defines them): a [TypeError] on
    [undefined] and [null], the own property of an object, [undefined] on
    anything else. *)
Definition prop (v : option json) (k : string) : M (option json) :=
  match v with
  | None => throw "TypeError"
  | Some JNull => throw "TypeError"
  | Some (JObj fs) => mret (Js.field k fs)
  | Some _ => mret None
  end.

(** [v === 'lit']. *)
Definition is_string (v : option json) (lit : string) : bool :=
  match v with
  | Some (JStr s) => bool_decide (s = lit)
  | _ => false
  end.

(** The [Map] key a value is: itself when compared by value, the address
    of the newly parsed object otherwise. *)
Definition map_key (v : json) : M mkey :=
  match v with
  | JNull => mret KNull
  | JBool b => mret (KBool b)
  | JNum n => mret (KNum n)
  | JStr s => mret (KStr s)
  | JArr _ | JObj _ =>
      s ← get;
      modify (with_heap (heap s ++ [v])%list);;
      mret (KRef (List.length (heap s)))
  end.

(** The value a key stands for. *)
Definition key_value (h : list json) (k : mkey) : json :=
  match k with
  | KNull => JNull
  | KBool b => JBool b
  | KNum n => JNum n
  | KStr s => JStr s
  | KRef r => default JNull (h !! r)
  end.

(** A template literal: its text, or the [TypeError] of a conversion. *)
Definition literal (text : option string) : M string :=
  match text with
  | Some s => mret s
  | None => throw "TypeError"
  end.

(** A console line whose template literal holds [${marketId}]: the literal
    is evaluated before the line is printed. *)
Definition log_market (marketId : mkey) (line : console) : M unit :=
  s ← get;
  literal (Js.to_string (key_value (heap s) marketId));;
  emit (Log line).

(** [JSON.parse(message)]: a [SyntaxError] or the parsed value. *)
Inductive frame : Type :=
| Garbled
| Parsed (data : json).

Definition JSON_parse (message : frame) : M json :=
  match message with
  | Garbled => throw "SyntaxError"
  | Parsed data => mret data
  end.

(** ** Methods of [WebSocketService] *)

(** [sendToClient(clientId, data)] *)
Definition sendToClient (clientId : string) (data : json) : M unit :=
  s ← get;
  match clients s !! clientId with
  | Some client =>
      if decide (ws client = OPEN) then emit (WsSend clientId data) else skip
  | None => skip
  end.

Definition clearInterval (t : nat) : M unit :=
  modify (λ s, with_timers (delete t) (next_timer s) s).

Definition setInterval (marketId : mkey) : M nat :=
  s ← get;
  modify (with_timers <[next_timer s := marketId]> (S (next_timer s)));;
  mret (next_timer s).

(** What the awaited part of [pollOrderbook] comes back with.  The two
    awaits ([getMarket], then [Promise.all] over [getOrderbook]) are one
    suspension here: the service state is neither read nor written between
    them. *)
Record token_book : Type := TokenBook {
  token_id : option json;
  outcome : option json;
  orderbook : option json
}.

Inductive fetched : Type :=
| FetchFailed (e : string)      (* an awaited call rejected, or the try block threw *)
| FetchNoMarket                 (* !market || !market.tokens *)
| FetchTokens (tokens : list token_book).

Definition orderbookData (tokens : list token_book) : list json :=
  map (λ t, Js.obj [("token_id", token_id t); ("outcome", outcome t);
                    ("orderbook", orderbook t)]) tokens.

(** The message [pollOrderbook] broadcasts. *)
Definition orderbook_message (marketId : json) (tokens : list token_book) (now : string) : json :=
  JObj [("type", JStr "orderbook");
        ("market_id", marketId);
        ("orderbook", JArr (orderbookData tokens));
        ("timestamp", JStr now)].

(** [pollOrderbook(marketId)] up to its first [await]: the fetch is issued
    and the call is suspended. *)
Definition pollOrderbook (marketId : mkey) : M unit :=
  emit (Fetch marketId);;
  modify (with_polls (λ ps, (ps ++ [marketId])%list)).

(** [pollOrderbook(marketId)] from the point where the awaited data is
    there or the awaited call has rejected: the rest of the [try] block and
    the [catch].  An exception of the [catch] block itself rejects the
    promise of [pollOrderbook], which nobody handles.  A [Set] is visited
    in insertion order; here the subscribers are visited in the order of
    [elements], so the order in which different connections are written to
    is not the order of the code.  What one connection is sent does not
    depend on it. *)
Definition pollOrderbook_resume (marketId : mkey) (r : fetched) (now : string) : M unit :=
  try_catch
    (match r with
     | FetchFailed e => throw e
     | FetchNoMarket => log_market marketId (WarnNoMarket marketId)
     | FetchTokens tokens =>
         s ← get;
         match orderbookSubscriptions s !! marketId with
         | Some subscribers =>
             if bool_decide (0 < size subscribers)%nat then
               let message :=
                 orderbook_message (key_value (heap s) marketId) tokens now in
               for_each (elements subscribers)
                 (λ clientId, sendToClient clientId message)
             else skip
         | None => skip
         end
     end)
    (λ error, log_market marketId (LogPollError marketId error)).

(** [startOrderbookPolling(marketId)] *)
Definition startOrderbookPolling (marketId : mkey) : M unit :=
  s ← get;
  match orderbookIntervals s !! marketId with
  | Some t => clearInterval t
  | None => skip
  end;;
  pollOrderbook marketId;;
  intervalId ← setInterval marketId;
  modify (with_intervals <[marketId := intervalId]>);;
  log_market marketId (LogStartedPolling marketId).

(** [stopOrderbookPolling(marketId)]; an interval id is a [Timeout] object
    and so always truthy. *)
Definition stopOrderbookPolling (marketId : mkey) : M unit :=
  s ← get;
  match orderbookIntervals s !! marketId with
  | Some intervalId =>
      clearInterval intervalId;;
      modify (with_intervals (delete marketId));;
      log_market marketId (LogStoppedPolling marketId)
  | None => skip
  end.

(** [subscribeToOrderbook(clientId, marketId)] *)
Definition subscribeToOrderbook (clientId : string) (marketId : mkey) : M unit :=
  s ← get;
  match orderbookSubscriptions s !! marketId with
  | Some _ => skip
  | None =>
      modify (with_subscriptions <[marketId := ∅]>);;
      startOrderbookPolling marketId
  end;;
  s ← get;
  match orderbookSubscriptions s !! marketId with
  | Some subscribers =>
      modify (with_subscriptions <[marketId := {[clientId]} ∪ subscribers]>)
  | None => throw "TypeError"
  end;;
  log_market marketId (LogSubscribed clientId marketId).

(** [unsubscribeFromOrderbook(clientId, marketId)] *)
Definition unsubscribeFromOrderbook (clientId : string) (marketId : mkey) : M unit :=
  s ← get;
  match orderbookSubscriptions s !! marketId with
  | Some subscribers =>
      let subscribers := subscribers ∖ {[clientId]} in
      modify (with_subscriptions <[marketId := subscribers]>);;
      log_market marketId (LogUnsubscribed clientId marketId);;
      if bool_decide (size subscribers = 0)%nat then
        stopOrderbookPolling marketId;;
        modify (with_subscriptions (delete marketId))
      else skip
  | None => skip
  end.

(** The callback [cleanupClientSubscriptions] hands to [forEach];
    [Map.prototype.forEach] visits the entries that are still there when
    their turn comes. *)
Definition cleanup_body (clientId : string) (marketId : mkey) : M unit :=
  s ← get;
  match orderbookSubscriptions s !! marketId with
  | Some subscribers =>
      if decide (clientId ∈ subscribers)
      then unsubscribeFromOrderbook clientId marketId
      else skip
  | None => skip
  end.

(** [cleanupClientSubscriptions(clientId)].  A [Map] is visited in
    insertion order; here the markets are visited in the order of
    [map_to_list], so the order of the log lines of different markets is
    not the order of the code.  The state that is reached does not depend
    on it. *)
Definition cleanupClientSubscriptions (clientId : string) : M unit :=
  s ← get;
  for_each (map_to_list (orderbookSubscriptions s)).*1 (cleanup_body clientId).

(** The key under which a request is kept in [client.subscriptions]:
    [`${channel}:${JSON.stringify(params)}`], where the conversion of
    [channel] may throw. *)
Definition subscriptionKey (channel params : option json) : option string :=
  match Js.template channel with
  | Some text => Some (text +:+ ":" +:+ Js.stringify_template params)
  | None => None
  end.

(** [channel === 'orderbook' && params.market_id]; [None] also stands for
    the [false] of the first conjunct, which is as falsy. *)
Definition orderbook_market_id (channel params : option json) : M (option json) :=
  if is_string channel "orderbook" then prop params "market_id" else mret None.

(** [if (v) { body(v) }] *)
Definition when_truthy (v : option json) (body : json → M unit) : M unit :=
  match v with
  | Some x => if Js.truthy v then body x else skip
  | None => skip
  end.

(** [handleSubscribe(clientId, data)] *)
Definition handleSubscribe (clientId : string) (data : json) : M unit :=
  s ← get;
  match clients s !! clientId with
  | None => skip
  | Some _ =>
      channel ← prop (Some data) "channel";
      params ← prop (Some data) "params";
      subscriptionKey ← literal (subscriptionKey channel params);
      modify (with_clients (alter (λ client,
        Client (ws client) ({[subscriptionKey]} ∪ subscriptions client)) clientId));;
      market_id ← orderbook_market_id channel params;
      when_truthy market_id (λ v,
        marketId ← map_key v; subscribeToOrderbook clientId marketId);;
      s ← get;
      (if decide (polymarketWs s = Some OPEN)
       then emit (UpstreamSubscribe channel params) else skip);;
      sendToClient clientId
        (Js.obj [("type", Some (JStr "subscribed"));
                 ("channel", channel); ("params", params)])
  end.

(** [handleUnsubscribe(clientId, data)] *)
Definition handleUnsubscribe (clientId : string) (data : json) : M unit :=
  s ← get;
  match clients s !! clientId with
  | None => skip
  | Some _ =>
      channel ← prop (Some data) "channel";
      params ← prop (Some data) "params";
      subscriptionKey ← literal (subscriptionKey channel params);
      modify (with_clients (alter (λ client,
        Client (ws client) (subscriptions client ∖ {[subscriptionKey]})) clientId));;
      market_id ← orderbook_market_id channel params;
      when_truthy market_id (λ v,
        marketId ← map_key v; unsubscribeFromOrderbook clientId marketId);;
      sendToClient clientId
        (Js.obj [("type", Some (JStr "unsubscribed"));
                 ("channel", channel); ("params", params)])
  end.

(** [handleClientMessage(clientId, data)] *)
Definition handleClientMessage (clientId : string) (data : json) : M unit :=
  s ← get;
  match clients s !! clientId with
  | None => skip
  | Some _ =>
      type ← prop (Some data) "type";
      if is_string type "subscribe" then handleSubscribe clientId data
      else if is_string type "unsubscribe" then handleUnsubscribe clientId data
      else if is_string type "ping" then
        sendToClient clientId (JObj [("type", JStr "pong")])
      else emit (Log (LogUnknownType type))
  end.

(** [isClientSubscribed(client, message)] *)
Definition isClientSubscribed (client : client) (message : json) : bool :=
  bool_decide (0 < size (subscriptions client))%nat.

(** [broadcastPolymarketData(message)] *)
Definition broadcastPolymarketData (message : json) : M unit :=
  s ← get;
  for_each (map_to_list (clients s)) (λ entry,
    let shouldSend := isClientSubscribed entry.2 message in
    if shouldSend then sendToClient entry.1 message else skip).

(** [connectToPolymarket()]: a new socket, still connecting. *)
Definition connectToPolymarket : M unit :=
  modify (with_polymarketWs (Some CONNECTING)).

(** ** The callbacks registered by [initialize] and [connectToPolymarket] *)

(** [wss.on('connection', ...)], with the id [generateClientId()] returned
    and the time read for the welcome message. *)
Definition on_connection (clientId now : string) : M unit :=
  emit (Log LogClientConnected);;
  modify (with_clients <[clientId := Client OPEN ∅]>);;
  sendToClient clientId
    (JObj [("type", JStr "connected"); ("clientId", JStr clientId);
           ("timestamp", JStr now)]).

(** [ws.on('message', ...)] *)
Definition on_message (clientId : string) (message : frame) : M unit :=
  try_catch
    (data ← JSON_parse message; handleClientMessage clientId data)
    (λ error, emit (Log (LogParseError error))).

(** [ws.on('close', ...)] *)
Definition on_close (clientId : string) : M unit :=
  emit (Log LogClientDisconnected);;
  cleanupClientSubscriptions clientId;;
  modify (with_clients (delete clientId)).

(** [ws.on('error', ...)] *)
Definition on_error (clientId : string) : M unit :=
  emit (Log LogSocketError).

(** The interval callback of [startOrderbookPolling]. *)
Definition on_interval (t : nat) : M unit :=
  s ← get;
  match timers s !! t with
  | Some marketId => pollOrderbook marketId
  | None => skip
  end.

(** The [i]-th suspended [pollOrderbook] is resumed. *)
Definition on_settled (i : nat) (r : fetched) (now : string) : M unit :=
  s ← get;
  match polls s !! i with
  | Some marketId =>
      modify (with_polls (delete i));;
      pollOrderbook_resume marketId r now
  | None => skip
  end.

(** [polymarketWs.on('message', ...)] *)
Definition on_upstream_message (data : frame) : M unit :=
  try_catch
    (message ← JSON_parse data; broadcastPolymarketData message)
    (λ error, emit (Log (LogUpstreamParseError error))).

(** [polymarketWs.on('close', ...)]: the reconnect is put on a timeout. *)
Definition on_upstream_close : M unit :=
  emit (Log LogUpstreamClosed);;
  modify (λ s, with_reconnects (S (reconnects s)) s).

(** The reconnect timeout fires. *)
Definition on_reconnect : M unit :=
  s ← get;
  match reconnects s with
  | O => skip
  | S n => modify (with_reconnects n);; connectToPolymarket
  end.

(** ** The event loop *)

(** What the runtime can deliver to the service.  [EvTransport] and
    [EvUpstreamTransport] are the [ws] library moving a socket to another
    [readyState]; they run no code of the service. *)
Inductive event : Type :=
| EvConnection (clientId now : string)
| EvMessage (clientId : string) (message : frame)
| EvClose (clientId : string)
| EvError (clientId : string)
| EvTransport (clientId : string) (rs : readyState)
| EvInterval (t : nat)
| EvSettled (i : nat) (r : fetched) (now : string)
| EvConnectUpstream
| EvUpstreamTransport (rs : readyState)
| EvUpstreamOpen
| EvUpstreamMessage (data : frame)
| EvUpstreamClose
| EvUpstreamError
| EvReconnect.

Definition step (ev : event) : M unit :=
  match ev with
  | EvConnection clientId now => on_connection clientId now
  | EvMessage clientId message => on_message clientId message
  | EvClose clientId => on_close clientId
  | EvError clientId => on_error clientId
  | EvTransport clientId rs =>
      modify (with_clients (alter (λ client, Client rs (subscriptions client)) clientId))
  | EvInterval t => on_interval t
  | EvSettled i r now => on_settled i r now
  | EvConnectUpstream => connectToPolymarket
  | EvUpstreamTransport rs =>
      modify (λ s, with_polymarketWs ((λ _, rs) <$> polymarketWs s) s)
  | EvUpstreamOpen => emit (Log LogUpstreamConnected)
  | EvUpstreamMessage data => on_upstream_message data
  | EvUpstreamClose => on_upstream_close
  | EvUpstreamError => emit (Log LogUpstreamError)
  | EvReconnect => on_reconnect
  end.

(** A run of the event loop.  An exception that escapes a callback would
    end the process: the run stops there. *)
Definition run (evs : list event) : M unit := for_each evs step.

(** The states the service can be in. *)
Definition reachable (s : service) : Prop :=
  ∃ evs, final (run evs constructor) = s.

(** ** Sample requests and runs *)

Definition subscribe_request (channel params : json) : frame :=
  Parsed (JObj [("type", JStr "subscribe"); ("channel", channel);
                ("params", params)]).

Definition unsubscribe_request (channel params : json) : frame :=
  Parsed (JObj [("type", JStr "unsubscribe"); ("channel", channel);
                ("params", params)]).

Definition orderbook_of (market : string) : json :=
  JObj [("market_id", JStr market)].

(** Connection [A] is accepted and subscribes to the orderbook of [M1]. *)
Definition A_subscribes_M1 : list event :=
  [EvConnection "A" "2025-01-01T00:00:00.000Z";
   EvMessage "A" (subscribe_request (JStr "orderbook") (orderbook_of "M1"))].

(** ** Vocabulary of the properties *)

(** Connection [c] holds resource key [k]: it is in the subscriber set of
    [k]. *)
Definition holds (s : service) (c : string) (k : mkey) : Prop :=
  ∃ S, orderbookSubscriptions s !! k = Some S ∧ c ∈ S.

Global Instance holds_dec s c k : Decision (holds s c k).
Proof.
  unfold holds. destruct (orderbookSubscriptions s !! k) as [S|].
  - destruct (decide (c ∈ S)) as [Hin|Hnin].
    + left. by exists S.
    + right. by intros (S' & [= <-] & ?).
  - right. by intros (S' & [=] & _).
Defined.

(** The market id that [k] stands for can be written into a log line:
    its conversion to a string does not throw. *)
Definition printable (s : service) (k : mkey) : bool :=
  Js.prints (key_value (heap s) k).

(** A market id whose conversion to a string throws, and connection [A]
    subscribing to the orderbook of that market. *)
Definition unprintable_id : json := JObj [("toString", JNum (Number 1 I))].

Definition A_subscribes_unprintable : list event :=
  [EvConnection "A" "2025-01-01T00:00:00.000Z";
   EvMessage "A" (subscribe_request (JStr "orderbook")
                    (JObj [("market_id", unprintable_id)]))].


(** [sendToClient] would write to the socket of [c]. *)
Definition writable (s : service) (c : string) : bool :=
  match clients s !! c with
  | Some client => bool_decide (ws client = OPEN)
  | None => false
  end.

(** The payloads a trace writes to the socket of [c], in order. *)
Definition received (c : string) (tr : list effect) : list json :=
  omap (λ e, match e with
             | WsSend c' payload => if decide (c' = c) then Some payload else None
             | _ => None
             end) tr.

(** The console lines of a trace. *)
Definition printed (tr : list effect) : list console :=
  omap (λ e, match e with Log line => Some line | _ => None end) tr.

(** The number of [pollOrderbook] calls for [k] that are suspended. *)
Definition in_flight (k : mkey) (s : service) : nat :=
  List.length (filter (λ k', k' = k) (polls s)).

(** [s] ends with [suffix]. *)
Fixpoint ends_with (suffix s : string) : bool :=
  bool_decide (s = suffix)
  || match s with
     | String _ s' => ends_with suffix s'
     | EmptyString => false
     end.

(** The envelope the specification gives for an update: a [type] that
    ends with [_update], a [channel] string and the payload under
    [data]. *)
Definition update_envelope (msg : json) : bool :=
  match msg with
  | JObj fs =>
      match Js.field "type" fs, Js.field "channel" fs, Js.field "data" fs with
      | Some (JStr ty), Some (JStr _), Some (JObj _) => ends_with "_update" ty
      | _, _, _ => false
      end
  | _ => false
  end.

(** A payload reaches exactly the connections that hold [k]. *)
Definition delivered_to_holders (s : service) (k : mkey) (tr : list effect) : Prop :=
  ∀ c, received c tr ≠ [] ↔ holds s c k.

(** Connection [A] subscribes to [M1] and its socket starts closing:
    [readyState] is [CLOSING] and the [close] event has not come yet. *)
Definition A_closing : list event :=
  (A_subscribes_M1 ++ [EvTransport "A" CLOSING])%list.

(** Three fetches in a row that fail. *)
Definition three_failures : list fetched :=
  [FetchFailed "Failed to fetch market details"; FetchNoMarket;
   FetchFailed "Failed to fetch orderbook"].

Definition sample_tokens : list token_book :=
  [TokenBook (Some (JStr "71321")) (Some (JStr "Yes"))
     (Some (JObj [("bids", JArr []); ("asks", JArr [])]))].

(** One polling cycle run to its end: the interval [t] fires and the
    fetch it started, the [i]-th suspended one, comes back with [r]. *)
Definition cycle (t i : nat) (r : fetched) (now : string) : list event :=
  [EvInterval t; EvSettled i r now].

(** The cycle got no data to broadcast. *)
Definition failed (r : fetched) : bool :=
  match r with
  | FetchTokens _ => false
  | _ => true
  end.

(** What [pollOrderbook] prints for such a cycle. *)
Definition failure_line (k : mkey) (r : fetched) : list console :=
  match r with
  | FetchFailed e => [LogPollError k e]
  | FetchNoMarket => [WarnNoMarket k]
  | FetchTokens _ => []
  end.

(** Every connection that holds [k] is written exactly one update. *)
Definition each_holder_updated_once (s : service) (k : mkey) (tr : list effect) : Prop :=
  ∀ c, holds s c k → List.length (received c tr) = 1%nat.

(** The connections that hold at least one subscription key. *)
Definition subscribed_clients (s : service) : list string :=
  (filter (λ e, (0 < size (subscriptions e.2))%nat) (map_to_list (clients s))).*1.

(** Two parameter maps that are logically identical: the same fields,
    each once, listed in some order. *)
Definition same_parameters (p1 p2 : json) : Prop :=
  match p1, p2 with
  | JObj f1, JObj f2 => NoDup f1.*1 ∧ Permutation f1 f2
  | _, _ => p1 = p2
  end.

(** A market id that a [Map] compares by value, and the key it is. *)
Definition by_value (v : json) : bool :=
  match v with
  | JArr _ | JObj _ => false
  | _ => true
  end.

Definition value_key (v : json) : mkey :=
  match v with
  | JBool b => KBool b
  | JNum n => KNum n
  | JStr s => KStr s
  | _ => KNull
  end.

Definition M1_then_depth : json :=
  JObj [("market_id", JStr "M1"); ("depth", JNum (Number 5 I))].

Definition depth_then_M1 : json :=
  JObj [("depth", JNum (Number 5 I)); ("market_id", JStr "M1")].

(** [params] is absent or [null]: reading [params.market_id] throws. *)
Definition no_params (params : option json) : bool :=
  match params with
  | None | Some JNull => true
  | Some _ => false
  end.







(** No polling task has more than one cycle in flight. *)
Definition one_cycle_in_flight (s : service) : Prop :=
  ∀ t k, timers s !! t = Some k → (in_flight k s ≤ 1)%nat.

(** The part of the state that makes up the registry and the pool of
    polling tasks. *)
Definition registry (s : service)
  : gmap mkey (gset string) * gmap mkey nat * gmap nat mkey :=
  (orderbookSubscriptions s, orderbookIntervals s, timers s).

(** What a handler may do to the clients: replace the key set of a client,
    never the socket, never the set of registered ids. *)
Definition same_sockets (s s' : service) : Prop :=
  ∀ c, ws <$> clients s' !! c = ws <$> clients s !! c.

(** The invariant of the reachable states.  A subscriber set is empty
    exactly when its market id cannot be printed: [subscribeToOrderbook]
    then throws between creating the set and adding the client. *)
Record Inv (s : service) : Prop := {
  inv_nonempty : ∀ k S, orderbookSubscriptions s !! k = Some S →
                        (S = ∅ ↔ printable s k = false);
  inv_interval : ∀ k, is_Some (orderbookSubscriptions s !! k)
                      ↔ is_Some (orderbookIntervals s !! k);
  inv_timer : ∀ t k, timers s !! t = Some k ↔ orderbookIntervals s !! k = Some t;
  inv_fresh : ∀ t, is_Some (timers s !! t) → (t < next_timer s)%nat;
  inv_client : ∀ k S c, orderbookSubscriptions s !! k = Some S → c ∈ S →
                        is_Some (clients s !! c);
  inv_heap : ∀ r, is_Some (orderbookSubscriptions s !! KRef r) →
                  (r < List.length (heap s))%nat
}.

(** ** The rest of the service *)

(** [broadcast(data)] *)
Definition broadcast (data : json) : M unit :=
  s ← get;
  for_each (map_to_list (clients s)) (λ entry,
    if decide (ws entry.2 = OPEN) then emit (WsSend entry.1 data) else skip).

(** [generateClientId()], given the values of [Date.now()] and of
    [Math.random().toString(36).substr(2, 9)]. *)
Definition generateClientId (now : N) (random : string) : string :=
  "client_" +:+ pretty now +:+ "_" +:+ random.

(** Every character of [s] is a decimal digit. *)
Fixpoint digits (s : string) : bool :=
  match s with
  | EmptyString => true
  | String a s' =>
      bool_decide (a ∈ ["0"; "1"; "2"; "3"; "4"; "5"; "6"; "7"; "8"; "9"]%char)
      && digits s'
  end.

(** The events that come from the downstream sockets, the polling timers
    and the fetches; the others need [connectToPolymarket] to have been
    called. *)
Definition downstream (ev : event) : bool :=
  match ev with
  | EvConnection _ _ | EvMessage _ _ | EvClose _ | EvError _
  | EvTransport _ _ | EvInterval _ | EvSettled _ _ _ => true
  | _ => false
  end.

(** The subscribe intents a trace forwards to the upstream socket. *)
Definition forwarded (tr : list effect) : list (option json * option json) :=
  omap (λ e, match e with
             | UpstreamSubscribe channel params => Some (channel, params)
             | _ => None
             end) tr.

(** The fetches a trace starts. *)
Definition fetches (tr : list effect) : list mkey :=
  omap (λ e, match e with Fetch k => Some k | _ => None end) tr.

(** [m] keeps [P] true of the state, whatever its completion, and every
    effect it has satisfies [E]. *)
Definition keeps {A} (P : service → Prop) (E : effect → Prop) (m : M A) : Prop :=
  ∀ s, P s → P (final (m s)) ∧ Forall E (trace (m s)).

(** Three readings of an effect: it is no frame forwarded upstream; it is
    no frame written to a downstream socket; if it is such a frame, it
    goes to a socket that [s] has registered and open. *)
Definition not_forward (e : effect) : Prop :=
  ∀ channel params, e ≠ UpstreamSubscribe channel params.

Definition not_send (e : effect) : Prop := ∀ c d, e ≠ WsSend c d.

Definition send_to_open (s : service) (e : effect) : Prop :=
  ∀ c d, e = WsSend c d → writable s c = true.

(** The acknowledgement of a request. *)
Definition acknowledgement (type : string) (channel params : option json) : json :=
  Js.obj [("type", Some (JStr type)); ("channel", channel); ("params", params)].

(** What [channel === 'orderbook' && params.market_id] evaluates to when it
    does not throw, and whether it does not throw. *)
Definition request_market_id (channel params : json) : option json :=
  if is_string (Some channel) "orderbook"
  then match params with JObj fs => Js.field "market_id" fs | _ => None end
  else None.

(** A market id that is falsy, and so not subscribed to, or that can be
    written into the log lines. *)
Definition falsy_or_prints (market_id : option json) : bool :=
  match market_id with
  | Some v => negb (Js.truthy (Some v)) || Js.prints v
  | None => true
  end.

(** A request that its handler takes to the end: [channel] can be written
    into the subscription key, [params.market_id] can be read where it is
    read, and the market id, if there is one, can be written into the log
    lines. *)
Definition reads_cleanly (channel params : json) : bool :=
  Js.prints channel
  && negb (is_string (Some channel) "orderbook" && no_params (Some params))
  && falsy_or_prints (request_market_id channel params).

(** Such a request that names no market to poll: the channel is not
    [orderbook], or [params] has no truthy [market_id]. *)
Definition no_market (channel params : json) : bool :=
  reads_cleanly channel params
  && negb (Js.truthy (request_market_id channel params)).

Definition ping_request : frame := Parsed (JObj [("type", JStr "ping")]).

(** The event is a message that parses to an object whose [type] is
    [subscribe]. *)
Definition subscribe_frame (ev : event) : bool :=
  match ev with
  | EvMessage _ (Parsed (JObj fs)) => is_string (Js.field "type" fs) "subscribe"
  | _ => false
  end.

(** ** Reasoning about methods *)

(** Reduce record projections and field updates, nothing else: the maps
    stay folded. *)
Ltac scbn :=
  cbn [out final trace clients polymarketWs orderbookSubscriptions
       orderbookIntervals timers next_timer polls heap reconnects
       with_clients with_polymarketWs with_subscriptions with_intervals
       with_timers with_polls with_heap with_reconnects registry
       app fst snd] in *.

Ltac munfold :=
  unfold skip, mbind, M_bind, mret, M_ret, get, modify, emit, throw in *;
  scbn.

(** *** The model at work *)

Example stringify_object :
  Js.stringify M1_then_depth
  = "{" +:+ Js.dquote +:+ "market_id" +:+ Js.dquote +:+ ":" +:+ Js.dquote
    +:+ "M1" +:+ Js.dquote +:+ "," +:+ Js.dquote +:+ "depth" +:+ Js.dquote
    +:+ ":5}".
Proof. vm_compute. reflexivity. Qed.

Example to_string_array :
  Js.to_string (JArr [JStr "a"; JNull; JNum (Number (-3) I); JArr [JBool true]])
  = Some "a,,-3,true".
Proof. vm_compute. reflexivity. Qed.

Example to_string_throws :
  Js.to_string unprintable_id = None
  ∧ Js.to_string (JArr [JStr "a"; unprintable_id]) = None
  ∧ Js.to_string (JObj [("valueOf", JStr "x")]) = Some "[object Object]".
Proof. vm_compute. done. Qed.

Example key_without_params :
  subscriptionKey (Some (JStr "orderbook")) None = Some "orderbook:undefined".
Proof. vm_compute. reflexivity. Qed.

Example first_subscription_trace :
  trace (run A_subscribes_M1 constructor)
  = [Log LogClientConnected;
     WsSend "A" (JObj [("type", JStr "connected"); ("clientId", JStr "A");
                       ("timestamp", JStr "2025-01-01T00:00:00.000Z")]);
     Fetch (KStr "M1");
     Log (LogStartedPolling (KStr "M1"));
     Log (LogSubscribed "A" (KStr "M1"));
     WsSend "A" (JObj [("type", JStr "subscribed"); ("channel", JStr "orderbook");
                       ("params", orderbook_of "M1")])].
Proof. vm_compute. reflexivity. Qed.

Example object_market_ids_are_distinct_keys :
  let request := subscribe_request (JStr "orderbook")
                   (JObj [("market_id", JArr [JStr "M1"])]) in
  size (timers (final (run [EvConnection "A" "t0";
                            EvMessage "A" request; EvMessage "A" request]
                         constructor)))
  = 2%nat.
Proof. vm_compute. reflexivity. Qed.

Lemma service_eta (s : service) :
  {| clients := clients s; polymarketWs := polymarketWs s;
     orderbookSubscriptions := orderbookSubscriptions s;
     orderbookIntervals := orderbookIntervals s;
     timers := timers s; next_timer := next_timer s; polls := polls s;
     heap := heap s; reconnects := reconnects s |} = s.
Proof. by destruct s. Qed.

Lemma bind_ret {A B} (m : M A) (f : A → M B) (s : service) a :
  out (m s) = Ret a →
  (m ≫= f) s = Result (out (f a (final (m s)))) (final (f a (final (m s))))
                 (trace (m s) ++ trace (f a (final (m s)))).
Proof.
  unfold mbind, M_bind. destruct (m s) as [[a'|e] s1 t1]; cbn; [|done].
  intros [= ->]. by destruct (f a s1).
Qed.

Lemma bind_pure_gen {A B} (m : M A) (f : A → M B) s s' a :
  m s = Result (Ret a) s' [] → (m ≫= f) s = f a s'.
Proof.
  intros H. unfold mbind, M_bind. rewrite H. by destruct (f a s').
Qed.

Lemma bind_pure {A B} (m : M A) (f : A → M B) s a :
  m s = Result (Ret a) s [] → (m ≫= f) s = f a s.
Proof.
  intros H. unfold mbind, M_bind. rewrite H. by destruct (f a s).
Qed.

Lemma bind_pure_throw {A B} (m : M A) (f : A → M B) s e :
  m s = Result (Throw e) s [] → (m ≫= f) s = Result (Throw e) s [].
Proof. intros H. unfold mbind, M_bind. by rewrite H. Qed.

Lemma bind_modify {B} (g : service → service) (f : unit → M B) s :
  (modify g ≫= f) s = f tt (g s).
Proof. by apply bind_pure_gen. Qed.

Lemma received_app c tr1 tr2 :
  received c (tr1 ++ tr2) = (received c tr1 ++ received c tr2)%list.
Proof. unfold received. apply omap_app. Qed.

Lemma printed_app tr1 tr2 :
  printed (tr1 ++ tr2) = (printed tr1 ++ printed tr2)%list.
Proof. unfold printed. apply omap_app. Qed.

(** *** Sending *)

Lemma sendToClient_result c d s :
  sendToClient c d s
  = Result (Ret tt) s (if writable s c then [WsSend c d] else []).
Proof.
  unfold sendToClient, writable. munfold.
  destruct (clients s !! c) as [cl|]; cbn; [|done].
  destruct (decide (ws cl = OPEN)) as [H|H].
  - by rewrite bool_decide_eq_true_2.
  - by rewrite bool_decide_eq_false_2.
Qed.

Lemma for_each_frame {A} (xs : list A) (body : A → M unit) s :
  (∀ x, out (body x s) = Ret tt ∧ final (body x s) = s) →
  out (for_each xs body s) = Ret tt ∧ final (for_each xs body s) = s
  ∧ trace (for_each xs body s) = flat_map (λ x, trace (body x s)) xs.
Proof.
  intros Hb. induction xs as [|x xs IH]; cbn; [done|].
  destruct (Hb x) as [Ho Hf]. rewrite (bind_ret _ _ _ tt) by done. cbn.
  rewrite Hf. destruct IH as (-> & -> & ->). done.
Qed.

Lemma received_send_all c d s (cs : list string) :
  NoDup cs →
  received c (flat_map (λ x, trace (sendToClient x d s)) cs)
  = if decide (c ∈ cs) then (if writable s c then [d] else []) else [].
Proof.
  induction 1 as [|x cs Hx Hnd IH]; cbn [flat_map].
  - by rewrite decide_False by set_solver.
  - rewrite received_app, IH, sendToClient_result. cbn [trace].
    destruct (decide (x = c)) as [->|Hne].
    + rewrite (decide_False (P := c ∈ cs)) by done.
      rewrite decide_True by set_solver.
      destruct (writable s c); cbn; [|done]. by rewrite decide_True.
    + assert (received c (if writable s x then [WsSend x d] else []) = []) as ->.
      { destruct (writable s x); cbn; [|done]. by rewrite decide_False. }
      cbn. destruct (decide (c ∈ cs)).
      * by rewrite decide_True by set_solver.
      * by rewrite decide_False by set_solver.
Qed.

Lemma bind_throw {A B} (m : M A) (f : A → M B) s e :
  out (m s) = Throw e →
  (m ≫= f) s = Result (Throw e) (final (m s)) (trace (m s)).
Proof.
  unfold mbind, M_bind. destruct (m s) as [[a|e'] s1 t1]; cbn; [done|].
  by intros [= ->].
Qed.

(** *** What a method can change and what it can emit *)

Lemma keeps_ret {A} P E (a : A) : keeps P E (mret a).
Proof. intros s Hs. by munfold. Qed.

Lemma keeps_throw {A} P E e : keeps P E (throw (A := A) e).
Proof. intros s Hs. by munfold. Qed.

Lemma keeps_bind {A B} P E (m : M A) (f : A → M B) :
  keeps P E m → (∀ a, keeps P E (f a)) → keeps P E (m ≫= f).
Proof.
  intros Hm Hf s Hs. destruct (Hm s Hs) as [HP HE].
  unfold mbind, M_bind. destruct (m s) as [[a|e] s1 t1]; scbn; [|done].
  destruct (Hf a s1 HP) as [HP' HE']. destruct (f a s1) as [o s2 t2]. scbn.
  split; [done|]. by apply Forall_app.
Qed.

Lemma keeps_get {A} P E (f : service → M A) :
  (∀ s, P s → P (final (f s s)) ∧ Forall E (trace (f s s))) →
  keeps P E (get ≫= f).
Proof. intros Hf s Hs. rewrite (bind_pure _ _ _ s) by done. by apply Hf. Qed.

Lemma keeps_modify P E (g : service → service) :
  (∀ s, P s → P (g s)) → keeps P E (modify g).
Proof. intros Hg s Hs. munfold. split; [by apply Hg|done]. Qed.

Lemma keeps_emit P E e : E e → keeps P E (emit e).
Proof. intros He s Hs. munfold. split; [done|]. by constructor. Qed.

Lemma keeps_try_catch {A} P E (body : M A) (handler : string → M A) :
  keeps P E body → (∀ e, keeps P E (handler e)) →
  keeps P E (try_catch body handler).
Proof.
  intros Hb Hh s Hs. destruct (Hb s Hs) as [HP HE].
  unfold try_catch. destruct (body s) as [[a|e] s1 t1]; scbn; [done|].
  destruct (Hh e s1 HP) as [HP' HE']. destruct (handler e s1) as [o s2 t2]. scbn.
  split; [done|]. by apply Forall_app.
Qed.

Lemma keeps_for_each {A} P E (xs : list A) (body : A → M unit) :
  (∀ x, keeps P E (body x)) → keeps P E (for_each xs body).
Proof.
  intros Hb. induction xs as [|x xs IH]; cbn [for_each].
  - apply keeps_ret.
  - apply keeps_bind; [apply Hb|]. by intros _.
Qed.

Section effects.
Context (P : service → Prop) (E : effect → Prop).
Hypothesis P_subscriptions : ∀ f s, P s → P (with_subscriptions f s).
Hypothesis P_intervals : ∀ f s, P s → P (with_intervals f s).
Hypothesis P_timers : ∀ f n s, P s → P (with_timers f n s).
Hypothesis P_polls : ∀ f s, P s → P (with_polls f s).
Hypothesis P_heap : ∀ h s, P s → P (with_heap h s).
Hypothesis P_keys : ∀ (f : gset string → gset string) c s,
  P s →
  P (with_clients
       (alter (λ client, Client (ws client) (f (subscriptions client))) c) s).
Hypothesis E_log : ∀ line, E (Log line).
Hypothesis E_fetch : ∀ k, E (Fetch k).
Hypothesis E_send : ∀ s c d, P s → writable s c = true → E (WsSend c d).
Hypothesis E_forward : ∀ s channel params,
  P s → polymarketWs s = Some OPEN → E (UpstreamSubscribe channel params).

Lemma keeps_sendToClient c d : keeps P E (sendToClient c d).
Proof using E_send.
  intros s Hs. rewrite sendToClient_result. scbn. split; [done|].
  destruct (writable s c) eqn:Hw; [|done]. constructor; [|done]. by eapply E_send.
Qed.

Lemma keeps_literal text : keeps P E (literal text).
Proof using Type.
  destruct text; [apply keeps_ret|apply keeps_throw].
Qed.

Lemma keeps_log_market k line : keeps P E (log_market k line).
Proof using E_log.
  unfold log_market. apply keeps_get. intros s Hs.
  apply keeps_bind; [apply keeps_literal| |done].
  intros _. by apply keeps_emit.
Qed.

Lemma keeps_pollOrderbook k : keeps P E (pollOrderbook k).
Proof using P_polls E_fetch.
  unfold pollOrderbook. apply keeps_bind; [by apply keeps_emit|].
  intros _. apply keeps_modify. intros s. apply P_polls.
Qed.

Lemma keeps_startOrderbookPolling k : keeps P E (startOrderbookPolling k).
Proof using P_polls P_timers P_intervals E_fetch E_log.
  unfold startOrderbookPolling. apply keeps_get. intros s Hs.
  apply keeps_bind; [| |done].
  { destruct (orderbookIntervals s !! k); [|apply keeps_ret].
    apply keeps_modify. intros s'. apply P_timers. }
  intros _. apply keeps_bind; [apply keeps_pollOrderbook|].
  intros _. apply keeps_bind.
  { unfold setInterval. apply keeps_get. intros s' Hs'.
    apply keeps_bind; [| |done].
    - apply keeps_modify. intros s''. apply P_timers.
    - intros _. apply keeps_ret. }
  intros t. apply keeps_bind; [|intros _; apply keeps_log_market].
  apply keeps_modify. intros s'. apply P_intervals.
Qed.

Lemma keeps_stopOrderbookPolling k : keeps P E (stopOrderbookPolling k).
Proof using P_timers P_intervals E_log.
  unfold stopOrderbookPolling. apply keeps_get. intros s Hs.
  destruct (orderbookIntervals s !! k); [|by apply keeps_ret].
  apply keeps_bind; [| |done].
  { apply keeps_modify. intros s'. apply P_timers. }
  intros _. apply keeps_bind; [|intros _; apply keeps_log_market].
  apply keeps_modify. intros s'. apply P_intervals.
Qed.

Lemma keeps_subscribeToOrderbook c k : keeps P E (subscribeToOrderbook c k).
Proof using P_subscriptions P_polls P_timers P_intervals E_fetch E_log.
  unfold subscribeToOrderbook. apply keeps_get. intros s Hs.
  apply keeps_bind; [| |done].
  { destruct (orderbookSubscriptions s !! k); [apply keeps_ret|].
    apply keeps_bind; [|intros _; apply keeps_startOrderbookPolling].
    apply keeps_modify. intros s'. apply P_subscriptions. }
  intros _. apply keeps_get. intros s' Hs'.
  apply keeps_bind; [| |done].
  { destruct (orderbookSubscriptions s' !! k); [|apply keeps_throw].
    apply keeps_modify. intros s''. apply P_subscriptions. }
  intros _. apply keeps_log_market.
Qed.

Lemma keeps_unsubscribeFromOrderbook c k :
  keeps P E (unsubscribeFromOrderbook c k).
Proof using P_subscriptions P_timers P_intervals E_log.
  unfold unsubscribeFromOrderbook. apply keeps_get. intros s Hs.
  destruct (orderbookSubscriptions s !! k) as [S|]; [|by apply keeps_ret].
  apply keeps_bind; [| |done].
  { apply keeps_modify. intros s'. apply P_subscriptions. }
  intros _. apply keeps_bind; [apply keeps_log_market|].
  intros _. destruct (bool_decide _); [|apply keeps_ret].
  apply keeps_bind; [apply keeps_stopOrderbookPolling|].
  intros _. apply keeps_modify. intros s'. apply P_subscriptions.
Qed.

Lemma keeps_cleanupClientSubscriptions c :
  keeps P E (cleanupClientSubscriptions c).
Proof using P_subscriptions P_timers P_intervals E_log.
  unfold cleanupClientSubscriptions. apply keeps_get. intros s Hs.
  apply keeps_for_each; [|done]. intros k. unfold cleanup_body.
  apply keeps_get. intros s' Hs'.
  destruct (orderbookSubscriptions s' !! k) as [S|]; [|by apply keeps_ret].
  destruct (decide (c ∈ S)); [|by apply keeps_ret].
  by apply keeps_unsubscribeFromOrderbook.
Qed.

Lemma keeps_prop v k : keeps P E (prop v k).
Proof using Type.
  destruct v as [[]|]; cbn [prop]; (apply keeps_ret || apply keeps_throw).
Qed.

Lemma keeps_orderbook_market_id channel params :
  keeps P E (orderbook_market_id channel params).
Proof using Type.
  unfold orderbook_market_id. destruct (is_string channel "orderbook").
  - apply keeps_prop.
  - apply keeps_ret.
Qed.

Lemma keeps_map_key v : keeps P E (map_key v).
Proof using P_heap.
  destruct v; cbn [map_key]; try apply keeps_ret.
  all: apply keeps_get; intros s Hs; (apply keeps_bind; [| |done]);
    [apply keeps_modify; intros s'; apply P_heap|intros _; apply keeps_ret].
Qed.

Lemma keeps_when_truthy v (body : json → M unit) :
  (∀ x, keeps P E (body x)) → keeps P E (when_truthy v body).
Proof using Type.
  intros Hb. unfold when_truthy. destruct v as [x|]; [|apply keeps_ret].
  destruct (Js.truthy (Some x)); [apply Hb|apply keeps_ret].
Qed.

Lemma keeps_handleSubscribe c data : keeps P E (handleSubscribe c data).
Proof using All.
  unfold handleSubscribe. apply keeps_get. intros s Hs.
  destruct (clients s !! c); [|by apply keeps_ret].
  apply keeps_bind; [apply keeps_prop| |done]. intros channel.
  apply keeps_bind; [apply keeps_prop|]. intros params.
  apply keeps_bind; [apply keeps_literal|]. intros key.
  apply keeps_bind; [apply keeps_modify; intros s';
    apply (P_keys (λ S, {[key]} ∪ S))|].
  intros _. apply keeps_bind; [apply keeps_orderbook_market_id|]. intros market_id.
  apply keeps_bind.
  { apply keeps_when_truthy. intros v. apply keeps_bind; [apply keeps_map_key|].
    intros k. apply keeps_subscribeToOrderbook. }
  intros _. apply keeps_get. intros s' Hs'.
  apply keeps_bind; [| |done].
  { destruct (decide (polymarketWs s' = Some OPEN)); [|apply keeps_ret].
    apply keeps_emit. by eapply E_forward. }
  intros _. apply keeps_sendToClient.
Qed.

Lemma keeps_handleUnsubscribe c data : keeps P E (handleUnsubscribe c data).
Proof using P_subscriptions P_timers P_intervals P_heap P_keys E_log E_send.
  unfold handleUnsubscribe. apply keeps_get. intros s Hs.
  destruct (clients s !! c); [|by apply keeps_ret].
  apply keeps_bind; [apply keeps_prop| |done]. intros channel.
  apply keeps_bind; [apply keeps_prop|]. intros params.
  apply keeps_bind; [apply keeps_literal|]. intros key.
  apply keeps_bind; [apply keeps_modify; intros s';
    apply (P_keys (λ S, S ∖ {[key]}))|].
  intros _. apply keeps_bind; [apply keeps_orderbook_market_id|]. intros market_id.
  apply keeps_bind.
  { apply keeps_when_truthy. intros v. apply keeps_bind; [apply keeps_map_key|].
    intros k. apply keeps_unsubscribeFromOrderbook. }
  intros _. apply keeps_sendToClient.
Qed.

Lemma keeps_handleClientMessage c data : keeps P E (handleClientMessage c data).
Proof using All.
  unfold handleClientMessage. apply keeps_get. intros s Hs.
  destruct (clients s !! c); [|by apply keeps_ret].
  apply keeps_bind; [apply keeps_prop| |done]. intros type.
  destruct (is_string type "subscribe"); [apply keeps_handleSubscribe|].
  destruct (is_string type "unsubscribe"); [apply keeps_handleUnsubscribe|].
  destruct (is_string type "ping"); [apply keeps_sendToClient|].
  by apply keeps_emit.
Qed.

Lemma keeps_on_message c message : keeps P E (on_message c message).
Proof using All.
  unfold on_message. apply keeps_try_catch.
  - apply keeps_bind.
    + destruct message; cbn [JSON_parse]; [apply keeps_throw|apply keeps_ret].
    + intros data. apply keeps_handleClientMessage.
  - intros e. by apply keeps_emit.
Qed.

Lemma keeps_pollOrderbook_resume k r now : keeps P E (pollOrderbook_resume k r now).
Proof using E_log E_send.
  unfold pollOrderbook_resume.
  apply keeps_try_catch; [|intros e; apply keeps_log_market].
  destruct r as [e| |tokens]; [apply keeps_throw|apply keeps_log_market|].
  apply keeps_get. intros s Hs.
  destruct (orderbookSubscriptions s !! k) as [S|]; [|by apply keeps_ret].
  destruct (bool_decide _); [|by apply keeps_ret].
  apply keeps_for_each; [|done]. intros c. apply keeps_sendToClient.
Qed.

Lemma keeps_on_interval t : keeps P E (on_interval t).
Proof using P_polls E_fetch.
  unfold on_interval. apply keeps_get. intros s Hs.
  destruct (timers s !! t); [by apply keeps_pollOrderbook|by apply keeps_ret].
Qed.

Lemma keeps_on_settled i r now : keeps P E (on_settled i r now).
Proof using P_polls E_log E_send.
  unfold on_settled. apply keeps_get. intros s Hs.
  destruct (polls s !! i); [|by apply keeps_ret].
  apply keeps_bind; [| |done].
  - apply keeps_modify. intros s'. apply P_polls.
  - intros _. apply keeps_pollOrderbook_resume.
Qed.

Lemma keeps_broadcastPolymarketData message :
  keeps P E (broadcastPolymarketData message).
Proof using E_send.
  unfold broadcastPolymarketData. apply keeps_get. intros s Hs.
  apply keeps_for_each; [|done]. intros [c cl]. cbn [fst snd].
  destruct (isClientSubscribed cl message); [apply keeps_sendToClient|apply keeps_ret].
Qed.

Lemma keeps_on_upstream_message data : keeps P E (on_upstream_message data).
Proof using E_log E_send.
  unfold on_upstream_message. apply keeps_try_catch.
  - apply keeps_bind.
    + destruct data; cbn [JSON_parse]; [apply keeps_throw|apply keeps_ret].
    + intros message. apply keeps_broadcastPolymarketData.
  - intros e. by apply keeps_emit.
Qed.
End effects.

(** *** Printing a market id *)

Lemma log_market_printable k line s :
  printable s k = true → log_market k line s = Result (Ret tt) s [Log line].
Proof.
  unfold log_market, literal, printable, Js.prints. munfold.
  by destruct (Js.to_string _).
Qed.

Lemma log_market_unprintable k line s :
  printable s k = false → log_market k line s = Result (Throw "TypeError") s [].
Proof.
  unfold log_market, literal, printable, Js.prints. munfold.
  by destruct (Js.to_string _).
Qed.

Lemma log_market_final k line s : final (log_market k line s) = s.
Proof.
  destruct (printable s k) eqn:H.
  - by rewrite log_market_printable.
  - by rewrite log_market_unprintable.
Qed.

(** A key that is compared by value can always be printed. *)
Lemma printable_by_value s k : (∀ r, k ≠ KRef r) → printable s k = true.
Proof.
  intros H. destruct k as [|[]| | |r]; try done. by destruct (H r).
Qed.

(** Objects are only ever added to the heap. *)
Lemma printable_heap_app s h k :
  (∀ r, k = KRef r → (r < List.length (heap s))%nat) →
  printable (with_heap (heap s ++ h) s) k = printable s k.
Proof.
  intros H. unfold printable. destruct k as [| | | |r]; try done.
  cbn [key_value heap with_heap]. by rewrite lookup_app_l by eauto.
Qed.

(** *** The invariant *)

Lemma Inv_constructor : Inv constructor.
Proof.
  split; unfold constructor; scbn; intros *; rewrite ?lookup_empty; done.
Qed.

(** Steps that leave the registry and the heap alone keep the invariant,
    provided no client disappears. *)
Lemma Inv_frame s s' :
  Inv s →
  registry s' = registry s →
  next_timer s' = next_timer s →
  (∀ c, is_Some (clients s !! c) → is_Some (clients s' !! c)) →
  heap s' = heap s →
  Inv s'.
Proof.
  intros [I1 I2 I3 I4 I5 I6] Hr Hn Hc Hh. unfold registry in Hr.
  injection Hr as Hs Hi Ht.
  split; unfold printable; rewrite ?Hs, ?Hi, ?Ht, ?Hn, ?Hh; eauto.
Qed.

Lemma Inv_heap_app s h : Inv s → Inv (with_heap (heap s ++ h) s).
Proof.
  intros [I1 I2 I3 I4 I5 I6]. split; scbn; try done.
  - intros k S HS. rewrite printable_heap_app; [by apply I1|].
    intros r ->. apply I6. by eexists.
  - intros r Hr. rewrite length_app. specialize (I6 r Hr). lia.
Qed.

(** *** Subscribing *)

Lemma subscribe_existing c k s S :
  orderbookSubscriptions s !! k = Some S →
  printable s k = true →
  subscribeToOrderbook c k s
  = Result (Ret tt) (with_subscriptions <[k := {[c]} ∪ S]> s)
      [Log (LogSubscribed c k)].
Proof.
  intros H Hp. unfold subscribeToOrderbook.
  rewrite (bind_pure _ _ _ s) by done. rewrite H.
  rewrite (bind_pure _ _ _ tt) by done.
  rewrite (bind_pure _ _ _ s) by done. rewrite H.
  rewrite bind_modify. by rewrite log_market_printable.
Qed.

(** What [startOrderbookPolling] has done when it reaches its log line. *)
Lemma start_first k s :
  orderbookIntervals s !! k = None →
  startOrderbookPolling k s
  = let s1 := with_intervals <[k := next_timer s]>
                (with_timers <[next_timer s := k]> (S (next_timer s))
                   (with_polls (λ ps, (ps ++ [k])%list) s)) in
    if printable s k
    then Result (Ret tt) s1 [Fetch k; Log (LogStartedPolling k)]
    else Result (Throw "TypeError") s1 [Fetch k].
Proof.
  intros Hi. cbn zeta. unfold startOrderbookPolling.
  rewrite (bind_pure _ _ _ s) by done. rewrite Hi.
  rewrite (bind_pure _ _ _ tt) by done.
  unfold pollOrderbook, setInterval. munfold. scbn.
  match goal with |- context [log_market k ?l ?s1] =>
    change (printable s k) with (printable s1 k);
    destruct (printable s1 k) eqn:Hp;
    [rewrite (log_market_printable k l s1 Hp)
    |rewrite (log_market_unprintable k l s1 Hp)]
  end; done.
Qed.

Lemma subscribe_first c k s :
  orderbookSubscriptions s !! k = None →
  orderbookIntervals s !! k = None →
  printable s k = true →
  subscribeToOrderbook c k s
  = Result (Ret tt)
      (with_subscriptions <[k := {[c]} ∪ ∅]>
         (with_intervals <[k := next_timer s]>
            (with_timers <[next_timer s := k]> (S (next_timer s))
               (with_polls (λ ps, (ps ++ [k])%list)
                  (with_subscriptions <[k := ∅]> s)))))
      [Fetch k; Log (LogStartedPolling k); Log (LogSubscribed c k)].
Proof.
  intros H Hi Hp. unfold subscribeToOrderbook.
  rewrite (bind_pure _ _ _ s) by done. rewrite H.
  rewrite (bind_ret _ _ _ tt);
    rewrite bind_modify, start_first by done;
    change (printable (with_subscriptions <[k:=∅]> s) k) with (printable s k);
    rewrite Hp; [|done].
  scbn. rewrite (bind_pure _ _ _ _ eq_refl). scbn. rewrite lookup_insert_eq.
  rewrite bind_modify. by rewrite log_market_printable.
Qed.

(** The first subscription to a market whose id cannot be printed: the
    set is created, the fetch is started, the timer runs and is recorded,
    and the log line of [startOrderbookPolling] throws before the client
    is added. *)
Lemma subscribe_first_unprintable c k s :
  orderbookSubscriptions s !! k = None →
  orderbookIntervals s !! k = None →
  printable s k = false →
  subscribeToOrderbook c k s
  = Result (Throw "TypeError")
      (with_intervals <[k := next_timer s]>
         (with_timers <[next_timer s := k]> (S (next_timer s))
            (with_polls (λ ps, (ps ++ [k])%list)
               (with_subscriptions <[k := ∅]> s))))
      [Fetch k].
Proof.
  intros H Hi Hp. unfold subscribeToOrderbook.
  rewrite (bind_pure _ _ _ s) by done. rewrite H.
  unfold mbind at 1, M_bind at 1.
  rewrite bind_modify, start_first by done.
  change (printable (with_subscriptions <[k:=∅]> s) k) with (printable s k).
  by rewrite Hp.
Qed.

Lemma Inv_subscribe c k s :
  Inv s →
  is_Some (clients s !! c) →
  (∀ r, k = KRef r → (r < List.length (heap s))%nat) →
  printable s k = true ∨ orderbookSubscriptions s !! k = None →
  Inv (final (subscribeToOrderbook c k s))
  ∧ out (subscribeToOrderbook c k s)
    = if printable s k then Ret tt else Throw "TypeError".
Proof.
  intros [I1 I2 I3 I4 I5 I6] Hc Hk Hor.
  destruct (orderbookSubscriptions s !! k) as [S|] eqn:HS.
  - destruct Hor as [Hp|?]; [|done].
    rewrite (subscribe_existing _ _ _ S) by done. rewrite Hp. scbn.
    split; [|done]. split; scbn.
    + intros k' S' HS'. destruct (decide (k' = k)) as [->|]; simplify_map_eq.
      * change (printable _ k) with (printable s k). rewrite Hp.
        split; [set_solver|done].
      * by apply I1.
    + intros k'. rewrite <-I2.
      destruct (decide (k' = k)) as [->|]; simplify_map_eq; [|done].
      split; eauto.
    + done.
    + done.
    + intros k' S' c' HS' Hc'. destruct (decide (k' = k)) as [->|]; simplify_map_eq;
        [|eauto].
      apply elem_of_union in Hc' as [->%elem_of_singleton|?]; eauto.
    + intros r Hr. destruct (decide (KRef r = k)) as [<-|]; simplify_map_eq; eauto.
  - assert (orderbookIntervals s !! k = None) as Hi.
    { apply eq_None_not_Some. rewrite <-I2, HS. by intros [? ?]. }
    assert (timers s !! next_timer s = None) as Ht.
    { apply eq_None_not_Some. intros ?%I4. lia. }
    assert (∀ t k', <[next_timer s:=k]> (timers s) !! t = Some k'
                    ↔ <[k:=next_timer s]> (orderbookIntervals s) !! k' = Some t)
      as I3'.
    { intros t k'. destruct (decide (t = next_timer s)) as [->|Hne];
        destruct (decide (k' = k)) as [->|Hnk]; simplify_map_eq.
      * done.
      * split; [congruence|]. intros ?%I3. congruence.
      * split; [|congruence]. intros ?%I3. congruence.
      * apply I3. }
    assert (∀ t, is_Some (<[next_timer s:=k]> (timers s) !! t)
                 → (t < S (next_timer s))%nat) as I4'.
    { intros t Ht'. destruct (decide (t = next_timer s)) as [->|]; simplify_map_eq;
        [lia|]. apply I4 in Ht'. lia. }
    destruct (printable s k) eqn:Hp.
    + rewrite subscribe_first by done. scbn. split; [|done].
      split; scbn; [| |done|done| |].
      * intros k' S' HS'. rewrite insert_insert_eq in HS'.
        destruct (decide (k' = k)) as [->|]; simplify_map_eq.
        -- change (printable _ k) with (printable s k). rewrite Hp.
           split; [set_solver|done].
        -- by apply I1.
      * intros k'. rewrite insert_insert_eq.
        destruct (decide (k' = k)) as [->|]; simplify_map_eq; [|by rewrite <-I2].
        split; eauto.
      * intros k' S' c' HS' Hc'. rewrite insert_insert_eq in HS'.
        destruct (decide (k' = k)) as [->|]; simplify_map_eq; [|eauto].
        apply elem_of_union in Hc' as [->%elem_of_singleton|?]; [done|set_solver].
      * intros r Hr. rewrite insert_insert_eq in Hr.
        destruct (decide (KRef r = k)) as [<-|]; simplify_map_eq; eauto.
    + rewrite subscribe_first_unprintable by done. scbn. split; [|done].
      split; scbn; [| |done|done| |].
      * intros k' S' HS'.
        destruct (decide (k' = k)) as [->|]; simplify_map_eq.
        -- change (printable _ k) with (printable s k). by rewrite Hp.
        -- by apply I1.
      * intros k'.
        destruct (decide (k' = k)) as [->|]; simplify_map_eq; [|by rewrite <-I2].
        split; eauto.
      * intros k' S' c' HS' Hc'.
        destruct (decide (k' = k)) as [->|]; simplify_map_eq; [set_solver|eauto].
      * intros r Hr.
        destruct (decide (KRef r = k)) as [<-|]; simplify_map_eq; eauto.
Qed.

(** *** Unsubscribing *)

Lemma unsubscribe_absent c k s :
  orderbookSubscriptions s !! k = None →
  unsubscribeFromOrderbook c k s = Result (Ret tt) s [].
Proof.
  intros H. unfold unsubscribeFromOrderbook. munfold. by rewrite H.
Qed.

(** The log line of [unsubscribeFromOrderbook] throws after the client is
    deleted from the set and before the set is looked at. *)
Lemma unsubscribe_unprintable c k s S :
  orderbookSubscriptions s !! k = Some S →
  printable s k = false →
  unsubscribeFromOrderbook c k s
  = Result (Throw "TypeError") (with_subscriptions <[k := S ∖ {[c]}]> s) [].
Proof.
  intros H Hp. unfold unsubscribeFromOrderbook.
  rewrite (bind_pure _ _ _ s) by done. rewrite H. cbn zeta.
  rewrite bind_modify. unfold mbind, M_bind.
  by rewrite log_market_unprintable.
Qed.

Lemma unsubscribe_others c k s S :
  orderbookSubscriptions s !! k = Some S → S ∖ {[c]} ≠ ∅ →
  printable s k = true →
  unsubscribeFromOrderbook c k s
  = Result (Ret tt) (with_subscriptions <[k := S ∖ {[c]}]> s)
      [Log (LogUnsubscribed c k)].
Proof.
  intros H Hne Hp. unfold unsubscribeFromOrderbook.
  rewrite (bind_pure _ _ _ s) by done. rewrite H. cbn zeta.
  rewrite bind_modify.
  rewrite (bind_ret _ _ _ tt); rewrite log_market_printable by done; [|done].
  scbn. rewrite bool_decide_eq_false_2; [done|].
  rewrite size_empty_iff. set_solver.
Qed.

Lemma unsubscribe_last c k s S t :
  orderbookSubscriptions s !! k = Some S → S ∖ {[c]} = ∅ →
  orderbookIntervals s !! k = Some t →
  printable s k = true →
  unsubscribeFromOrderbook c k s
  = Result (Ret tt)
      (with_subscriptions (delete k)
         (with_intervals (delete k)
            (with_timers (delete t) (next_timer s) s)))
      [Log (LogUnsubscribed c k); Log (LogStoppedPolling k)].
Proof.
  intros H He Hi Hp. unfold unsubscribeFromOrderbook.
  rewrite (bind_pure _ _ _ s) by done. rewrite H. cbn zeta.
  rewrite bind_modify.
  rewrite (bind_ret _ _ _ tt); rewrite log_market_printable by done; [|done].
  scbn. rewrite bool_decide_eq_true_2 by (rewrite He; apply size_empty).
  unfold stopOrderbookPolling, clearInterval.
  rewrite (bind_ret _ _ _ tt);
    rewrite (bind_pure _ _ _ _ eq_refl); scbn; rewrite Hi;
    rewrite !bind_modify, log_market_printable by done; [|done].
  munfold. f_equal.
  unfold with_subscriptions, with_intervals, with_timers. scbn.
  f_equal. by rewrite delete_insert_eq.
Qed.

Lemma Inv_unsubscribe c k s :
  Inv s →
  Inv (final (unsubscribeFromOrderbook c k s))
  ∧ out (unsubscribeFromOrderbook c k s)
    = if decide (is_Some (orderbookSubscriptions s !! k) ∧ printable s k = false)
      then Throw "TypeError" else Ret tt.
Proof.
  intros HI. pose proof HI as [I1 I2 I3 I4 I5 I6].
  destruct (orderbookSubscriptions s !! k) as [S|] eqn:HS.
  2:{ rewrite unsubscribe_absent by done.
      rewrite decide_False by (by intros [[? ?] _]). done. }
  destruct (printable s k) eqn:Hp.
  2:{ rewrite (unsubscribe_unprintable _ _ _ S) by done.
      rewrite decide_True by (split; [by eexists|done]). scbn. split; [|done].
      assert (S = ∅) as -> by (by apply (I1 k)).
      replace (∅ ∖ {[c]} : gset string) with (∅ : gset string) by set_solver.
      apply (Inv_frame s); try done. unfold registry. scbn.
      by rewrite insert_id. }
  rewrite decide_False by (by intros [_ ?]).
  destruct (decide (S ∖ {[c]} = ∅)) as [He|Hne].
  - destruct (proj1 (I2 k)) as [t Ht]; [by rewrite HS|].
    rewrite (unsubscribe_last _ _ _ S t) by done. scbn. split; [|done].
    pose proof (proj2 (I3 t k) Ht) as Htk.
    split; scbn.
    + intros k' S' HS'. destruct (decide (k' = k)) as [->|]; simplify_map_eq.
      by apply I1.
    + intros k'. destruct (decide (k' = k)) as [->|]; simplify_map_eq; [|done].
      split; by intros [? ?].
    + intros t' k'. destruct (decide (t' = t)) as [->|Hnt];
        destruct (decide (k' = k)) as [->|Hnk]; simplify_map_eq.
      * done.
      * split; [done|]. intros ?%I3. congruence.
      * split; [|done]. intros ?%I3. congruence.
      * apply I3.
    + intros t' Ht'. destruct (decide (t' = t)) as [->|]; simplify_map_eq;
        [by destruct Ht'|eauto].
    + intros k' S' c' HS' Hc'.
      destruct (decide (k' = k)) as [->|]; simplify_map_eq; eauto.
    + intros r Hr. destruct (decide (KRef r = k)) as [<-|]; simplify_map_eq;
        [by destruct Hr|eauto].
  - rewrite (unsubscribe_others _ _ _ S) by done. scbn. split; [|done].
    split; scbn.
    + intros k' S' HS'. destruct (decide (k' = k)) as [->|]; simplify_map_eq.
      * change (printable _ k) with (printable s k). by rewrite Hp.
      * by apply I1.
    + intros k'. rewrite <-I2.
      destruct (decide (k' = k)) as [->|]; simplify_map_eq; [|done].
      split; eauto.
    + done.
    + done.
    + intros k' S' c' HS' Hc'.
      destruct (decide (k' = k)) as [->|]; simplify_map_eq; [|eauto].
      apply elem_of_difference in Hc' as [? _]. eauto.
    + intros r Hr. destruct (decide (KRef r = k)) as [<-|]; simplify_map_eq; eauto.
Qed.

(** The registry methods touch neither the clients, nor the upstream
    socket, nor the heap. *)
Lemma keeps_final {A} P E (m : M A) s : keeps P E m → P s → P (final (m s)).
Proof. intros H Hs. by destruct (H s Hs). Qed.

Lemma subscribe_clients c k s :
  clients (final (subscribeToOrderbook c k s)) = clients s
  ∧ polymarketWs (final (subscribeToOrderbook c k s)) = polymarketWs s
  ∧ heap (final (subscribeToOrderbook c k s)) = heap s.
Proof.
  apply (keeps_final (λ s', clients s' = clients s
                            ∧ polymarketWs s' = polymarketWs s
                            ∧ heap s' = heap s) (λ _, True)); [|done].
  by apply keeps_subscribeToOrderbook.
Qed.

Lemma unsubscribe_clients c k s :
  clients (final (unsubscribeFromOrderbook c k s)) = clients s
  ∧ polymarketWs (final (unsubscribeFromOrderbook c k s)) = polymarketWs s
  ∧ polls (final (unsubscribeFromOrderbook c k s)) = polls s
  ∧ heap (final (unsubscribeFromOrderbook c k s)) = heap s.
Proof.
  apply (keeps_final (λ s', clients s' = clients s
                            ∧ polymarketWs s' = polymarketWs s
                            ∧ polls s' = polls s
                            ∧ heap s' = heap s) (λ _, True)); [|done].
  by apply keeps_unsubscribeFromOrderbook.
Qed.

(** A market that has a subscriber can be printed. *)
Lemma holds_printable s c k : Inv s → holds s c k → printable s k = true.
Proof.
  intros HI (S & HS & Hc). destruct (printable s k) eqn:Hp; [done|].
  apply (inv_nonempty s HI k S HS) in Hp. set_solver.
Qed.

(** *** Disconnecting *)

Lemma cleanup_body_spec c k s :
  Inv s →
  out (cleanup_body c k s) = Ret tt
  ∧ Inv (final (cleanup_body c k s))
  ∧ clients (final (cleanup_body c k s)) = clients s
  ∧ heap (final (cleanup_body c k s)) = heap s
  ∧ ∀ k', holds (final (cleanup_body c k s)) c k' → holds s c k' ∧ k' ≠ k.
Proof.
  intros HI. unfold cleanup_body. rewrite (bind_pure _ _ _ s) by done.
  destruct (orderbookSubscriptions s !! k) as [S|] eqn:HS.
  2:{ munfold. do 4 (split; [done|]). intros k' Hh. split; [done|].
      intros ->. destruct Hh as (? & ? & _). congruence. }
  destruct (decide (c ∈ S)) as [Hin|Hnin].
  2:{ munfold. do 4 (split; [done|]). intros k' Hh. split; [done|].
      intros ->. destruct Hh as (S' & ? & ?). congruence. }
  assert (printable s k = true) as Hp.
  { apply (holds_printable s c); [done|]. by exists S. }
  destruct (Inv_unsubscribe c k s HI) as [HI' Ho].
  rewrite decide_False in Ho by (rewrite Hp; by intros [_ ?]).
  destruct (unsubscribe_clients c k s) as (Hcl & _ & _ & Hhp).
  split; [done|]. split; [done|]. split; [done|]. split; [done|].
  intros k' (S' & HS' & Hc').
  destruct (decide (S ∖ {[c]} = ∅)) as [He|Hne].
  - destruct (proj1 (inv_interval s HI k)) as [t Ht]; [by rewrite HS|].
    rewrite (unsubscribe_last _ _ _ S t) in HS' by done. scbn.
    destruct (decide (k' = k)) as [->|]; simplify_map_eq.
    split; [|done]. by exists S'.
  - rewrite (unsubscribe_others _ _ _ S) in HS' by done. scbn.
    destruct (decide (k' = k)) as [->|]; simplify_map_eq; [set_solver|].
    split; [|done]. by exists S'.
Qed.

Lemma cleanup_loop c (ks : list mkey) s :
  Inv s →
  out (for_each ks (cleanup_body c) s) = Ret tt
  ∧ Inv (final (for_each ks (cleanup_body c) s))
  ∧ clients (final (for_each ks (cleanup_body c) s)) = clients s
  ∧ heap (final (for_each ks (cleanup_body c) s)) = heap s
  ∧ ∀ k, holds (final (for_each ks (cleanup_body c) s)) c k →
         holds s c k ∧ k ∉ ks.
Proof.
  revert s. induction ks as [|k ks IH]; intros s HI; cbn [for_each].
  { munfold. do 4 (split; [done|]). intros k Hk. split; [done|]. set_solver. }
  destruct (cleanup_body_spec c k s HI) as (Ho & HI1 & Hc1 & Hp1 & Hh1).
  rewrite (bind_ret _ _ _ tt) by done. scbn.
  destruct (IH _ HI1) as (Ho2 & HI2 & Hc2 & Hp2 & Hh2).
  split; [done|]. split; [done|]. split; [congruence|]. split; [congruence|].
  intros k' Hk'. destruct (Hh2 _ Hk') as [Hk1 Hnin].
  destruct (Hh1 _ Hk1) as [Hk0 Hne]. split; [done|]. set_solver.
Qed.

Lemma cleanup_spec c s :
  Inv s →
  out (cleanupClientSubscriptions c s) = Ret tt
  ∧ Inv (final (cleanupClientSubscriptions c s))
  ∧ clients (final (cleanupClientSubscriptions c s)) = clients s
  ∧ heap (final (cleanupClientSubscriptions c s)) = heap s
  ∧ ∀ k, ¬ holds (final (cleanupClientSubscriptions c s)) c k.
Proof.
  intros HI. unfold cleanupClientSubscriptions.
  rewrite (bind_pure _ _ _ s) by done.
  destruct (cleanup_loop c (map_to_list (orderbookSubscriptions s)).*1 s HI)
    as (Ho & HI' & Hc & Hp & Hh).
  do 4 (split; [done|]).
  intros k Hk. destruct (Hh _ Hk) as [(S & HS & _) Hnin]. apply Hnin.
  apply list_elem_of_fmap. exists (k, S). split; [done|].
  by apply elem_of_map_to_list.
Qed.

(** A connection that holds nothing is cleaned up without any change. *)
Lemma cleanup_nothing c s :
  (∀ k, ¬ holds s c k) →
  cleanupClientSubscriptions c s = Result (Ret tt) s [].
Proof.
  intros Hn. unfold cleanupClientSubscriptions.
  rewrite (bind_pure _ _ _ s) by done.
  assert (∀ k, cleanup_body c k s = Result (Ret tt) s []) as Hb.
  { intros k. unfold cleanup_body. rewrite (bind_pure _ _ _ s) by done.
    destruct (orderbookSubscriptions s !! k) as [S|] eqn:HS; [|done].
    destruct (decide (c ∈ S)); [|done]. exfalso. apply (Hn k). by exists S. }
  destruct (for_each_frame (map_to_list (orderbookSubscriptions s)).*1
              (cleanup_body c) s) as (Ho & Hf & Ht).
  { intros k. by rewrite Hb. }
  destruct (for_each _ _ s) as [o f t]. scbn. subst. f_equal.
  induction (map_to_list (orderbookSubscriptions s)).*1 as [|k ks IH];
    cbn [flat_map]; [done|].
  by rewrite Hb, IH.
Qed.

Lemma Inv_on_close c s :
  Inv s →
  out (on_close c s) = Ret tt ∧ Inv (final (on_close c s)).
Proof.
  intros HI. unfold on_close.
  destruct (cleanup_spec c s HI) as (Ho & HI' & Hc & Hp & Hh).
  munfold. destruct (cleanupClientSubscriptions c s) as [[[]|e] s1 t1]; scbn;
    [|done].
  split; [done|].
  destruct HI' as [I1 I2 I3 I4 I5 I6].
  split; scbn; try done.
  intros k S c' HS Hin. destruct (decide (c' = c)) as [->|Hne].
  - exfalso. apply (Hh k). by exists S.
  - rewrite lookup_delete_ne by done. eauto.
Qed.

(** *** Handling messages *)

Lemma prop_pure v k s :
  (∃ x, prop v k s = Result (Ret x) s [])
  ∨ (∃ e, prop v k s = Result (Throw e) s []).
Proof.
  destruct v as [[]|]; scbn; munfold; eauto.
Qed.

Lemma orderbook_market_id_pure ch ps s :
  (∃ x, orderbook_market_id ch ps s = Result (Ret x) s [])
  ∨ (∃ e, orderbook_market_id ch ps s = Result (Throw e) s []).
Proof.
  unfold orderbook_market_id. destruct (is_string ch "orderbook").
  - apply prop_pure.
  - left. by exists None.
Qed.

Lemma literal_pure (text : option string) s :
  literal text s
  = match text with
    | Some x => Result (Ret x) s []
    | None => Result (Throw "TypeError") s []
    end.
Proof. by destruct text. Qed.

(** A value compared by value is its own key and can be printed; an
    array or an object gets the next address. *)
Lemma map_key_by_value v s :
  by_value v = true → map_key v s = Result (Ret (value_key v)) s [].
Proof. by destruct v. Qed.

Lemma map_key_by_reference v s :
  by_value v = false →
  map_key v s
  = Result (Ret (KRef (List.length (heap s)))) (with_heap (heap s ++ [v]) s) [].
Proof. by destruct v. Qed.

Lemma by_value_prints v : by_value v = true → Js.prints v = true.
Proof. by destruct v as [|[]| | | |]. Qed.

Lemma key_value_value_key h v : by_value v = true → key_value h (value_key v) = v.
Proof. by destruct v. Qed.

Lemma printable_value_key s v :
  by_value v = true → printable s (value_key v) = true.
Proof.
  intros H. unfold printable. rewrite key_value_value_key by done.
  by apply by_value_prints.
Qed.

Lemma printable_fresh s v :
  printable (with_heap (heap s ++ [v]) s) (KRef (List.length (heap s)))
  = Js.prints v.
Proof.
  unfold printable. cbn [key_value heap with_heap].
  rewrite lookup_app_r by done. by rewrite Nat.sub_diag.
Qed.

(** What [map_key] does to the state and which key it gives. *)
Lemma map_key_spec v s :
  ∃ k s', map_key v s = Result (Ret k) s' []
    ∧ registry s' = registry s
    ∧ clients s' = clients s
    ∧ polymarketWs s' = polymarketWs s
    ∧ next_timer s' = next_timer s
    ∧ polls s' = polls s
    ∧ (Inv s → Inv s')
    ∧ printable s' k = Js.prints v
    ∧ (∀ k', is_Some (orderbookSubscriptions s !! k') →
             Inv s → printable s' k' = printable s k')
    ∧ (∀ r, k = KRef r → r = List.length (heap s) ∧ (r < List.length (heap s'))%nat)
    ∧ (by_value v = true → k = value_key v ∧ s' = s).
Proof.
  destruct (by_value v) eqn:Hv.
  - exists (value_key v), s. rewrite map_key_by_value by done.
    do 7 (split; [done|]).
    split; [by rewrite printable_value_key, by_value_prints|].
    split; [done|]. split; [|done]. intros r Hr. by destruct v.
  - exists (KRef (List.length (heap s))), (with_heap (heap s ++ [v]) s).
    rewrite map_key_by_reference by done.
    do 6 (split; [done|]). split; [apply Inv_heap_app|].
    split; [apply printable_fresh|]. split; [|split; [|done]].
    + intros k' Hk' HI. apply printable_heap_app. intros r ->.
      by apply (inv_heap s HI).
    + intros r [= <-]. split; [done|]. scbn. rewrite length_app. cbn. lia.
Qed.

(** Forwarding upstream and acknowledging change nothing. *)
Lemma acknowledge_silent (e : effect) c d s0 :
  out ((s ← get;
        (if decide (polymarketWs s = Some OPEN) then emit e else skip);;
        sendToClient c d) s0) = Ret tt
  ∧ final ((s ← get;
            (if decide (polymarketWs s = Some OPEN) then emit e else skip);;
            sendToClient c d) s0) = s0.
Proof.
  rewrite (bind_pure _ _ _ s0) by done.
  destruct (decide (polymarketWs s0 = Some OPEN)).
  - rewrite (bind_ret _ _ _ tt) by done. munfold. by rewrite sendToClient_result.
  - rewrite (bind_pure _ _ _ tt) by done. by rewrite sendToClient_result.
Qed.

Lemma same_sockets_refl s : same_sockets s s.
Proof. by intros c. Qed.

Lemma same_sockets_trans s1 s2 s3 :
  same_sockets s1 s2 → same_sockets s2 s3 → same_sockets s1 s3.
Proof. intros H1 H2 c. by rewrite H2, H1. Qed.

Lemma same_sockets_eq s s' : clients s' = clients s → same_sockets s s'.
Proof. intros H c. by rewrite H. Qed.

Lemma same_sockets_alter (f : gset string → gset string) c s :
  same_sockets s
    (with_clients (alter (λ client, Client (ws client) (f (subscriptions client))) c) s).
Proof.
  intros c'. scbn. destruct (decide (c' = c)) as [->|Hne].
  - rewrite lookup_alter_eq. by destruct (clients s !! c).
  - by rewrite lookup_alter_ne.
Qed.

Lemma same_sockets_is_Some s s' c :
  same_sockets s s' → is_Some (clients s !! c) → is_Some (clients s' !! c).
Proof.
  intros H [cl Hcl]. specialize (H c). rewrite Hcl in H.
  destruct (clients s' !! c); [eauto|done].
Qed.

Lemma when_truthy_subscribe c mid s :
  Inv s → is_Some (clients s !! c) →
  let blk := when_truthy mid (λ v, k ← map_key v; subscribeToOrderbook c k) in
  Inv (final (blk s))
  ∧ clients (final (blk s)) = clients s
  ∧ polymarketWs (final (blk s)) = polymarketWs s
  ∧ out (blk s) = (if falsy_or_prints mid then Ret tt else Throw "TypeError").
Proof.
  intros HI Hc. cbn zeta. unfold when_truthy, falsy_or_prints.
  destruct mid as [v|]; [destruct (Js.truthy (Some v))|]; [|done..].
  cbn [negb orb].
  destruct (map_key_spec v s)
    as (k & s2 & Hk & Hreg & Hcl & Hws & Hnt & _ & HI2 & Hp & _ & Hr & Hbv).
  rewrite (bind_pure_gen _ _ _ s2 k) by done. specialize (HI2 HI).
  destruct (Inv_subscribe c k s2 HI2) as [HI3 Ho].
  { by rewrite Hcl. }
  { intros r ->. by destruct (Hr r eq_refl). }
  { destruct (by_value v) eqn:Hv.
    - left. rewrite Hp. by apply by_value_prints.
    - right. unfold registry in Hreg. injection Hreg as Hs _ _. rewrite Hs.
      destruct v; try done.
      all: rewrite map_key_by_reference in Hk by done; injection Hk as <- _.
      all: apply eq_None_not_Some; intros ?%(inv_heap s HI); lia. }
  destruct (subscribe_clients c k s2) as (Hcl3 & Hws3 & _).
  split; [done|]. split; [congruence|]. split; [congruence|].
  by rewrite Ho, Hp.
Qed.

Lemma when_truthy_unsubscribe c mid s :
  Inv s →
  let blk := when_truthy mid (λ v, k ← map_key v; unsubscribeFromOrderbook c k) in
  out (blk s) = Ret tt ∧ Inv (final (blk s))
  ∧ clients (final (blk s)) = clients s
  ∧ polymarketWs (final (blk s)) = polymarketWs s.
Proof.
  intros HI. cbn zeta. unfold when_truthy.
  destruct mid as [v|]; [destruct (Js.truthy (Some v))|]; [|done..].
  destruct (map_key_spec v s)
    as (k & s2 & Hk & Hreg & Hcl & Hws & Hnt & _ & HI2 & Hp & _ & Hr & Hbv).
  rewrite (bind_pure_gen _ _ _ s2 k) by done. specialize (HI2 HI).
  destruct (Inv_unsubscribe c k s2 HI2) as [HI3 Ho].
  destruct (unsubscribe_clients c k s2) as (Hcl3 & Hws3 & _).
  split; [|split; [done|split; congruence]].
  rewrite Ho. apply decide_False. intros [Hin Hnp].
  destruct (by_value v) eqn:Hv.
  - rewrite Hp, by_value_prints in Hnp; done.
  - unfold registry in Hreg. injection Hreg as Hs _ _. rewrite Hs in Hin.
    destruct v; try done.
    all: rewrite map_key_by_reference in Hk by done; injection Hk as <- _.
    all: apply (inv_heap s HI) in Hin; lia.
Qed.

Lemma Inv_handleSubscribe c data s :
  Inv s →
  Inv (final (handleSubscribe c data s))
  ∧ same_sockets s (final (handleSubscribe c data s)).
Proof.
  intros HI. unfold handleSubscribe.
  rewrite (bind_pure _ _ _ s) by done.
  destruct (clients s !! c) as [cl|] eqn:Hc; [|split; [done|apply same_sockets_refl]].
  destruct (prop_pure (Some data) "channel" s) as [[ch H]|[e H]].
  2:{ rewrite (bind_pure_throw _ _ _ e) by done. split; [done|apply same_sockets_refl]. }
  rewrite (bind_pure _ _ _ ch) by done. clear H.
  destruct (prop_pure (Some data) "params" s) as [[ps H]|[e H]].
  2:{ rewrite (bind_pure_throw _ _ _ e) by done. split; [done|apply same_sockets_refl]. }
  rewrite (bind_pure _ _ _ ps) by done. clear H.
  destruct (subscriptionKey ch ps) as [key|].
  2:{ rewrite (bind_pure_throw _ _ _ "TypeError") by done.
      split; [done|apply same_sockets_refl]. }
  rewrite (bind_pure _ _ _ key) by done.
  rewrite bind_modify. set (s1 := with_clients _ s).
  assert (same_sockets s s1) as Hss1 by apply same_sockets_alter.
  assert (Inv s1) as HI1.
  { apply (Inv_frame s); try done. intros c'. by apply same_sockets_is_Some. }
  destruct (orderbook_market_id_pure ch ps s1) as [[mid H]|[e H]].
  2:{ by rewrite (bind_pure_throw _ _ _ e). }
  rewrite (bind_pure _ _ _ mid) by done. clear H.
  destruct (when_truthy_subscribe c mid s1 HI1) as (HI2 & Hcl2 & _ & Ho).
  { apply (same_sockets_is_Some s); [done|]. by rewrite Hc. }
  cbn zeta in *.
  assert (same_sockets s (final (when_truthy mid
            (λ v, k ← map_key v; subscribeToOrderbook c k) s1))) as Hss2.
  { apply (same_sockets_trans _ s1); [done|]. by apply same_sockets_eq. }
  destruct (falsy_or_prints mid).
  - rewrite (bind_ret _ _ _ tt) by done. scbn.
    match goal with |- context [ (get ≫= ?f) ?s2 ] =>
      destruct (acknowledge_silent (UpstreamSubscribe ch ps) c
        (Js.obj [("type", Some (JStr "subscribed")); ("channel", ch); ("params", ps)]) s2)
        as [_ ->] end.
    done.
  - by rewrite (bind_throw _ _ _ "TypeError").
Qed.

Lemma Inv_handleUnsubscribe c data s :
  Inv s →
  Inv (final (handleUnsubscribe c data s))
  ∧ same_sockets s (final (handleUnsubscribe c data s)).
Proof.
  intros HI. unfold handleUnsubscribe.
  rewrite (bind_pure _ _ _ s) by done.
  destruct (clients s !! c) as [cl|] eqn:Hc; [|split; [done|apply same_sockets_refl]].
  destruct (prop_pure (Some data) "channel" s) as [[ch H]|[e H]].
  2:{ rewrite (bind_pure_throw _ _ _ e) by done. split; [done|apply same_sockets_refl]. }
  rewrite (bind_pure _ _ _ ch) by done. clear H.
  destruct (prop_pure (Some data) "params" s) as [[ps H]|[e H]].
  2:{ rewrite (bind_pure_throw _ _ _ e) by done. split; [done|apply same_sockets_refl]. }
  rewrite (bind_pure _ _ _ ps) by done. clear H.
  destruct (subscriptionKey ch ps) as [key|].
  2:{ rewrite (bind_pure_throw _ _ _ "TypeError") by done.
      split; [done|apply same_sockets_refl]. }
  rewrite (bind_pure _ _ _ key) by done.
  rewrite bind_modify. set (s1 := with_clients _ s).
  assert (same_sockets s s1) as Hss1
    by apply (same_sockets_alter (λ S, S ∖ {[key]})).
  assert (Inv s1) as HI1.
  { apply (Inv_frame s); try done. intros c'. by apply same_sockets_is_Some. }
  destruct (orderbook_market_id_pure ch ps s1) as [[mid H]|[e H]].
  2:{ by rewrite (bind_pure_throw _ _ _ e). }
  rewrite (bind_pure _ _ _ mid) by done. clear H.
  destruct (when_truthy_unsubscribe c mid s1 HI1) as (Ho & HI2 & Hcl2 & _).
  rewrite (bind_ret _ _ _ tt) by done. scbn.
  rewrite sendToClient_result. scbn.
  split; [done|].
  apply (same_sockets_trans _ s1); [done|]. by apply same_sockets_eq.
Qed.

Lemma Inv_handleClientMessage c data s :
  Inv s →
  Inv (final (handleClientMessage c data s))
  ∧ same_sockets s (final (handleClientMessage c data s)).
Proof.
  intros HI. unfold handleClientMessage.
  rewrite (bind_pure _ _ _ s) by done.
  destruct (clients s !! c) as [cl|] eqn:Hc; [|split; [done|apply same_sockets_refl]].
  destruct (prop_pure (Some data) "type" s) as [[ty H]|[e H]].
  2:{ rewrite (bind_pure_throw _ _ _ e) by done. split; [done|apply same_sockets_refl]. }
  rewrite (bind_pure _ _ _ ty) by done. clear H.
  destruct (is_string ty "subscribe"); [by apply Inv_handleSubscribe|].
  destruct (is_string ty "unsubscribe"); [by apply Inv_handleUnsubscribe|].
  destruct (is_string ty "ping").
  - rewrite sendToClient_result. split; [done|apply same_sockets_refl].
  - split; [done|apply same_sockets_refl].
Qed.

(** No exception escapes a [try]/[catch] whose handler only logs. *)
Lemma try_catch_log (body : M unit) (line : string → console) s :
  out (try_catch body (λ e, emit (Log (line e))) s) = Ret tt
  ∧ final (try_catch body (λ e, emit (Log (line e))) s) = final (body s).
Proof.
  unfold try_catch. destruct (body s) as [[[]|e] s1 t1]; munfold; done.
Qed.

Lemma Inv_on_message c m s :
  Inv s →
  out (on_message c m s) = Ret tt
  ∧ Inv (final (on_message c m s))
  ∧ same_sockets s (final (on_message c m s)).
Proof.
  intros HI. unfold on_message.
  destruct (try_catch_log (data ← JSON_parse m; handleClientMessage c data)
              LogParseError s) as [-> ->].
  split; [done|]. destruct m as [|data]; unfold JSON_parse.
  - rewrite (bind_pure_throw _ _ _ "SyntaxError") by done.
    split; [done|apply same_sockets_refl].
  - rewrite (bind_pure _ _ _ data) by done. by apply Inv_handleClientMessage.
Qed.

Lemma Inv_on_connection c now s :
  Inv s →
  out (on_connection c now s) = Ret tt ∧ Inv (final (on_connection c now s)).
Proof.
  intros HI. unfold on_connection.
  rewrite (bind_ret _ _ _ tt) by done. munfold.
  rewrite sendToClient_result. scbn. split; [done|].
  apply (Inv_frame s); try done. scbn. intros c' Hc'.
  destruct (decide (c' = c)) as [->|]; simplify_map_eq; eauto.
Qed.

Lemma Inv_on_interval t s :
  Inv s →
  out (on_interval t s) = Ret tt ∧ Inv (final (on_interval t s)).
Proof.
  intros HI. unfold on_interval. rewrite (bind_pure _ _ _ s) by done.
  destruct (timers s !! t) as [k|]; [|done].
  unfold pollOrderbook. munfold. split; [done|]. by apply (Inv_frame s).
Qed.

(** *** The end of a poll *)

(** The broadcast of a poll that came back with data. *)
Lemma resume_tokens k tokens now s :
  pollOrderbook_resume k (FetchTokens tokens) now s
  = Result (Ret tt) s
      (flat_map (λ c, trace (sendToClient c
                   (orderbook_message (key_value (heap s) k) tokens now) s))
         (elements (default ∅ (orderbookSubscriptions s !! k)))).
Proof.
  unfold pollOrderbook_resume, try_catch. rewrite (bind_pure _ _ _ s) by done.
  destruct (orderbookSubscriptions s !! k) as [S|]; cbn [default];
    [|by rewrite elements_empty].
  destruct (decide (0 < size S)%nat) as [Hpos|Hz].
  - rewrite bool_decide_eq_true_2 by done.
    destruct (for_each_frame (elements S)
      (λ c, sendToClient c (orderbook_message (key_value (heap s) k) tokens now)) s)
      as (Ho & Hf & Ht).
    { intros c. by rewrite sendToClient_result. }
    destruct (for_each _ _ s) as [o f t]. scbn. by subst.
  - rewrite bool_decide_eq_false_2 by done.
    assert (S = ∅) as ->.
    { apply leibniz_equiv, size_empty_iff. lia. }
    by rewrite elements_empty.
Qed.

(** A poll that failed prints its line, if the market id can be printed;
    if it cannot, the [catch] block throws. *)
Lemma resume_failed k r now s :
  failed r = true →
  pollOrderbook_resume k r now s
  = if printable s k
    then Result (Ret tt) s (map Log (failure_line k r))
    else Result (Throw "TypeError") s [].
Proof.
  intros Hr. unfold pollOrderbook_resume, try_catch.
  destruct r as [e| |tokens]; [| |done]; cbn [failure_line map].
  - munfold. destruct (printable s k) eqn:Hp.
    + by rewrite log_market_printable.
    + by rewrite log_market_unprintable.
  - destruct (printable s k) eqn:Hp.
    + by rewrite log_market_printable.
    + by rewrite !log_market_unprintable.
Qed.

Lemma resume_final k r now s : final (pollOrderbook_resume k r now s) = s.
Proof.
  destruct (failed r) eqn:Hr.
  - rewrite resume_failed by done. by destruct (printable s k).
  - destruct r; try done. by rewrite resume_tokens.
Qed.

Lemma resume_out k r now s :
  out (pollOrderbook_resume k r now s)
  = if failed r && negb (printable s k) then Throw "TypeError" else Ret tt.
Proof.
  destruct (failed r) eqn:Hr.
  - rewrite resume_failed by done. by destruct (printable s k).
  - destruct r; try done. by rewrite resume_tokens.
Qed.

Lemma Inv_on_settled i r now s :
  Inv s → Inv (final (on_settled i r now s)).
Proof.
  intros HI. unfold on_settled. rewrite (bind_pure _ _ _ s) by done.
  destruct (polls s !! i) as [k|]; [|done].
  rewrite bind_modify, resume_final. by apply (Inv_frame s).
Qed.

Lemma on_settled_out i r now s :
  out (on_settled i r now s)
  = match polls s !! i with
    | Some k => if failed r && negb (printable s k) then Throw "TypeError" else Ret tt
    | None => Ret tt
    end.
Proof.
  unfold on_settled. rewrite (bind_pure _ _ _ s) by done.
  destruct (polls s !! i) as [k|]; [|done].
  by rewrite bind_modify, resume_out.
Qed.

Lemma broadcastPolymarketData_silent message s :
  out (broadcastPolymarketData message s) = Ret tt
  ∧ final (broadcastPolymarketData message s) = s.
Proof.
  unfold broadcastPolymarketData. rewrite (bind_pure _ _ _ s) by done.
  match goal with |- context [for_each ?xs ?body s] =>
    destruct (for_each_frame xs body s) as (Ho & Hf & _); [|done] end.
  intros [c cl]. cbn [fst snd]. destruct (isClientSubscribed cl message); [|done].
  by rewrite sendToClient_result.
Qed.

Lemma Inv_on_upstream_message data s :
  Inv s →
  out (on_upstream_message data s) = Ret tt
  ∧ Inv (final (on_upstream_message data s)).
Proof.
  intros HI. unfold on_upstream_message.
  destruct (try_catch_log (message ← JSON_parse data; broadcastPolymarketData message)
              LogUpstreamParseError s) as [-> ->].
  split; [done|]. destruct data as [|message]; unfold JSON_parse.
  - by rewrite (bind_pure_throw _ _ _ "SyntaxError").
  - rewrite (bind_pure _ _ _ message) by done.
    by destruct (broadcastPolymarketData_silent message s) as [_ ->].
Qed.

(** *** The event loop *)

(** Every callback keeps the invariant. *)
Lemma Inv_step ev s : Inv s → Inv (final (step ev s)).
Proof.
  intros HI. destruct ev; cbn [step].
  - by apply Inv_on_connection.
  - by apply Inv_on_message.
  - by apply Inv_on_close.
  - done.
  - munfold. apply (Inv_frame s); try done.
    intros c [cl Hcl]. scbn. destruct (decide (c = clientId)) as [->|Hne].
    + rewrite lookup_alter_eq, Hcl. by eexists.
    + rewrite lookup_alter_ne, Hcl by done. by eexists.
  - by apply Inv_on_interval.
  - by apply Inv_on_settled.
  - unfold connectToPolymarket. munfold. by apply (Inv_frame s).
  - munfold. by apply (Inv_frame s).
  - done.
  - by apply Inv_on_upstream_message.
  - unfold on_upstream_close. munfold. by apply (Inv_frame s).
  - done.
  - unfold on_reconnect. rewrite (bind_pure _ _ _ s) by done.
    destruct (reconnects s); [done|].
    unfold connectToPolymarket. munfold. by apply (Inv_frame s).
Qed.

(** The only callback that throws is the end of a poll that failed for a
    market whose id cannot be printed. *)
Lemma step_out ev s :
  Inv s →
  out (step ev s)
  = match ev with
    | EvSettled i r now =>
        match polls s !! i with
        | Some k =>
            if failed r && negb (printable s k) then Throw "TypeError" else Ret tt
        | None => Ret tt
        end
    | _ => Ret tt
    end.
Proof.
  intros HI. destruct ev; cbn [step]; try done.
  - by apply Inv_on_connection.
  - by apply Inv_on_message.
  - by apply Inv_on_close.
  - by apply Inv_on_interval.
  - apply on_settled_out.
  - by apply Inv_on_upstream_message.
  - unfold on_reconnect. rewrite (bind_pure _ _ _ s) by done.
    by destruct (reconnects s).
Qed.

Lemma Inv_run evs s : Inv s → Inv (final (run evs s)).
Proof.
  intros HI. apply (keeps_final Inv (λ _, True)); [|done].
  unfold run. apply keeps_for_each. intros ev s' Hs'. split; [|by apply Forall_true].
  by apply Inv_step.
Qed.

Lemma run_cons ev evs s :
  out (step ev s) = Ret tt →
  run (ev :: evs) s
  = Result (out (run evs (final (step ev s)))) (final (run evs (final (step ev s))))
      (trace (step ev s) ++ trace (run evs (final (step ev s)))).
Proof. intros Ho. unfold run. cbn [for_each]. by rewrite (bind_ret _ _ _ tt). Qed.

Lemma run_app evs1 evs2 s :
  out (run evs1 s) = Ret tt →
  final (run (evs1 ++ evs2) s) = final (run evs2 (final (run evs1 s))).
Proof.
  revert s. induction evs1 as [|ev evs IH]; intros s Ho; cbn [app]; [done|].
  destruct (out (step ev s)) as [[]|e] eqn:Hs.
  - rewrite !run_cons in * by done. scbn. by apply IH.
  - unfold run in Ho. cbn [for_each] in Ho. unfold mbind, M_bind in Ho.
    destruct (step ev s) as [[[]|e'] s1 t1]; scbn; done.
Qed.

Lemma reachable_Inv s : reachable s → Inv s.
Proof.
  intros [evs <-]. apply Inv_run, Inv_constructor.
Qed.

Lemma reachable_constructor : reachable constructor.
Proof. by exists []. Qed.

(** ** The registry and the pool of polling tasks *)

Lemma with_subscriptions_id k S s :
  orderbookSubscriptions s !! k = Some S →
  with_subscriptions <[k := S]> s = s.
Proof.
  intros H. unfold with_subscriptions. rewrite insert_id by done.
  apply service_eta.
Qed.

Lemma subscribe_existing_unprintable c k s S :
  orderbookSubscriptions s !! k = Some S →
  printable s k = false →
  subscribeToOrderbook c k s
  = Result (Throw "TypeError") (with_subscriptions <[k := {[c]} ∪ S]> s) [].
Proof.
  intros H Hp. unfold subscribeToOrderbook.
  rewrite (bind_pure _ _ _ s) by done. rewrite H.
  rewrite (bind_pure _ _ _ tt) by done.
  rewrite (bind_pure _ _ _ s) by done. rewrite H.
  rewrite bind_modify. by rewrite log_market_unprintable.
Qed.

(** After [subscribeToOrderbook c k] the connection holds the key, if the
    market id can be printed, and whoever held a key still does. *)
Lemma subscribe_holds c k s :
  Inv s →
  (printable s k = true → holds (final (subscribeToOrderbook c k s)) c k)
  ∧ ∀ c' k', holds s c' k' → holds (final (subscribeToOrderbook c k s)) c' k'.
Proof.
  intros HI.
  assert (orderbookSubscriptions s !! k = None → orderbookIntervals s !! k = None)
    as Hint.
  { intros HS. apply eq_None_not_Some.
    rewrite <-(inv_interval s HI), HS. by intros [? ?]. }
  destruct (orderbookSubscriptions s !! k) as [S|] eqn:HS;
    destruct (printable s k) eqn:Hp.
  - rewrite (subscribe_existing _ _ _ S) by done. unfold holds. scbn. split.
    + intros _. exists ({[c]} ∪ S). rewrite lookup_insert_eq.
      split; [done|set_solver].
    + intros c' k' (S' & HS' & Hc').
      destruct (decide (k' = k)) as [->|]; simplify_map_eq.
      * eexists. split; [done|set_solver].
      * by eexists.
  - rewrite (subscribe_existing_unprintable _ _ _ S) by done. unfold holds. scbn.
    split; [done|].
    intros c' k' (S' & HS' & Hc').
    destruct (decide (k' = k)) as [->|]; simplify_map_eq.
    + eexists. split; [done|set_solver].
    + by eexists.
  - rewrite subscribe_first by auto. unfold holds. scbn.
    rewrite insert_insert_eq. split.
    + intros _. exists ({[c]} ∪ ∅). rewrite lookup_insert_eq.
      split; [done|set_solver].
    + intros c' k' (S' & HS' & Hc').
      destruct (decide (k' = k)) as [->|]; simplify_map_eq. by eexists.
  - rewrite subscribe_first_unprintable by auto. unfold holds. scbn.
    split; [done|].
    intros c' k' (S' & HS' & Hc').
    destruct (decide (k' = k)) as [->|]; simplify_map_eq. by eexists.
Qed.

(** For a market id that can be printed, a timer runs exactly when some
    connection holds the market. *)
Lemma timer_iff_held s k :
  Inv s → printable s k = true →
  (∃ t, timers s !! t = Some k) ↔ (∃ c, holds s c k).
Proof.
  intros [I1 I2 I3 I4 I5 I6] Hp. split.
  - intros [t Ht%I3]. destruct (proj2 (I2 k)) as [S HS]; [by eexists|].
    destruct (set_choose_L S) as [c Hc].
    { intros He. apply (I1 k S HS) in He. congruence. }
    by exists c, S.
  - intros (c & S & HS & _). destruct (proj1 (I2 k)) as [t Ht]; [by eexists|].
    exists t. by apply I3.
Qed.


(** C2, at the input where the code departs from it.  Connection [A] is
    accepted and asks for the orderbook of a market whose id is the object
    [{"toString": 1}].  [subscribeToOrderbook] creates the subscriber set,
    [startOrderbookPolling] starts the fetch, sets the interval timer and
    records it, and then its log line throws, so that the client is never
    added and the request is not acknowledged: when the message callback
    returns, a polling task runs for a key that no connection holds. *)
Theorem polltask_without_holder :
  let request := subscribe_request (JStr "orderbook")
                   (JObj [("market_id", unprintable_id)]) in
  let s0 := final (run [EvConnection "A" "2025-01-01T00:00:00.000Z"]
                     constructor) in
  let s := final (step (EvMessage "A" request) s0) in
  out (step (EvMessage "A" request) s0) = Ret tt
  ∧ received "A" (trace (step (EvMessage "A" request) s0)) = []
  ∧ fetches (trace (step (EvMessage "A" request) s0)) = [KRef 0]
  ∧ timers s !! 0%nat = Some (KRef 0)
  ∧ orderbookSubscriptions s !! KRef 0 = Some ∅
  ∧ (¬ ∃ c, holds s c (KRef 0))
  ∧ ¬ ((∃ t, timers s !! t = Some (KRef 0)) ↔ (∃ c, holds s c (KRef 0))).
Proof.
  cbn zeta.
  assert (orderbookSubscriptions
            (final (step (EvMessage "A" (subscribe_request (JStr "orderbook")
                                           (JObj [("market_id", unprintable_id)])))
                      (final (run [EvConnection "A" "2025-01-01T00:00:00.000Z"]
                                constructor)))) !! KRef 0 = Some ∅) as HS
    by (apply (bool_decide_unpack _); vm_compute; exact I).
  assert (timers
            (final (step (EvMessage "A" (subscribe_request (JStr "orderbook")
                                           (JObj [("market_id", unprintable_id)])))
                      (final (run [EvConnection "A" "2025-01-01T00:00:00.000Z"]
                                constructor)))) !! 0%nat = Some (KRef 0)) as HT
    by (apply (bool_decide_unpack _); vm_compute; exact I).
  assert (∀ s, orderbookSubscriptions s !! KRef 0 = Some ∅ →
               ¬ ∃ c, holds s c (KRef 0)) as Hnone.
  { intros s H (c & S & HS' & Hc). rewrite H in HS'. injection HS' as <-.
    set_solver. }
  split; [vm_compute; reflexivity|].
  split; [vm_compute; reflexivity|].
  split; [vm_compute; reflexivity|].
  split; [done|]. split; [done|]. split; [by apply Hnone|].
  intros [Hiff _]. apply (Hnone _ HS), Hiff. by exists 0%nat.
Qed.

(** A connection that is not registered holds nothing. *)
Lemma closed_holds_nothing s c :
  Inv s → clients s !! c = None → ∀ k, ¬ holds s c k.
Proof.
  intros HI Hc k (S & HS & Hin).
  destruct (inv_client s HI k S c HS Hin) as [cl Hcl]. congruence.
Qed.

Lemma on_close_final c s :
  Inv s →
  final (on_close c s)
  = with_clients (delete c) (final (cleanupClientSubscriptions c s)).
Proof.
  intros HI. destruct (cleanup_spec c s HI) as (Ho & _).
  unfold on_close. munfold.
  by destruct (cleanupClientSubscriptions c s) as [[[]|e] s1 t1].
Qed.

Lemma on_close_unregistered c s :
  Inv s → clients s !! c = None →
  on_close c s = Result (Ret tt) s [Log LogClientDisconnected].
Proof.
  intros HI Hc. unfold on_close. munfold.
  rewrite cleanup_nothing by (by apply closed_holds_nothing). scbn.
  f_equal. unfold with_clients. rewrite delete_id by done. apply service_eta.
Qed.

(** What [unsubscribeFromOrderbook] does for a key the connection does not
    hold: nothing, except that the log line throws when the key has a
    subscriber set and cannot be printed. *)
Lemma unsubscribe_unheld c k s :
  Inv s → ¬ holds s c k →
  final (unsubscribeFromOrderbook c k s) = s
  ∧ out (unsubscribeFromOrderbook c k s)
    = if decide (is_Some (orderbookSubscriptions s !! k) ∧ printable s k = false)
      then Throw "TypeError" else Ret tt.
Proof.
  intros HI Hn. split; [|by apply Inv_unsubscribe].
  destruct (orderbookSubscriptions s !! k) as [S|] eqn:HS.
  2:{ by rewrite unsubscribe_absent. }
  assert (c ∉ S) as Hnin by (intros ?; apply Hn; by exists S).
  assert (S ∖ {[c]} = S) as HSc by set_solver.
  destruct (printable s k) eqn:Hp.
  - rewrite (unsubscribe_others _ _ _ S); [|done| |done].
    + scbn. rewrite HSc. by apply with_subscriptions_id.
    + rewrite HSc. intros He. apply (inv_nonempty s HI k S HS) in He. congruence.
  - rewrite (unsubscribe_unprintable _ _ _ S) by done. scbn.
    rewrite HSc. by apply with_subscriptions_id.
Qed.


(** ** Messages for connections that are not registered *)

(** C10.  When the connection id is not in [clients], handling a message
    for it — a subscribe, an unsubscribe, a ping or anything else that
    parses — returns at once: the state is the same and nothing is sent
    or printed.  The same holds of [handleSubscribe] and
    [handleUnsubscribe] called directly. *)
Theorem unregistered_connection_message_is_noop
    (s : service) (c : string) (data : json) :
  clients s !! c = None →
  on_message c (Parsed data) s = Result (Ret tt) s []
  ∧ handleClientMessage c data s = Result (Ret tt) s []
  ∧ handleSubscribe c data s = Result (Ret tt) s []
  ∧ handleUnsubscribe c data s = Result (Ret tt) s [].
Proof.
  intros Hc.
  assert (handleClientMessage c data s = Result (Ret tt) s []) as Hm.
  { unfold handleClientMessage. rewrite (bind_pure _ _ _ s) by done. by rewrite Hc. }
  split; [|split; [done|split]].
  - unfold on_message, try_catch, JSON_parse.
    rewrite (bind_pure _ _ _ data) by done. by rewrite Hm.
  - unfold handleSubscribe. rewrite (bind_pure _ _ _ s) by done. by rewrite Hc.
  - unfold handleUnsubscribe. rewrite (bind_pure _ _ _ s) by done. by rewrite Hc.
Qed.

Lemma unregistered_connection_message_witness :
  clients constructor !! "ghost" = None
  ∧ on_message "ghost" (subscribe_request (JStr "orderbook") (orderbook_of "M1"))
      constructor
    = Result (Ret tt) constructor [].
Proof.
  assert (clients constructor !! "ghost" = None) as Hc by (vm_compute; reflexivity).
  split; [exact Hc|].
  exact (proj1 (unregistered_connection_message_is_noop constructor "ghost" _ Hc)).
Defined.

(** ** Fetch cycles in flight *)

Lemma in_flight_start k s :
  in_flight k (with_polls (λ ps, (ps ++ [k])%list) s) = S (in_flight k s).
Proof.
  unfold in_flight. scbn. rewrite filter_app, length_app.
  rewrite filter_cons_True by done. cbn [filter list_filter List.length]. lia.
Qed.

Lemma in_flight_settle k i s :
  polls s !! i = Some k →
  S (in_flight k (with_polls (delete i) s)) = in_flight k s.
Proof.
  intros Hi. unfold in_flight. scbn.
  rewrite <-(take_drop_middle (polls s) i k Hi) at 2.
  rewrite delete_take_drop, !filter_app, !length_app.
  rewrite filter_cons_True by done. cbn [List.length]. lia.
Qed.

Lemma on_interval_live t k s :
  timers s !! t = Some k →
  on_interval t s
  = Result (Ret tt) (with_polls (λ ps, (ps ++ [k])%list) s) [Fetch k].
Proof.
  intros Ht. unfold on_interval. rewrite (bind_pure _ _ _ s) by done.
  rewrite Ht. unfold pollOrderbook. by munfold.
Qed.

Lemma on_settled_pending i k r now s :
  polls s !! i = Some k →
  on_settled i r now s = pollOrderbook_resume k r now (with_polls (delete i) s)
  ∧ final (on_settled i r now s) = with_polls (delete i) s.
Proof.
  intros Hi. unfold on_settled. rewrite (bind_pure _ _ _ s) by done.
  by rewrite Hi, bind_modify, resume_final.
Qed.

(** C1, as the code has it.  While the timer of a polling task is live,
    every firing starts a new fetch for its market, whatever number of
    earlier fetches is still awaited: [n] firings in a row put [n] more
    cycles in flight, and the timer stays.  A cycle leaves the count when
    it is resumed, with a result or a failure. *)
Theorem interval_starts_cycle_unconditionally
    (s : service) (t : nat) (k : mkey) (n : nat) :
  timers s !! t = Some k →
  trace (step (EvInterval t) s) = [Fetch k]
  ∧ in_flight k (final (step (EvInterval t) s)) = S (in_flight k s)
  ∧ in_flight k (final (run (repeat (EvInterval t) n) s)) = (n + in_flight k s)%nat
  ∧ timers (final (run (repeat (EvInterval t) n) s)) !! t = Some k
  ∧ ∀ i r now, polls s !! i = Some k →
      S (in_flight k (final (step (EvSettled i r now) s))) = in_flight k s.
Proof.
  intros Ht. cbn [step]. rewrite (on_interval_live t k) by done. scbn.
  split; [done|]. split; [apply in_flight_start|].
  assert (∀ n s, timers s !! t = Some k →
            in_flight k (final (run (repeat (EvInterval t) n) s)) = (n + in_flight k s)%nat
            ∧ timers (final (run (repeat (EvInterval t) n) s)) !! t = Some k) as Hn.
  { clear. unfold run. induction n as [|n IH]; intros s Ht; cbn [repeat for_each].
    - done.
    - cbn [step]. rewrite (bind_ret _ _ _ tt) by (by rewrite (on_interval_live t k)).
      rewrite (on_interval_live t k) by done. scbn.
      destruct (IH (with_polls (λ ps, (ps ++ [k])%list) s) Ht) as [-> ->].
      rewrite in_flight_start. split; [lia|done]. }
  destruct (Hn n s Ht) as [-> ->]. do 2 (split; [done|]).
  intros i r now Hi.
  destruct (on_settled_pending i k r now s Hi) as (_ & ->).
  by apply in_flight_settle.
Qed.

Lemma interval_starts_cycle_witness :
  let s := final (run A_subscribes_M1 constructor) in
  timers s !! 0%nat = Some (KStr "M1")
  ∧ in_flight (KStr "M1") s = 1%nat
  ∧ in_flight (KStr "M1") (final (step (EvInterval 0) s)) = 2%nat.
Proof.
  cbn zeta.
  assert (timers (final (run A_subscribes_M1 constructor)) !! 0%nat
          = Some (KStr "M1")) as Ht by (vm_compute; reflexivity).
  assert (in_flight (KStr "M1") (final (run A_subscribes_M1 constructor)) = 1%nat)
    as H1 by (vm_compute; reflexivity).
  split; [exact Ht|]. split; [exact H1|].
  destruct (interval_starts_cycle_unconditionally _ 0 (KStr "M1") 0 Ht) as (_ & -> & _).
  by rewrite H1.
Defined.

(** C1, as the specification states it, fails: after the subscription of
    [A] to [M1] the immediate fetch is awaited; the interval fires before
    it comes back and a second fetch for [M1] is in flight. *)
Lemma one_cycle_in_flight_counterexample :
  ¬ one_cycle_in_flight
      (final (run (A_subscribes_M1 ++ [EvInterval 0]) constructor)).
Proof.
  intros H. specialize (H 0%nat (KStr "M1")).
  assert (timers (final (run (A_subscribes_M1 ++ [EvInterval 0]) constructor))
            !! 0%nat = Some (KStr "M1")) as Ht by (vm_compute; reflexivity).
  assert (in_flight (KStr "M1")
            (final (run (A_subscribes_M1 ++ [EvInterval 0]) constructor)) = 2%nat)
    as H2 by (vm_compute; reflexivity).
  specialize (H Ht). rewrite H2 in H. lia.
Qed.

(** ** Broadcasting a polled orderbook *)

Lemma resume_received k tokens now s c :
  received c (trace (pollOrderbook_resume k (FetchTokens tokens) now s))
  = if decide (holds s c k)
    then (if writable s c
          then [orderbook_message (key_value (heap s) k) tokens now] else [])
    else [].
Proof.
  rewrite resume_tokens. scbn.
  rewrite received_send_all by apply NoDup_elements.
  destruct (decide (holds s c k)) as [(S & HS & Hc)|Hn].
  - rewrite HS. cbn [default]. by rewrite decide_True by (by apply elem_of_elements).
  - rewrite decide_False; [done|]. intros Hin%elem_of_elements. apply Hn.
    destruct (orderbookSubscriptions s !! k) as [S|] eqn:HS; cbn [default] in Hin.
    + by exists S.
    + set_solver.
Qed.

(** Every frame a poll cycle writes to a socket is the object
    [{type: "orderbook", market_id, orderbook: [...], timestamp}], with one
    [{token_id, outcome, orderbook}] entry per token of the market: it has
    no [channel] and no [data] field, and its type does not end with
    [_update]. *)
Lemma poll_update_shape
    (s : service) (k : mkey) (r : fetched) (now c : string) (msg : json) :
  In (WsSend c msg) (trace (pollOrderbook_resume k r now s)) →
  ∃ tokens,
    r = FetchTokens tokens
    ∧ msg = JObj [("type", JStr "orderbook");
                  ("market_id", key_value (heap s) k);
                  ("orderbook", JArr (orderbookData tokens));
                  ("timestamp", JStr now)]
    ∧ update_envelope msg = false.
Proof.
  destruct r as [e| |tokens].
  - rewrite resume_failed by done. destruct (printable s k); cbn; [|done].
    by intros [[=]|[]].
  - rewrite resume_failed by done. destruct (printable s k); cbn; [|done].
    by intros [[=]|[]].
  - rewrite resume_tokens. scbn. intros (c' & _ & Hin)%in_flat_map.
    rewrite sendToClient_result in Hin. scbn.
    destruct (writable s c'); [|done]. destruct Hin as [[= <- <-]|[]].
    exists tokens. split; [done|]. split; [done|].
    unfold orderbook_message, update_envelope. done.
Qed.

(** C4.  The update documented for a polled orderbook is
    [{type: "orderbook_update", channel, data}].  The code does not send
    it: connection [A] has subscribed to the orderbook of [M1], the poll
    comes back with the book of one token, and the one frame written to
    [A] is [{type: "orderbook", market_id: "M1", orderbook: [...],
    timestamp}], which has no [channel], no [data] and a type that does
    not end with [_update]. *)
Theorem poll_update_lacks_envelope :
  let fields := [("type", JStr "orderbook");
                 ("market_id", JStr "M1");
                 ("orderbook",
                  JArr [JObj [("token_id", JStr "71321");
                              ("outcome", JStr "Yes");
                              ("orderbook",
                               JObj [("bids", JArr []); ("asks", JArr [])])]]);
                 ("timestamp", JStr "t1")] in
  trace (pollOrderbook_resume (KStr "M1") (FetchTokens sample_tokens) "t1"
           (final (run A_subscribes_M1 constructor)))
  = [WsSend "A" (JObj fields)]
  ∧ Js.field "type" fields = Some (JStr "orderbook")
  ∧ Js.field "channel" fields = None
  ∧ Js.field "data" fields = None
  ∧ update_envelope (JObj fields) = false.
Proof.
  cbn zeta. repeat split; vm_compute; reflexivity.
Qed.

(** C8, as the code has it.  When a poll for [k] comes back with data, a
    connection is written the message exactly once if it holds [k] at that
    moment and its socket is [OPEN], and not at all otherwise; the state
    is left as it was.  In particular nothing is written when [k] has no
    subscriber set any more, as after the last subscriber left during the
    fetch. *)
Theorem poll_result_reaches_open_holders
    (s : service) (k : mkey) (tokens : list token_book) (now c : string) :
  received c (trace (pollOrderbook_resume k (FetchTokens tokens) now s))
  = (if decide (holds s c k)
     then (if writable s c
           then [orderbook_message (key_value (heap s) k) tokens now] else [])
     else [])
  ∧ out (pollOrderbook_resume k (FetchTokens tokens) now s) = Ret tt
  ∧ final (pollOrderbook_resume k (FetchTokens tokens) now s) = s
  ∧ (orderbookSubscriptions s !! k = None →
     trace (pollOrderbook_resume k (FetchTokens tokens) now s) = []).
Proof.
  split; [apply resume_received|].
  rewrite resume_tokens. scbn. do 2 (split; [done|]).
  intros ->. cbn [default]. by rewrite elements_empty.
Qed.

Lemma poll_result_reaches_open_holders_witness :
  let s := final (run (A_subscribes_M1
                       ++ [EvMessage "A" (unsubscribe_request (JStr "orderbook")
                                            (orderbook_of "M1"))]) constructor) in
  polls s = [KStr "M1"]
  ∧ orderbookSubscriptions s !! KStr "M1" = None
  ∧ trace (pollOrderbook_resume (KStr "M1") (FetchTokens sample_tokens) "t1" s) = [].
Proof.
  cbn zeta.
  split; [vm_compute; reflexivity|].
  match goal with |- ?P ∧ _ => assert P as Hn by (vm_compute; reflexivity) end.
  split; [exact Hn|].
  exact (proj2 (proj2 (proj2
    (poll_result_reaches_open_holders _ (KStr "M1") sample_tokens "t1" "A"))) Hn).
Defined.

(** C8, as the specification states it, fails: [A] holds [M1] but its
    socket is closing, so the poll result is written to nobody. *)
Lemma delivered_to_holders_counterexample :
  ¬ delivered_to_holders (final (run A_closing constructor)) (KStr "M1")
      (trace (pollOrderbook_resume (KStr "M1") (FetchTokens sample_tokens) "t1"
                (final (run A_closing constructor)))).
Proof.
  intros H. specialize (H "A").
  assert (holds (final (run A_closing constructor)) "A" (KStr "M1")) as Hh
    by (apply (bool_decide_unpack _); vm_compute; exact I).
  apply H in Hh. apply Hh. vm_compute. reflexivity.
Qed.

(** ** Failing fetches *)

Lemma for_each_app_ret {A} (xs ys : list A) (body : A → M unit) s :
  out (for_each xs body s) = Ret tt →
  for_each (xs ++ ys) body s
  = Result (out (for_each ys body (final (for_each xs body s))))
           (final (for_each ys body (final (for_each xs body s))))
           (trace (for_each xs body s)
            ++ trace (for_each ys body (final (for_each xs body s)))).
Proof.
  revert s. induction xs as [|x xs IH]; intros s; cbn [for_each app].
  - intros _. munfold. by destruct (for_each ys body s).
  - unfold mbind, M_bind. destruct (body x s) as [[[]|e] s1 t1]; [|done].
    intros Ho. rewrite IH.
    + destruct (for_each xs body s1) as [o2 s2 t2]. scbn.
      by rewrite app_assoc.
    + by destruct (for_each xs body s1) as [[[]|e] s2 t2].
Qed.

Lemma run_app_ret evs1 evs2 s :
  out (run evs1 s) = Ret tt →
  run (evs1 ++ evs2) s
  = Result (out (run evs2 (final (run evs1 s))))
           (final (run evs2 (final (run evs1 s))))
           (trace (run evs1 s) ++ trace (run evs2 (final (run evs1 s)))).
Proof. apply for_each_app_ret. Qed.

Lemma run_cycle t k r now s :
  timers s !! t = Some k →
  failed r && negb (printable s k) = false →
  run (cycle t (List.length (polls s)) r now) s
  = Result (Ret tt) s (Fetch k :: trace (pollOrderbook_resume k r now s)).
Proof.
  intros Ht Hok. unfold run, cycle. cbn [for_each step].
  rewrite (bind_ret _ _ _ tt) by (by rewrite (on_interval_live t k)).
  rewrite (on_interval_live t k) by done. scbn.
  set (s1 := with_polls _ s).
  assert (polls s1 !! List.length (polls s) = Some k) as Hi.
  { unfold s1. scbn. by rewrite list_lookup_middle. }
  destruct (on_settled_pending _ k r now s1 Hi) as (He & Hf).
  assert (with_polls (delete (List.length (polls s))) s1 = s) as Hs.
  { unfold s1, with_polls. scbn.
    rewrite (delete_middle (polls s) [] k), app_nil_r. apply service_eta. }
  rewrite Hs in He, Hf.
  assert (out (on_settled (List.length (polls s)) r now s1) = Ret tt) as Ho.
  { by rewrite He, resume_out, Hok. }
  rewrite (bind_ret _ _ _ tt) by done. rewrite Hf, He. munfold.
  by rewrite app_nil_r.
Qed.

Lemma run_failures t k rs now s :
  timers s !! t = Some k →
  printable s k = true →
  Forall (λ r, failed r = true) rs →
  run (flat_map (λ r, cycle t (List.length (polls s)) r now) rs) s
  = Result (Ret tt) s
      (flat_map (λ r, Fetch k :: map Log (failure_line k r)) rs).
Proof.
  intros Ht Hp. induction 1 as [|r rs Hr _ IH]; cbn [flat_map]; [done|].
  assert (failed r && negb (printable s k) = false) as Hok
    by (by rewrite Hp, andb_false_r).
  rewrite run_app_ret by (by rewrite (run_cycle t k)).
  rewrite (run_cycle t k) by done. scbn. rewrite IH. scbn.
  f_equal. f_equal. by rewrite resume_failed, Hp.
Qed.

(** C7, as the code has it.  While the timer [t] of the task for [k] is
    live, and [k] is a market id that can be written into a log line, any
    number of cycles whose fetch fails (a rejection, or no market and no
    tokens) go by like this: each prints its line, nothing is written to
    any socket, and the state — subscriber sets, timer, everything — is
    what it was, so the schedule goes on.  The cycle that then succeeds
    writes the update once to each connection that holds [k] and whose
    socket is [OPEN], and to no other. *)
Theorem failed_cycles_are_skipped
    (s : service) (t : nat) (k : mkey) (rs : list fetched)
    (tokens : list token_book) (now c : string) :
  timers s !! t = Some k →
  printable s k = true →
  Forall (λ r, failed r = true) rs →
  let i := List.length (polls s) in
  let failures := flat_map (λ r, cycle t i r now) rs in
  let all := (failures ++ cycle t i (FetchTokens tokens) now)%list in
  (out (run failures s) = Ret tt ∧ final (run failures s) = s)
  ∧ received c (trace (run failures s)) = []
  ∧ printed (trace (run failures s)) = flat_map (failure_line k) rs
  ∧ (out (run all s) = Ret tt ∧ final (run all s) = s)
  ∧ timers (final (run all s)) !! t = Some k
  ∧ received c (trace (run all s))
    = if decide (holds s c k)
      then (if writable s c
            then [orderbook_message (key_value (heap s) k) tokens now] else [])
      else [].
Proof.
  intros Ht Hp Hrs. cbn zeta.
  pose proof (run_failures t k rs now s Ht Hp Hrs) as Hf.
  assert (∀ rs, received c
            (flat_map (λ r, Fetch k :: map Log (failure_line k r)) rs) = []) as Hrec.
  { clear. induction rs as [|r rs IH]; cbn [flat_map]; [done|].
    rewrite received_app, IH. by destruct r. }
  rewrite Hf. scbn. split; [done|]. split; [apply Hrec|]. split.
  { clear. induction rs as [|r rs IH]; cbn [flat_map]; [done|].
    rewrite printed_app, IH. by destruct r. }
  rewrite run_app_ret by (by rewrite Hf).
  rewrite Hf. scbn.
  rewrite (run_cycle t k) by done. scbn.
  split; [done|]. split; [done|].
  rewrite received_app, Hrec. cbn [app].
  change (Fetch k :: ?l) with ([Fetch k] ++ l)%list.
  rewrite received_app. cbn [received omap app list_omap].
  apply resume_received.
Qed.

Lemma failed_cycles_are_skipped_witness :
  let s := final (run A_subscribes_M1 constructor) in
  let failures := flat_map (λ r, cycle 0 1 r "t1") three_failures in
  timers s !! 0%nat = Some (KStr "M1")
  ∧ printable s (KStr "M1") = true
  ∧ Forall (λ r, failed r = true) three_failures
  ∧ received "A" (trace (run failures s)) = []
  ∧ received "A" (trace (run (failures ++ cycle 0 1 (FetchTokens sample_tokens) "t1") s))
    = [orderbook_message (JStr "M1") sample_tokens "t1"].
Proof.
  cbn zeta.
  assert (timers (final (run A_subscribes_M1 constructor)) !! 0%nat
          = Some (KStr "M1")) as Ht by (vm_compute; reflexivity).
  assert (Forall (λ r, failed r = true) three_failures) as Hrs
    by (repeat constructor).
  destruct (failed_cycles_are_skipped _ 0 (KStr "M1") three_failures
              sample_tokens "t1" "A" Ht eq_refl Hrs) as (_ & H1 & _ & _ & _ & H2).
  split; [exact Ht|]. split; [reflexivity|]. split; [exact Hrs|].
  split; [exact H1|].
  etransitivity; [exact H2|]. vm_compute. reflexivity.
Defined.

(** C7, as the specification states it, fails in its last part: [A] holds
    [M1] and its socket is closing; three fetches fail, the fourth
    succeeds, and [A] is written no update for it. *)
Lemma each_holder_updated_once_counterexample :
  let s := final (run (A_closing ++ flat_map (λ r, cycle 0 1 r "t1") three_failures)
                   constructor) in
  ¬ each_holder_updated_once s (KStr "M1")
      (trace (run (cycle 0 1 (FetchTokens sample_tokens) "t1") s)).
Proof.
  cbn zeta. intros H. specialize (H "A").
  match type of H with ?P → _ =>
    assert P as Hh by (apply (bool_decide_unpack _); vm_compute; exact I) end.
  specialize (H Hh). vm_compute in H. discriminate H.
Qed.

(** ** Messages from the upstream feed *)

Lemma flat_map_filter_fst {A B C} (P : A * B → Prop) `{∀ e, Decision (P e)}
    (f : A → list C) (l : list (A * B)) :
  flat_map (λ e, if bool_decide (P e) then f e.1 else []) l
  = flat_map f (filter P l).*1.
Proof.
  induction l as [|e l IH]; cbn [flat_map]; [done|].
  rewrite filter_cons. destruct (decide (P e)) as [Hp|Hn].
  - rewrite bool_decide_eq_true_2 by done. cbn [fmap list_fmap flat_map].
    by rewrite IH.
  - rewrite bool_decide_eq_false_2 by done. by rewrite IH.
Qed.

Lemma NoDup_filter_fst {A B} (P : A * B → Prop) `{∀ e, Decision (P e)}
    (l : list (A * B)) :
  NoDup l.*1 → NoDup (filter P l).*1.
Proof.
  induction l as [|e l IH]; [done|].
  rewrite fmap_cons, NoDup_cons. intros [Hnin Hnd].
  rewrite filter_cons. destruct (decide (P e)); [|by apply IH].
  rewrite fmap_cons, NoDup_cons. split; [|by apply IH].
  intros ([a b] & Ha & [_ Hin]%list_elem_of_filter)%list_elem_of_fmap.
  apply Hnin, list_elem_of_fmap. by exists (a, b).
Qed.

Lemma subscribed_clients_spec s c :
  c ∈ subscribed_clients s
  ↔ ∃ cl, clients s !! c = Some cl ∧ subscriptions cl ≠ ∅.
Proof.
  unfold subscribed_clients. rewrite list_elem_of_fmap. split.
  - intros ([c' cl] & -> & [Hpos Hin]%list_elem_of_filter).
    apply elem_of_map_to_list in Hin. exists cl. split; [done|].
    cbn in Hpos. intros He. rewrite He, size_empty in Hpos. lia.
  - intros (cl & Hcl & Hne). exists (c, cl). split; [done|].
    apply list_elem_of_filter. split; [|by apply elem_of_map_to_list].
    cbn. destruct (decide (size (subscriptions cl) = 0%nat)) as [Hz|]; [|lia].
    apply size_empty_iff in Hz. by apply leibniz_equiv in Hz.
Qed.

Lemma broadcast_as_sends message s :
  broadcastPolymarketData message s
  = Result (Ret tt) s
      (flat_map (λ c, trace (sendToClient c message s)) (subscribed_clients s)).
Proof.
  unfold broadcastPolymarketData. rewrite (bind_pure _ _ _ s) by done.
  match goal with |- for_each ?xs ?body s = _ =>
    destruct (for_each_frame xs body s) as (Ho & Hf & Ht) end.
  { intros [c cl]. cbn [fst snd]. destruct (isClientSubscribed cl message); [|done].
    by rewrite sendToClient_result. }
  destruct (for_each _ _ s) as [o f t]. scbn. subst. f_equal.
  unfold subscribed_clients.
  rewrite <-(flat_map_filter_fst (λ e, (0 < size (subscriptions e.2))%nat)).
  apply flat_map_ext. intros [c cl]. cbn [fst snd]. unfold isClientSubscribed.
  by destruct (bool_decide _).
Qed.

(** C9.  A message that parses, received from the upstream socket, is
    handed to [sendToClient] once for each connection that holds at least
    one subscription key — whichever keys those are, and whatever the
    message says — and for no other connection; if no connection holds a
    key, nothing at all is written.  ([sendToClient] writes the frame to
    the socket when the socket is [OPEN].) *)
Theorem upstream_message_goes_to_every_subscriber
    (s : service) (message : json) (c : string) :
  step (EvUpstreamMessage (Parsed message)) s = broadcastPolymarketData message s
  ∧ broadcastPolymarketData message s
    = for_each (subscribed_clients s) (λ c, sendToClient c message) s
  ∧ NoDup (subscribed_clients s)
  ∧ (c ∈ subscribed_clients s
     ↔ ∃ cl, clients s !! c = Some cl ∧ subscriptions cl ≠ ∅)
  ∧ ((∀ c cl, clients s !! c = Some cl → subscriptions cl = ∅) →
     trace (broadcastPolymarketData message s) = [])
  ∧ received c (trace (broadcastPolymarketData message s))
    = if decide (c ∈ subscribed_clients s)
      then (if writable s c then [message] else [])
      else [].
Proof.
  assert (NoDup (subscribed_clients s)) as Hnd.
  { apply NoDup_filter_fst, NoDup_fst_map_to_list. }
  split; [|split; [|split; [done|split; [apply subscribed_clients_spec|split]]]].
  - cbn [step]. unfold on_upstream_message, try_catch, JSON_parse.
    rewrite (bind_pure _ _ _ message) by done.
    by rewrite broadcast_as_sends.
  - rewrite broadcast_as_sends.
    destruct (for_each_frame (subscribed_clients s)
                (λ c, sendToClient c message) s) as (Ho & Hf & Ht).
    { intros c'. by rewrite sendToClient_result. }
    destruct (for_each _ _ s) as [o f t]. scbn. by subst.
  - intros Hall. rewrite broadcast_as_sends. scbn.
    assert (subscribed_clients s = []) as ->; [|done].
    apply elem_of_nil_inv. intros c' (cl & Hcl & Hne)%subscribed_clients_spec.
    by apply Hne, (Hall c').
  - rewrite broadcast_as_sends. scbn. by apply received_send_all.
Qed.


(** ** Subscription keys *)

Lemma field_permutation k (f1 f2 : list (string * json)) :
  NoDup f1.*1 → Permutation f1 f2 → Js.field k f1 = Js.field k f2.
Proof.
  intros Hnd Hp. induction Hp as [|[k' v] l l' Hp IH|[k1 v1] [k2 v2] l|l l' l'' Hp1 IH1 Hp2 IH2].
  - done.
  - cbn [Js.field]. rewrite fmap_cons in Hnd. apply NoDup_cons in Hnd as [_ Hnd].
    by rewrite IH.
  - cbn [Js.field]. rewrite !fmap_cons in Hnd. cbn [fst] in Hnd.
    apply NoDup_cons in Hnd as [Hne _].
    destruct (decide (k2 = k)) as [->|]; [|done].
    rewrite decide_False; [done|]. intros ->. set_solver.
  - rewrite IH1 by done. apply IH2. by rewrite <-Hp1.
Qed.

(** The key of a request whose channel is the string [orderbook]. *)
Lemma subscriptionKey_orderbook params :
  subscriptionKey (Some (JStr "orderbook")) params
  = Some ("orderbook:" +:+ Js.stringify_template params).
Proof. done. Qed.

Lemma prop_object fs k s :
  prop (Some (JObj fs)) k s = Result (Ret (Js.field k fs)) s [].
Proof. done. Qed.

(** A subscribe request for the orderbook of a market whose id is
    compared by value: the key is recorded on the connection and the
    connection is entered for the market. *)
Lemma on_message_subscribe_orderbook c cl fs v s :
  Inv s →
  clients s !! c = Some cl →
  Js.field "market_id" fs = Some v →
  by_value v = true → Js.truthy (Some v) = true →
  final (on_message c (subscribe_request (JStr "orderbook") (JObj fs)) s)
  = final (subscribeToOrderbook c (value_key v)
             (with_clients
                (alter (λ client,
                   Client (ws client)
                     ({["orderbook:" +:+ Js.stringify (JObj fs)]}
                      ∪ subscriptions client)) c) s)).
Proof.
  intros HI Hc Hv Hbv Htr. unfold on_message, subscribe_request.
  destruct (try_catch_log
    (data ← JSON_parse (Parsed (JObj [("type", JStr "subscribe");
                                        ("channel", JStr "orderbook");
                                        ("params", JObj fs)]));
     handleClientMessage c data) LogParseError s) as [_ ->].
  unfold JSON_parse. rewrite (bind_pure _ _ _ _ eq_refl).
  unfold handleClientMessage. rewrite (bind_pure _ _ _ s) by done. rewrite Hc.
  rewrite (bind_pure _ _ _ _ (prop_object _ _ _)).
  cbn [Js.field]. rewrite decide_True by done.
  unfold is_string at 1. rewrite bool_decide_eq_true_2 by done.
  unfold handleSubscribe. rewrite (bind_pure _ _ _ s) by done. rewrite Hc.
  rewrite (bind_pure _ _ _ _ (prop_object _ _ _)).
  rewrite (bind_pure _ _ _ _ (prop_object _ _ _)).
  cbn [Js.field].
  rewrite (decide_False (P := "type" = "channel")) by done.
  rewrite (decide_True (P := "channel" = "channel")) by done.
  rewrite (decide_False (P := "type" = "params")) by done.
  rewrite (decide_False (P := "channel" = "params")) by done.
  rewrite (decide_True (P := "params" = "params")) by done.
  rewrite subscriptionKey_orderbook, (bind_pure _ _ _ _ eq_refl).
  cbn [Js.stringify_template].
  rewrite bind_modify. set (s1 := with_clients _ s).
  assert (Inv s1) as HI1.
  { apply (Inv_frame s); try done. intros c'.
    apply same_sockets_is_Some,
      (same_sockets_alter (λ S, {["orderbook:" +:+ Js.stringify (JObj fs)]} ∪ S)). }
  assert (is_Some (clients s1 !! c)) as Hc1.
  { unfold s1. scbn. rewrite lookup_alter_eq, Hc. by eexists. }
  unfold orderbook_market_id, is_string. rewrite bool_decide_eq_true_2 by done.
  rewrite (bind_pure _ _ _ _ (prop_object _ _ _)). rewrite Hv.
  unfold when_truthy. rewrite Htr. cbn beta.
  destruct (Inv_subscribe c (value_key v) s1 HI1 Hc1) as [_ Ho].
  { intros r Hr. by destruct v. }
  { left. by apply printable_value_key. }
  rewrite printable_value_key in Ho by done.
  assert ((map_key v ≫= λ marketId, subscribeToOrderbook c marketId) s1
          = subscribeToOrderbook c (value_key v) s1) as Hblk
    by (by rewrite (bind_pure _ _ _ _ (map_key_by_value v _ Hbv))).
  rewrite (bind_ret _ _ _ tt) by (by rewrite Hblk).
  rewrite Hblk. scbn.
  match goal with |- context [ (get ≫= ?f) ?s2 ] =>
    destruct (acknowledge_silent
      (UpstreamSubscribe (Some (JStr "orderbook")) (Some (JObj fs))) c
      (Js.obj [("type", Some (JStr "subscribed"));
               ("channel", Some (JStr "orderbook")); ("params", Some (JObj fs))]) s2)
      as [_ ->] end.
  done.
Qed.

Lemma on_message_subscribe_holds c fs v s :
  Inv s →
  is_Some (clients s !! c) →
  Js.field "market_id" fs = Some v →
  by_value v = true → Js.truthy (Some v) = true →
  let s' := final (on_message c (subscribe_request (JStr "orderbook") (JObj fs)) s) in
  holds s' c (value_key v)
  ∧ ∀ c' k', holds s c' k' → holds s' c' k'.
Proof.
  intros HI [cl Hc] Hv Hbv Htr. cbn zeta.
  rewrite (on_message_subscribe_orderbook c cl fs v) by done.
  set (s1 := with_clients _ s).
  assert (Inv s1) as HI1.
  { apply (Inv_frame s); try done. intros c'.
    apply same_sockets_is_Some,
      (same_sockets_alter (λ S, {["orderbook:" +:+ Js.stringify (JObj fs)]} ∪ S)). }
  destruct (subscribe_holds c (value_key v) s1 HI1) as [H1 H2].
  split; [by apply H1, printable_value_key|]. intros c' k' Hh. by apply H2.
Qed.

(** C3, as the code has it.  The polling task behind an orderbook
    subscription is found by [params.market_id] alone.  Two subscribe
    requests for channel [orderbook] whose parameter maps have the same
    fields in different orders, with a market id that is a string, a
    number or [true], therefore end in the same subscriber set and share
    the one timer of that market — although their subscription keys, which
    spell the parameters out in the order received, may differ. *)
Theorem reordered_params_share_polltask
    (s : service) (c1 c2 : string) (f1 f2 : list (string * json)) (v : json) :
  reachable s →
  is_Some (clients s !! c1) →
  is_Some (clients s !! c2) →
  same_parameters (JObj f1) (JObj f2) →
  Js.field "market_id" f1 = Some v →
  by_value v = true →
  Js.truthy (Some v) = true →
  let s' := final (run [EvMessage c1 (subscribe_request (JStr "orderbook") (JObj f1));
                        EvMessage c2 (subscribe_request (JStr "orderbook") (JObj f2))]
                     s) in
  (∀ f, subscriptionKey (Some (JStr "orderbook")) (Some (JObj f))
        = Some ("orderbook:" +:+ Js.stringify (JObj f)))
  ∧ Js.field "market_id" f2 = Some v
  ∧ holds s' c1 (value_key v)
  ∧ holds s' c2 (value_key v)
  ∧ ∃ t, ∀ t', timers s' !! t' = Some (value_key v) ↔ t' = t.
Proof.
  intros Hr Hc1 Hc2 [Hnd Hp] Hv Hbv Htr. cbn zeta. split; [done|].
  assert (Js.field "market_id" f2 = Some v) as Hv2
    by (by rewrite <-(field_permutation _ f1 f2)).
  pose proof (reachable_Inv _ Hr) as HI.
  set (e1 := EvMessage c1 _). set (e2 := EvMessage c2 _).
  pose proof (Inv_run [e1; e2] s HI) as HI'.
  assert (final (run [e1; e2] s) = final (step e2 (final (step e1 s)))) as Hrun.
  { pose proof (Inv_step e1 s HI) as HI1.
    rewrite run_cons by (by rewrite step_out). scbn.
    rewrite run_cons by (by rewrite step_out). by scbn. }
  rewrite Hrun in *. unfold e1, e2 in *. cbn [step] in *.
  destruct (Inv_on_message c1 (subscribe_request (JStr "orderbook") (JObj f1)) s HI)
    as (_ & HI1 & Hss1).
  destruct (on_message_subscribe_holds c1 f1 v s HI Hc1 Hv Hbv Htr) as [Hh1 _].
  set (s1 := final (on_message c1 _ s)) in *.
  destruct (on_message_subscribe_holds c2 f2 v s1 HI1) as [Hh2 Hkeep]; try done.
  { by apply (same_sockets_is_Some s). }
  split; [done|]. split; [by apply Hkeep|]. split; [done|].
  destruct Hh2 as (S & HS & _).
  destruct (proj1 (inv_interval _ HI' (value_key v))) as [t Ht]; [by eexists|].
  exists t. intros t'. rewrite (inv_timer _ HI'). rewrite Ht.
  split; [by intros [= ->]|by intros ->].
Qed.

Lemma reordered_params_share_polltask_witness :
  let s := final (run [EvConnection "A" "t0"; EvConnection "B" "t0"] constructor) in
  let s' := final (run [EvMessage "A" (subscribe_request (JStr "orderbook") M1_then_depth);
                        EvMessage "B" (subscribe_request (JStr "orderbook") depth_then_M1)]
                     s) in
  same_parameters M1_then_depth depth_then_M1
  ∧ holds s' "A" (KStr "M1") ∧ holds s' "B" (KStr "M1")
  ∧ ∃ t, ∀ t', timers s' !! t' = Some (KStr "M1") ↔ t' = t.
Proof.
  cbn zeta.
  assert (same_parameters M1_then_depth depth_then_M1) as Hsame.
  { split; [|apply perm_swap].
    apply (bool_decide_unpack _). vm_compute. exact I. }
  split; [exact Hsame|].
  refine (proj2 (proj2 (reordered_params_share_polltask _ "A" "B" _ _ (JStr "M1")
                   _ _ _ Hsame _ _ _))).
  - by eexists.
  - apply (bool_decide_unpack _). vm_compute. exact I.
  - apply (bool_decide_unpack _). vm_compute. exact I.
  - vm_compute. reflexivity.
  - reflexivity.
  - reflexivity.
Defined.

(** C3, as the specification states it, fails: the two requests below
    list the same two parameters in different orders and get different
    subscription keys; sent by one connection they leave two keys in its
    set. *)
Lemma subscription_key_order_counterexample :
  same_parameters M1_then_depth depth_then_M1
  ∧ subscriptionKey (Some (JStr "orderbook")) (Some M1_then_depth)
    ≠ subscriptionKey (Some (JStr "orderbook")) (Some depth_then_M1)
  ∧ (subscriptions <$>
       clients (final (run [EvConnection "A" "t0";
                            EvMessage "A" (subscribe_request (JStr "orderbook") M1_then_depth);
                            EvMessage "A" (subscribe_request (JStr "orderbook") depth_then_M1)]
                         constructor)) !! "A")
    = Some {["orderbook:" +:+ Js.stringify M1_then_depth;
             "orderbook:" +:+ Js.stringify depth_then_M1]}.
Proof.
  split; [|split].
  - split; [|apply perm_swap].
    apply (bool_decide_unpack _). vm_compute. exact I.
  - apply (bool_decide_unpack _). vm_compute. exact I.
  - apply (bool_decide_unpack _). vm_compute. exact I.
Qed.

(** ** Malformed messages *)




Lemma on_message_parsed c data s :
  on_message c (Parsed data) s
  = try_catch (handleClientMessage c data) (λ e, emit (Log (LogParseError e))) s.
Proof.
  unfold on_message, try_catch, JSON_parse.
  by rewrite (bind_pure _ _ _ data).
Qed.







(** * Further properties of the service *)

(** ** Escaping exceptions and registry hygiene *)

(** X1.  Exactly one callback lets an exception escape.  After any sequence
    of events since construction, the end of a fetch cycle throws
    ([TypeError], out of the line that reports the failure) when the cycle
    failed and the id of its market does not convert to a string; every
    other event is handled and its callback returns normally. *)
Theorem only_a_failed_poll_throws (evs : list event) (ev : event) :
  let s := final (run evs constructor) in
  out (step ev s)
  = match ev with
    | EvSettled i r now =>
        match polls s !! i with
        | Some k =>
            if failed r && negb (printable s k) then Throw "TypeError" else Ret tt
        | None => Ret tt
        end
    | _ => Ret tt
    end.
Proof.
  cbn zeta. apply step_out, Inv_run, Inv_constructor.
Qed.

(** X2.  What the registry keeps: in every reachable state a subscriber
    set is empty exactly when the id of its market does not convert to a
    string, each of its members is a registered connection, and every live
    interval timer is the one recorded in [orderbookIntervals] for a
    market that has a subscriber set. *)
Theorem registry_entries (evs : list event) (k : mkey) :
  let s := final (run evs constructor) in
  (∀ S, orderbookSubscriptions s !! k = Some S →
        (S = ∅ ↔ printable s k = false)
        ∧ ∀ c, c ∈ S → is_Some (clients s !! c))
  ∧ (∀ t, timers s !! t = Some k →
          orderbookIntervals s !! k = Some t
          ∧ is_Some (orderbookSubscriptions s !! k)
          ∧ (t < next_timer s)%nat).
Proof.
  cbn zeta. pose proof (Inv_run evs constructor Inv_constructor) as HI.
  destruct HI as [I1 I2 I3 I4 I5 I6]. split.
  - intros S HS. split; [by apply I1|]. intros c Hc. by eapply I5.
  - intros t Ht. pose proof (proj1 (I3 t k) Ht) as Hi.
    split; [done|]. split; [apply I2; by eexists|]. apply I4. by eexists.
Qed.

(** ** What subscribing, unsubscribing and closing do to the registry *)

Lemma unsubscribe_holds_iff c k s :
  Inv s →
  ∀ c' k', holds (final (unsubscribeFromOrderbook c k s)) c' k'
           ↔ holds s c' k' ∧ ¬ (c' = c ∧ k' = k).
Proof.
  intros HI c' k'. unfold holds.
  destruct (orderbookSubscriptions s !! k) as [S|] eqn:HS.
  2:{ rewrite unsubscribe_absent by done. scbn. split.
      - intros (S' & HS' & Hc'). split; [by exists S'|]. intros [-> ->]. congruence.
      - by intros [? _]. }
  destruct (printable s k) eqn:Hp.
  2:{ pose proof (proj2 (inv_nonempty s HI k S HS) Hp) as ->.
      rewrite (unsubscribe_unprintable _ _ _ ∅) by done. scbn.
      destruct (decide (k' = k)) as [->|Hk]; simplify_map_eq.
      - split; [intros (S' & [= <-] & ?); set_solver|].
        intros [(S' & [= <-] & ?) _]. set_solver.
      - split; [intros (S' & ? & ?); split; [by exists S'|by intros [_ ?]]|].
        by intros [? _]. }
  destruct (decide (S ∖ {[c]} = ∅)) as [He|Hne].
  - destruct (proj1 (inv_interval s HI k)) as [t Ht]; [by rewrite HS|].
    rewrite (unsubscribe_last _ _ _ S t) by done. scbn.
    destruct (decide (k' = k)) as [->|Hk]; simplify_map_eq.
    + split; [by intros (? & [=] & _)|].
      intros [(S' & [= <-] & Hc') Hn]. exfalso.
      destruct (decide (c' = c)) as [->|]; [by apply Hn|]. set_solver.
    + split; [intros (S' & ? & ?); split; [by exists S'|by intros [_ ?]]|].
      by intros [? _].
  - rewrite (unsubscribe_others _ _ _ S) by done. scbn.
    destruct (decide (k' = k)) as [->|Hk]; simplify_map_eq.
    + split.
      * intros (S' & [= <-] & [Hc' Hn]%elem_of_difference).
        split; [by exists S|]. intros [-> _]. set_solver.
      * intros [(S' & [= <-] & Hc') Hn]. eexists. split; [done|].
        apply elem_of_difference. split; [done|].
        intros ->%elem_of_singleton. by apply Hn.
    + split; [intros (S' & ? & ?); split; [by exists S'|by intros [_ ?]]|].
      by intros [? _].
Qed.

(** X3.  Subscribing to a market whose id converts to a string and
    unsubscribing again is a round trip on the registry: for a connection
    that did not hold [k], the subscriber sets, the recorded intervals and
    the live timers are what they were, and so are the clients.  What stays
    behind is the fetch that the subscription started if it was the first
    for [k]. *)
Theorem subscribe_unsubscribe_round_trip (s : service) (c : string) (k : mkey) :
  reachable s →
  printable s k = true →
  ¬ holds s c k →
  let s1 := final (subscribeToOrderbook c k s) in
  let s2 := final (unsubscribeFromOrderbook c k s1) in
  out (subscribeToOrderbook c k s) = Ret tt
  ∧ out (unsubscribeFromOrderbook c k s1) = Ret tt
  ∧ registry s2 = registry s
  ∧ clients s2 = clients s
  ∧ polls s2 = (if decide (is_Some (orderbookSubscriptions s !! k))
                then polls s else polls s ++ [k])%list.
Proof.
  intros HI%reachable_Inv Hp Hn. cbn zeta. pose proof HI as [I1 I2 I3 I4 I5 I6].
  destruct (orderbookSubscriptions s !! k) as [S|] eqn:HS.
  - rewrite (subscribe_existing _ _ _ S) by done. scbn.
    assert (c ∉ S) as Hc by (intros ?; apply Hn; by exists S).
    assert (({[c]} ∪ S) ∖ {[c]} = S) as HSc by set_solver.
    rewrite (unsubscribe_others _ _ _ ({[c]} ∪ S)).
    + unfold registry. scbn. rewrite HSc, insert_insert_eq, insert_id by done.
      by rewrite decide_True by (by eexists).
    + scbn. apply lookup_insert_eq.
    + rewrite HSc. intros He. apply (I1 k S HS) in He. congruence.
    + done.
  - assert (orderbookIntervals s !! k = None) as Hi.
    { apply eq_None_not_Some. rewrite <-I2, HS. by intros [? ?]. }
    assert (timers s !! next_timer s = None) as Ht.
    { apply eq_None_not_Some. intros ?%I4. lia. }
    rewrite subscribe_first by done. scbn.
    rewrite (unsubscribe_last _ _ _ ({[c]} ∪ ∅) (next_timer s)).
    + unfold registry. scbn.
      rewrite insert_insert_eq, !delete_insert_eq, !delete_id by done.
      by rewrite decide_False by (by intros [? ?]).
    + scbn. apply lookup_insert_eq.
    + set_solver.
    + scbn. apply lookup_insert_eq.
    + done.
Qed.

Lemma subscribe_unsubscribe_round_trip_witness :
  let s := final (run A_subscribes_M1 constructor) in
  reachable s ∧ printable s (KStr "M2") = true ∧ ¬ holds s "A" (KStr "M2")
  ∧ registry (final (unsubscribeFromOrderbook "A" (KStr "M2")
                       (final (subscribeToOrderbook "A" (KStr "M2") s))))
    = registry s.
Proof.
  cbn zeta.
  assert (reachable (final (run A_subscribes_M1 constructor))) as Hr
    by (by exists A_subscribes_M1).
  assert (¬ holds (final (run A_subscribes_M1 constructor)) "A" (KStr "M2")) as Hn
    by (apply (bool_decide_unpack (¬ _)); vm_compute; exact I).
  split; [exact Hr|]. split; [reflexivity|]. split; [exact Hn|].
  exact (proj1 (proj2 (proj2
    (subscribe_unsubscribe_round_trip _ "A" (KStr "M2") Hr eq_refl Hn)))).
Defined.

(** X4.  [unsubscribeFromOrderbook c k] removes exactly the pair of [c]
    and [k] from the registry: every other connection and market is held
    as before.  For a market whose id converts to a string, the timer of
    [k] survives exactly when another connection still holds [k]; timers
    of other markets and pending fetches are not touched. *)
Theorem unsubscribe_removes_one_holder (s : service) (c : string) (k : mkey) :
  reachable s →
  let s' := final (unsubscribeFromOrderbook c k s) in
  (∀ c' k', holds s' c' k' ↔ holds s c' k' ∧ ¬ (c' = c ∧ k' = k))
  ∧ (printable s k = true →
     out (unsubscribeFromOrderbook c k s) = Ret tt
     ∧ ((∃ t, timers s' !! t = Some k) ↔ (∃ c', c' ≠ c ∧ holds s c' k)))
  ∧ (∀ k' t, k' ≠ k → timers s' !! t = Some k' ↔ timers s !! t = Some k')
  ∧ polls s' = polls s.
Proof.
  intros HI%reachable_Inv. cbn zeta.
  pose proof (unsubscribe_holds_iff c k s HI) as Hh.
  destruct (Inv_unsubscribe c k s HI) as [HI' Ho].
  destruct (unsubscribe_clients c k s) as (_ & _ & Hpolls & Hheap).
  split; [done|]. split; [|split].
  - intros Hp. split.
    { rewrite Ho. apply decide_False. intros [_ ?]. congruence. }
    assert (printable (final (unsubscribeFromOrderbook c k s)) k = true) as Hp'
      by (unfold printable; by rewrite Hheap).
    rewrite (timer_iff_held _ _ HI' Hp'). split.
    + intros [c' [Hc' Hn]%Hh]. exists c'. split; [|done]. intros ->. by apply Hn.
    + intros (c' & Hne & Hc'). exists c'. apply Hh. split; [done|]. by intros [? _].
  - intros k' t Hk.
    rewrite (inv_timer _ HI'), (inv_timer _ HI).
    destruct (orderbookSubscriptions s !! k) as [S|] eqn:HS.
    2:{ by rewrite unsubscribe_absent. }
    destruct (printable s k) eqn:Hp.
    2:{ by rewrite (unsubscribe_unprintable _ _ _ S). }
    destruct (decide (S ∖ {[c]} = ∅)) as [He|Hne].
    + destruct (proj1 (inv_interval s HI k)) as [t0 Ht0]; [by rewrite HS|].
      rewrite (unsubscribe_last _ _ _ S t0) by done. scbn.
      by rewrite lookup_delete_ne.
    + by rewrite (unsubscribe_others _ _ _ S).
  - done.
Qed.

Lemma unsubscribe_removes_one_holder_witness :
  let s := final (run A_subscribes_M1 constructor) in
  reachable s
  ∧ ¬ ∃ t, timers (final (unsubscribeFromOrderbook "A" (KStr "M1") s)) !! t
           = Some (KStr "M1").
Proof.
  cbn zeta.
  assert (reachable (final (run A_subscribes_M1 constructor))) as Hr
    by (by exists A_subscribes_M1).
  split; [exact Hr|].
  intros Ht.
  apply (proj2 (proj1 (proj2 (unsubscribe_removes_one_holder _ "A" (KStr "M1") Hr))
                  eq_refl)) in Ht.
  destruct Ht as (c' & Hne & Hc').
  assert (∀ c', holds (final (run A_subscribes_M1 constructor)) c' (KStr "M1")
                → c' = "A") as Hall.
  { assert (orderbookSubscriptions (final (run A_subscribes_M1 constructor))
              !! KStr "M1" = Some {["A"]}) as HA
      by (apply (bool_decide_unpack _); vm_compute; exact I).
    intros c0 (S & HS & Hin). rewrite HA in HS. injection HS as <-. set_solver. }
  by apply Hne, Hall.
Defined.

Lemma cleanup_body_holds c k s :
  Inv s →
  (∀ c' k', holds (final (cleanup_body c k s)) c' k'
            ↔ holds s c' k' ∧ ¬ (c' = c ∧ k' = k))
  ∧ polls (final (cleanup_body c k s)) = polls s.
Proof.
  intros HI. unfold cleanup_body. rewrite (bind_pure _ _ _ s) by done.
  assert (¬ holds s c k →
          (∀ c' k', holds s c' k' ↔ holds s c' k' ∧ ¬ (c' = c ∧ k' = k))) as Hskip.
  { intros Hn c' k'. split; [|by intros [? _]].
    intros Hh. split; [done|]. by intros [-> ->]. }
  destruct (orderbookSubscriptions s !! k) as [S|] eqn:HS.
  2:{ munfold. split; [|done]. apply Hskip. intros (S & ? & _). congruence. }
  destruct (decide (c ∈ S)) as [Hin|Hnin].
  2:{ munfold. split; [|done]. apply Hskip. intros (S' & ? & ?). congruence. }
  split; [by apply unsubscribe_holds_iff|].
  by destruct (unsubscribe_clients c k s) as (_ & _ & ? & _).
Qed.

Lemma cleanup_loop_holds c (ks : list mkey) s :
  Inv s →
  (∀ c' k', holds (final (for_each ks (cleanup_body c) s)) c' k'
            ↔ holds s c' k' ∧ ¬ (c' = c ∧ k' ∈ ks))
  ∧ polls (final (for_each ks (cleanup_body c) s)) = polls s.
Proof.
  revert s. induction ks as [|k ks IH]; intros s HI; cbn [for_each].
  { munfold. split; [|done]. intros c' k'. split; [|by intros [? _]].
    intros Hh. split; [done|]. intros [_ ?]. set_solver. }
  destruct (cleanup_body_spec c k s HI) as (Ho & HI1 & _).
  destruct (cleanup_body_holds c k s HI) as [Hh1 Hp1].
  rewrite (bind_ret _ _ _ tt) by done. scbn.
  destruct (IH _ HI1) as [Hh2 Hp2]. split; [|congruence].
  intros c' k'. rewrite Hh2, Hh1. split.
  - intros [[Hh Hn1] Hn2]. split; [done|]. intros [-> [->|?]%elem_of_cons].
    + by apply Hn1.
    + by apply Hn2.
  - intros [Hh Hn]. split; [split; [done|]|].
    + intros [-> ->]. apply Hn. split; [done|]. set_solver.
    + intros [-> ?]. apply Hn. split; [done|]. set_solver.
Qed.

(** X5.  When a connection closes it is removed from [clients] and from
    every subscriber set, and nothing else changes hands: the other
    connections hold what they held.  The timer of a market whose id
    converts to a string survives exactly when another connection still
    holds the market, and fetches that are pending stay pending. *)
Theorem close_removes_the_connection (s : service) (c : string) :
  reachable s →
  let s' := final (on_close c s) in
  out (on_close c s) = Ret tt
  ∧ clients s' = delete c (clients s)
  ∧ (∀ c' k, holds s' c' k ↔ holds s c' k ∧ c' ≠ c)
  ∧ (∀ k, printable s k = true →
          (∃ t, timers s' !! t = Some k) ↔ (∃ c', c' ≠ c ∧ holds s c' k))
  ∧ polls s' = polls s.
Proof.
  intros HI%reachable_Inv. cbn zeta.
  destruct (Inv_on_close c s HI) as [Hout HI'].
  destruct (cleanup_spec c s HI) as (_ & HIc & Hcl & Hheap & _).
  assert (∀ c' k, holds (final (on_close c s)) c' k ↔ holds s c' k ∧ c' ≠ c) as Hh.
  { intros c' k. rewrite on_close_final by done. unfold cleanupClientSubscriptions.
    rewrite (bind_pure _ _ _ s) by done.
    destruct (cleanup_loop_holds c (map_to_list (orderbookSubscriptions s)).*1 s HI)
      as [Hloop _].
    unfold holds in *. scbn. rewrite Hloop. split.
    - intros [(S & HS & Hin) Hn]. split; [by exists S|]. intros ->. apply Hn.
      split; [done|]. apply list_elem_of_fmap. exists (k, S). split; [done|].
      by apply elem_of_map_to_list.
    - intros [? Hne]. split; [done|]. by intros [? _]. }
  split; [done|]. split; [|split; [done|split]].
  - rewrite on_close_final by done. scbn. by rewrite Hcl.
  - intros k Hp.
    assert (printable (final (on_close c s)) k = true) as Hp'.
    { rewrite on_close_final by done. unfold printable in *. scbn.
      by rewrite Hheap. }
    rewrite (timer_iff_held _ _ HI' Hp'). split.
    + intros [c' [? ?]%Hh]. by exists c'.
    + intros (c' & ? & ?). exists c'. by apply Hh.
  - rewrite on_close_final by done. unfold cleanupClientSubscriptions.
    rewrite (bind_pure _ _ _ s) by done. scbn.
    by destruct (cleanup_loop_holds c (map_to_list (orderbookSubscriptions s)).*1 s HI).
Qed.

Lemma close_removes_the_connection_witness :
  let s := final (run A_subscribes_M1 constructor) in
  reachable s
  ∧ clients (final (on_close "A" s)) = delete "A" (clients s)
  ∧ polls (final (on_close "A" s)) = polls s.
Proof.
  cbn zeta.
  assert (reachable (final (run A_subscribes_M1 constructor))) as Hr
    by (by exists A_subscribes_M1).
  split; [exact Hr|].
  destruct (close_removes_the_connection _ "A" Hr) as (_ & H1 & _ & _ & H2).
  exact (conj H1 H2).
Defined.

Lemma forwarded_none tr : Forall not_forward tr → forwarded tr = [].
Proof.
  induction 1 as [|e tr He _ IH]; [done|]. cbn [forwarded omap list_omap].
  destruct e; try done. by destruct (He channel params).
Qed.

Lemma received_none c tr : Forall not_send tr → received c tr = [].
Proof.
  induction 1 as [|e tr He _ IH]; [done|]. cbn [received omap list_omap].
  destruct e; try done. by destruct (He clientId payload).
Qed.

Lemma fetches_app tr1 tr2 : fetches (tr1 ++ tr2) = (fetches tr1 ++ fetches tr2)%list.
Proof. apply omap_app. Qed.


Lemma writable_same_sockets s s' c :
  same_sockets s s' → writable s' c = writable s c.
Proof.
  intros H. specialize (H c). unfold writable.
  destruct (clients s' !! c) as [cl'|], (clients s !! c) as [cl|]; cbn in H;
    try done. by injection H as ->.
Qed.

(** The registry methods write to no socket and forward nothing. *)
Lemma quiet_subscribe c v :
  keeps (λ _, True) (λ e, not_send e ∧ not_forward e)
    (when_truthy v (λ x, k ← map_key x; subscribeToOrderbook c k)).
Proof.
  apply keeps_when_truthy. intros x. apply keeps_bind.
  - by apply keeps_map_key.
  - intros k. by apply keeps_subscribeToOrderbook.
Qed.

Lemma quiet_unsubscribe c v :
  keeps (λ _, True) (λ e, not_send e ∧ not_forward e)
    (when_truthy v (λ x, k ← map_key x; unsubscribeFromOrderbook c k)).
Proof.
  apply keeps_when_truthy. intros x. apply keeps_bind.
  - by apply keeps_map_key.
  - intros k. by apply keeps_unsubscribeFromOrderbook.
Qed.

Lemma quiet_cleanup c :
  keeps (λ _, True) (λ e, not_send e ∧ not_forward e)
    (cleanupClientSubscriptions c).
Proof. by apply keeps_cleanupClientSubscriptions. Qed.

(** ** Requests that are handled to the end *)

Lemma orderbook_market_id_clean channel params s :
  reads_cleanly channel params = true →
  orderbook_market_id (Some channel) (Some params) s
  = Result (Ret (request_market_id channel params)) s [].
Proof.
  unfold reads_cleanly, orderbook_market_id, request_market_id.
  destruct (is_string (Some channel) "orderbook"); [|done].
  destruct params; try done. by rewrite andb_false_r.
Qed.

Lemma reads_cleanly_key channel params :
  reads_cleanly channel params = true →
  is_Some (subscriptionKey (Some channel) (Some params))
  ∧ falsy_or_prints (request_market_id channel params) = true.
Proof.
  unfold reads_cleanly, subscriptionKey, Js.prints. cbn [Js.template].
  destruct (Js.to_string channel); [|done].
  intros [_ ?]%andb_true_iff. split; [by eexists|done].
Qed.

Lemma alter_keys_sockets (f : gset string → gset string) c s s' :
  clients s' = clients (with_clients
                 (alter (λ client, Client (ws client) (f (subscriptions client))) c) s) →
  polymarketWs s' = polymarketWs s →
  writable s' c = writable s c
  ∧ (if decide (polymarketWs s' = Some OPEN) then true else false)
    = (if decide (polymarketWs s = Some OPEN) then true else false).
Proof.
  intros Hcl Hws. split; [|by rewrite Hws].
  apply writable_same_sockets. intros c'. rewrite Hcl. apply same_sockets_alter.
Qed.

Lemma handleSubscribe_clean c cl (channel params : json) key s :
  Inv s → clients s !! c = Some cl →
  reads_cleanly channel params = true →
  subscriptionKey (Some channel) (Some params) = Some key →
  let data := JObj [("type", JStr "subscribe"); ("channel", channel);
                    ("params", params)] in
  let s1 := with_clients
              (alter (λ client,
                 Client (ws client)
                   ({[key]} ∪ subscriptions client)) c) s in
  let blk := when_truthy (request_market_id channel params)
               (λ v, k ← map_key v; subscribeToOrderbook c k) s1 in
  out blk = Ret tt
  ∧ clients (final blk) = clients s1
  ∧ handleSubscribe c data s
    = Result (Ret tt) (final blk)
        (trace blk
         ++ (if decide (polymarketWs s = Some OPEN)
             then [UpstreamSubscribe (Some channel) (Some params)] else [])
         ++ (if writable s c
             then [WsSend c (acknowledgement "subscribed" (Some channel) (Some params))]
             else [])).
Proof.
  intros HI Hc Hclean Hkey. cbn zeta. set (s1 := with_clients _ s).
  assert (Inv s1) as HI1.
  { apply (Inv_frame s); try done. intros c'.
    apply same_sockets_is_Some, (same_sockets_alter (λ S, {[key]} ∪ S)). }
  destruct (when_truthy_subscribe c (request_market_id channel params) s1 HI1)
    as (_ & Hcl & Hws & Ho).
  { unfold s1. scbn. rewrite lookup_alter_eq, Hc. by eexists. }
  cbn zeta in Ho, Hcl, Hws.
  rewrite (proj2 (reads_cleanly_key _ _ Hclean)) in Ho.
  split; [done|]. split; [done|].
  unfold handleSubscribe. rewrite (bind_pure _ _ _ s) by done. rewrite Hc.
  rewrite !(bind_pure _ _ _ _ (prop_object _ _ _)). cbn [Js.field].
  rewrite (decide_False (P := "type" = "channel")) by done.
  rewrite (decide_True (P := "channel" = "channel")) by done.
  rewrite (decide_False (P := "type" = "params")) by done.
  rewrite (decide_False (P := "channel" = "params")) by done.
  rewrite (decide_True (P := "params" = "params")) by done.
  rewrite Hkey, (bind_pure _ _ _ _ eq_refl).
  rewrite bind_modify. fold s1.
  rewrite (bind_pure _ _ _ _ (orderbook_market_id_clean _ _ _ Hclean)).
  rewrite (bind_ret _ _ _ tt) by done. scbn.
  set (s2 := final (when_truthy _ _ s1)) in *.
  destruct (alter_keys_sockets (λ S, {[key]} ∪ S) c s s2)
    as [Hw Hup]; [done|by rewrite Hws|].
  rewrite (bind_pure _ _ _ s2) by done.
  destruct (decide (polymarketWs s2 = Some OPEN)) as [Hopen|Hnot];
    destruct (decide (polymarketWs s = Some OPEN)); try done.
  - rewrite (bind_ret _ _ _ tt) by done. munfold.
    rewrite sendToClient_result, Hw. done.
  - rewrite (bind_pure _ _ _ tt) by done.
    rewrite sendToClient_result, Hw. done.
Qed.

Lemma handleUnsubscribe_clean c cl (channel params : json) key s :
  Inv s → clients s !! c = Some cl →
  reads_cleanly channel params = true →
  subscriptionKey (Some channel) (Some params) = Some key →
  let data := JObj [("type", JStr "unsubscribe"); ("channel", channel);
                    ("params", params)] in
  let s1 := with_clients
              (alter (λ client,
                 Client (ws client)
                   (subscriptions client ∖ {[key]})) c) s in
  let blk := when_truthy (request_market_id channel params)
               (λ v, k ← map_key v; unsubscribeFromOrderbook c k) s1 in
  out blk = Ret tt
  ∧ clients (final blk) = clients s1
  ∧ handleUnsubscribe c data s
    = Result (Ret tt) (final blk)
        (trace blk
         ++ (if writable s c
             then [WsSend c (acknowledgement "unsubscribed" (Some channel) (Some params))]
             else [])).
Proof.
  intros HI Hc Hclean Hkey. cbn zeta. set (s1 := with_clients _ s).
  assert (Inv s1) as HI1.
  { apply (Inv_frame s); try done. intros c'.
    apply same_sockets_is_Some, (same_sockets_alter (λ S, S ∖ {[key]})). }
  destruct (when_truthy_unsubscribe c (request_market_id channel params) s1 HI1)
    as (Ho & _ & Hcl & Hws).
  cbn zeta in Ho, Hcl, Hws. split; [done|]. split; [done|].
  unfold handleUnsubscribe. rewrite (bind_pure _ _ _ s) by done. rewrite Hc.
  rewrite !(bind_pure _ _ _ _ (prop_object _ _ _)). cbn [Js.field].
  rewrite (decide_False (P := "type" = "channel")) by done.
  rewrite (decide_True (P := "channel" = "channel")) by done.
  rewrite (decide_False (P := "type" = "params")) by done.
  rewrite (decide_False (P := "channel" = "params")) by done.
  rewrite (decide_True (P := "params" = "params")) by done.
  rewrite Hkey, (bind_pure _ _ _ _ eq_refl).
  rewrite bind_modify. fold s1.
  rewrite (bind_pure _ _ _ _ (orderbook_market_id_clean _ _ _ Hclean)).
  rewrite (bind_ret _ _ _ tt) by done. scbn.
  set (s2 := final (when_truthy _ _ s1)) in *.
  destruct (alter_keys_sockets (λ S, S ∖ {[key]}) c s s2)
    as [Hw _]; [done|by rewrite Hws|].
  rewrite sendToClient_result, Hw. done.
Qed.

Lemma on_message_subscribe_request c cl channel params s :
  clients s !! c = Some cl →
  out (handleSubscribe c (JObj [("type", JStr "subscribe"); ("channel", channel);
                                ("params", params)]) s) = Ret tt →
  on_message c (subscribe_request channel params) s
  = handleSubscribe c (JObj [("type", JStr "subscribe"); ("channel", channel);
                             ("params", params)]) s.
Proof.
  intros Hc Ho. unfold subscribe_request. rewrite on_message_parsed.
  unfold try_catch, handleClientMessage.
  rewrite (bind_pure _ _ _ s) by done. rewrite Hc.
  rewrite (bind_pure _ _ _ _ (prop_object _ _ _)). cbn [Js.field].
  rewrite decide_True by done. unfold is_string at 1.
  rewrite bool_decide_eq_true_2 by done.
  by destruct (handleSubscribe _ _ s) as [[[]|e] s1 t1].
Qed.

Lemma on_message_unsubscribe_request c cl channel params s :
  clients s !! c = Some cl →
  out (handleUnsubscribe c (JObj [("type", JStr "unsubscribe"); ("channel", channel);
                                  ("params", params)]) s) = Ret tt →
  on_message c (unsubscribe_request channel params) s
  = handleUnsubscribe c (JObj [("type", JStr "unsubscribe"); ("channel", channel);
                               ("params", params)]) s.
Proof.
  intros Hc Ho. unfold unsubscribe_request. rewrite on_message_parsed.
  unfold try_catch, handleClientMessage.
  rewrite (bind_pure _ _ _ s) by done. rewrite Hc.
  rewrite (bind_pure _ _ _ _ (prop_object _ _ _)). cbn [Js.field].
  rewrite decide_True by done. unfold is_string at 1 2.
  rewrite bool_decide_eq_false_2 by done.
  rewrite bool_decide_eq_true_2 by done.
  by destruct (handleUnsubscribe _ _ s) as [[[]|e] s1 t1].
Qed.

Lemma quiet_received c v s c' :
  received c' (trace (when_truthy v (λ x, k ← map_key x; subscribeToOrderbook c k) s)) = []
  ∧ forwarded (trace (when_truthy v (λ x, k ← map_key x; subscribeToOrderbook c k) s)) = []
  ∧ received c' (trace (when_truthy v (λ x, k ← map_key x; unsubscribeFromOrderbook c k) s)) = []
  ∧ forwarded (trace (when_truthy v (λ x, k ← map_key x; unsubscribeFromOrderbook c k) s)) = [].
Proof.
  destruct (quiet_subscribe c v s I) as [_ H1].
  destruct (quiet_unsubscribe c v s I) as [_ H2].
  split; [|split; [|split]].
  - apply received_none. eapply Forall_impl; [exact H1|]. by intros e [? _].
  - apply forwarded_none. eapply Forall_impl; [exact H1|]. by intros e [_ ?].
  - apply received_none. eapply Forall_impl; [exact H2|]. by intros e [? _].
  - apply forwarded_none. eapply Forall_impl; [exact H2|]. by intros e [_ ?].
Qed.

Lemma received_one c c' d (b : bool) :
  received c' (if b then [WsSend c d] else [])
  = if decide (c' = c) then (if b then [d] else []) else [].
Proof.
  destruct b; cbn.
  - destruct (decide (c = c')) as [->|Hne].
    + by rewrite decide_True.
    + by rewrite decide_False by done.
  - by destruct (decide (c' = c)).
Qed.

(** X7.  A subscribe or unsubscribe request that is handled to the end
    (its channel converts to a string, [params.market_id] can be read
    where it is read, and the market id, if truthy, converts to a string) is
    acknowledged exactly once, to the connection that sent it and to
    nobody else, with the channel and the params it carried; a ping gets
    exactly one pong and changes nothing.  (If the socket of the sender is
    not open, nothing is written.) *)
Theorem requests_are_acknowledged_once
    (s : service) (c c' : string) (cl : client) (channel params : json) :
  reachable s →
  clients s !! c = Some cl →
  reads_cleanly channel params = true →
  (out (on_message c (subscribe_request channel params) s) = Ret tt
   ∧ received c' (trace (on_message c (subscribe_request channel params) s))
     = if decide (c' = c)
       then (if writable s c
             then [acknowledgement "subscribed" (Some channel) (Some params)]
             else [])
       else [])
  ∧ (out (on_message c (unsubscribe_request channel params) s) = Ret tt
     ∧ received c' (trace (on_message c (unsubscribe_request channel params) s))
       = if decide (c' = c)
         then (if writable s c
               then [acknowledgement "unsubscribed" (Some channel) (Some params)]
               else [])
         else [])
  ∧ on_message c ping_request s
    = Result (Ret tt) s
        (if writable s c then [WsSend c (JObj [("type", JStr "pong")])] else []).
Proof.
  intros HI%reachable_Inv Hc Hclean.
  destruct (proj1 (reads_cleanly_key _ _ Hclean)) as [key Hkey].
  destruct (handleSubscribe_clean c cl channel params key s HI Hc Hclean Hkey)
    as (_ & _ & Hs).
  destruct (handleUnsubscribe_clean c cl channel params key s HI Hc Hclean Hkey)
    as (_ & _ & Hu).
  cbn zeta in Hs, Hu.
  destruct (quiet_received c (request_market_id channel params)
              (with_clients
                 (alter (λ client, Client (ws client)
                    ({[key]} ∪ subscriptions client)) c) s) c') as (Hq1 & _ & _ & _).
  destruct (quiet_received c (request_market_id channel params)
              (with_clients
                 (alter (λ client, Client (ws client)
                    (subscriptions client ∖ {[key]})) c) s) c')
    as (_ & _ & Hq2 & _).
  split; [|split].
  - rewrite (on_message_subscribe_request c cl) by (done || by rewrite Hs).
    rewrite Hs. scbn. split; [done|].
    rewrite !received_app, Hq1, received_one. cbn [app].
    by destruct (decide (polymarketWs s = Some OPEN)).
  - rewrite (on_message_unsubscribe_request c cl) by (done || by rewrite Hu).
    rewrite Hu. scbn. split; [done|].
    by rewrite !received_app, Hq2, received_one.
  - unfold ping_request. rewrite on_message_parsed.
    unfold try_catch, handleClientMessage.
    rewrite (bind_pure _ _ _ s) by done. rewrite Hc.
    rewrite (bind_pure _ _ _ _ (prop_object _ _ _)). cbn [Js.field].
    rewrite decide_True by done. unfold is_string.
    rewrite !bool_decide_eq_false_2 by done.
    rewrite bool_decide_eq_true_2 by done.
    by rewrite sendToClient_result.
Qed.

Lemma requests_are_acknowledged_once_witness :
  let s := final (run [EvConnection "A" "t0"] constructor) in
  reachable s
  ∧ clients s !! "A" = Some (Client OPEN ∅)
  ∧ reads_cleanly (JStr "orderbook") (orderbook_of "M1") = true
  ∧ received "A"
      (trace (on_message "A" (subscribe_request (JStr "orderbook") (orderbook_of "M1")) s))
    = [acknowledgement "subscribed" (Some (JStr "orderbook")) (Some (orderbook_of "M1"))].
Proof.
  cbn zeta.
  assert (reachable (final (run [EvConnection "A" "t0"] constructor))) as Hr
    by (by eexists).
  assert (clients (final (run [EvConnection "A" "t0"] constructor)) !! "A"
          = Some (Client OPEN ∅)) as Hc
    by (apply (bool_decide_unpack _); vm_compute; exact I).
  assert (reads_cleanly (JStr "orderbook") (orderbook_of "M1") = true) as Hclean
    by (vm_compute; reflexivity).
  split; [exact Hr|]. split; [exact Hc|]. split; [exact Hclean|].
  destruct (requests_are_acknowledged_once _ "A" "A" _ _ _ Hr Hc Hclean)
    as [[_ H] _].
  etransitivity; [exact H|]. vm_compute. reflexivity.
Defined.

Lemma no_market_clean channel params :
  no_market channel params = true →
  reads_cleanly channel params = true
  ∧ ∀ body s,
      when_truthy (request_market_id channel params) body s = Result (Ret tt) s [].
Proof.
  intros [Hclean Hf%negb_true_iff]%andb_true_iff. split; [done|].
  intros body s. unfold when_truthy.
  destruct (request_market_id channel params) as [v|]; [|done].
  by rewrite Hf.
Qed.

Lemma alter_known {A} (f : A → A) (m : gmap string A) c x :
  m !! c = Some x → alter f c m = <[c := f x]> m.
Proof.
  intros H. by rewrite <-(insert_id m c x H) at 1; rewrite alter_insert_eq.
Qed.

(** X8.  A subscribe or unsubscribe request that names no market to poll
    (its channel converts to a string and is not [orderbook], or its params
    carry no truthy [market_id]) is handled to the end and changes, of the connection
    records, only the key set of its sender; the registry of subscribers,
    the polling tasks and the cycles in flight are as before, and no fetch
    is started. *)
Theorem request_without_market_touches_only_the_key_set
    (s : service) (c : string) (cl : client) (channel params : json) :
  reachable s →
  clients s !! c = Some cl →
  no_market channel params = true →
  ∃ key, subscriptionKey (Some channel) (Some params) = Some key ∧
  let sub := on_message c (subscribe_request channel params) s in
  let unsub := on_message c (unsubscribe_request channel params) s in
  (out sub = Ret tt
   ∧ clients (final sub)
     = <[c := Client (ws cl) ({[key]} ∪ subscriptions cl)]> (clients s)
   ∧ registry (final sub) = registry s
   ∧ polls (final sub) = polls s
   ∧ fetches (trace sub) = [])
  ∧ (out unsub = Ret tt
     ∧ clients (final unsub)
       = <[c := Client (ws cl) (subscriptions cl ∖ {[key]})]> (clients s)
     ∧ registry (final unsub) = registry s
     ∧ polls (final unsub) = polls s
     ∧ fetches (trace unsub) = []).
Proof.
  intros HI%reachable_Inv Hc [Hclean Hskip]%no_market_clean.
  destruct (proj1 (reads_cleanly_key _ _ Hclean)) as [key Hkey].
  exists key. split; [done|]. cbn zeta.
  destruct (handleSubscribe_clean c cl channel params key s HI Hc Hclean Hkey)
    as (_ & _ & Hs).
  destruct (handleUnsubscribe_clean c cl channel params key s HI Hc Hclean Hkey)
    as (_ & _ & Hu).
  cbn zeta in Hs, Hu. rewrite Hskip in Hs, Hu. scbn. split.
  - rewrite (on_message_subscribe_request c cl) by (done || by rewrite Hs).
    rewrite Hs. scbn. split; [done|]. split; [by rewrite (alter_known _ _ _ _ Hc)|].
    do 2 (split; [done|]).
    destruct (decide (polymarketWs s = Some OPEN)); [|by destruct (writable s c)].
    by destruct (writable s c).
  - rewrite (on_message_unsubscribe_request c cl) by (done || by rewrite Hu).
    rewrite Hu. scbn. split; [done|]. split; [by rewrite (alter_known _ _ _ _ Hc)|].
    do 2 (split; [done|]). by destruct (writable s c).
Qed.

Lemma request_without_market_witness :
  let s := final (run [EvConnection "A" "t0"] constructor) in
  reachable s
  ∧ clients s !! "A" = Some (Client OPEN ∅)
  ∧ no_market (JStr "trades") (orderbook_of "M1") = true
  ∧ fetches (trace (on_message "A"
               (subscribe_request (JStr "trades") (orderbook_of "M1")) s)) = [].
Proof.
  cbn zeta.
  assert (reachable (final (run [EvConnection "A" "t0"] constructor))) as Hr
    by (by eexists).
  assert (clients (final (run [EvConnection "A" "t0"] constructor)) !! "A"
          = Some (Client OPEN ∅)) as Hc
    by (apply (bool_decide_unpack _); vm_compute; exact I).
  assert (no_market (JStr "trades") (orderbook_of "M1") = true) as Hn
    by (vm_compute; reflexivity).
  split; [exact Hr|]. split; [exact Hc|]. split; [exact Hn|].
  destruct (request_without_market_touches_only_the_key_set _ "A" _ _ _ Hr Hc Hn)
    as (key & _ & H & _).
  exact (proj2 (proj2 (proj2 (proj2 H)))).
Defined.

(** X6.  Subscribe and then unsubscribe, with the same channel and the
    same params, in requests that are handled to the end: the subscription
    key is in the key set of the sender
    after the first and out of it after the second, whether or not it was
    there before; if it was not, every connection record is as it was. *)
Theorem subscription_key_round_trip
    (s : service) (c : string) (cl : client) (channel params : json) :
  reachable s →
  clients s !! c = Some cl →
  reads_cleanly channel params = true →
  ∃ key, subscriptionKey (Some channel) (Some params) = Some key ∧
  let s1 := final (on_message c (subscribe_request channel params) s) in
  let s2 := final (on_message c (unsubscribe_request channel params) s1) in
  clients s1 = <[c := Client (ws cl) ({[key]} ∪ subscriptions cl)]> (clients s)
  ∧ clients s2 = <[c := Client (ws cl) (subscriptions cl ∖ {[key]})]> (clients s)
  ∧ (key ∉ subscriptions cl → clients s2 = clients s).
Proof.
  intros HI%reachable_Inv Hc Hclean.
  destruct (proj1 (reads_cleanly_key _ _ Hclean)) as [key Hkey].
  exists key. split; [done|]. cbn zeta.
  destruct (handleSubscribe_clean c cl channel params key s HI Hc Hclean Hkey)
    as (_ & Hcl1 & Hs).
  cbn zeta in Hs, Hcl1.
  rewrite (on_message_subscribe_request c cl) by (done || by rewrite Hs).
  destruct (Inv_on_message c (subscribe_request channel params) s HI) as (_ & HI1 & _).
  rewrite (on_message_subscribe_request c cl) in HI1 by (done || by rewrite Hs).
  rewrite Hs in *. scbn. set (s1 := final _) in *.
  assert (clients s1 = <[c := Client (ws cl) ({[key]} ∪ subscriptions cl)]> (clients s))
    as Hs1.
  { rewrite Hcl1. scbn. by rewrite (alter_known _ _ _ _ Hc). }
  assert (clients s1 !! c = Some (Client (ws cl) ({[key]} ∪ subscriptions cl))) as Hc1.
  { by rewrite Hs1, lookup_insert_eq. }
  destruct (handleUnsubscribe_clean c _ channel params key s1 HI1 Hc1 Hclean Hkey)
    as (_ & Hcl2 & Hu).
  cbn zeta in Hu, Hcl2.
  rewrite (on_message_unsubscribe_request c _ _ _ s1 Hc1) by (by rewrite Hu).
  rewrite Hu. scbn.
  assert (∀ m, m = clients s1 →
            alter (λ client, Client (ws client) (subscriptions client ∖ {[key]})) c m
            = <[c := Client (ws cl) (subscriptions cl ∖ {[key]})]> (clients s)) as Hround.
  { intros m ->. etransitivity; [exact (alter_known _ _ _ _ Hc1)|].
    cbn [ws subscriptions].
    rewrite Hs1, insert_insert_eq. f_equal. f_equal. set_solver. }
  split; [done|]. rewrite Hcl2. scbn. split; [by apply Hround|].
  intros Hnew. etransitivity; [exact (Hround _ eq_refl)|].
  replace (subscriptions cl ∖ {[key]}) with (subscriptions cl) by set_solver.
  destruct cl as [w S]. by apply insert_id.
Qed.

Lemma subscription_key_round_trip_witness :
  let s := final (run [EvConnection "A" "t0"] constructor) in
  reachable s
  ∧ clients s !! "A" = Some (Client OPEN ∅)
  ∧ reads_cleanly (JStr "orderbook") (orderbook_of "M1") = true
  ∧ clients (final (on_message "A"
               (unsubscribe_request (JStr "orderbook") (orderbook_of "M1"))
               (final (on_message "A"
                  (subscribe_request (JStr "orderbook") (orderbook_of "M1")) s))))
    = clients s.
Proof.
  cbn zeta.
  assert (reachable (final (run [EvConnection "A" "t0"] constructor))) as Hr
    by (by eexists).
  assert (clients (final (run [EvConnection "A" "t0"] constructor)) !! "A"
          = Some (Client OPEN ∅)) as Hc
    by (apply (bool_decide_unpack _); vm_compute; exact I).
  assert (reads_cleanly (JStr "orderbook") (orderbook_of "M1") = true) as Hclean
    by (vm_compute; reflexivity).
  split; [exact Hr|]. split; [exact Hc|]. split; [exact Hclean|].
  destruct (subscription_key_round_trip _ "A" _ _ _ Hr Hc Hclean)
    as (key & _ & _ & _ & H).
  apply H. cbn [subscriptions]. apply not_elem_of_empty.
Defined.


(** ** What is written, and where *)

Lemma keeps_on_close P E c :
  (∀ f s, P s → P (with_subscriptions f s)) →
  (∀ f s, P s → P (with_intervals f s)) →
  (∀ f n s, P s → P (with_timers f n s)) →
  (∀ s, P s → P (with_clients (delete c) s)) →
  (∀ line, E (Log line)) →
  keeps P E (on_close c).
Proof.
  intros H1 H2 H3 H4 H5. unfold on_close.
  apply keeps_bind; [by apply keeps_emit|]. intros _.
  apply keeps_bind; [by apply keeps_cleanupClientSubscriptions|]. intros _.
  by apply keeps_modify.
Qed.

Lemma keeps_on_connection P E c now :
  (∀ s, P s → P (with_clients <[c := Client OPEN ∅]> s)) →
  (∀ line, E (Log line)) →
  (∀ s d, P s → writable s c = true → E (WsSend c d)) →
  keeps P E (on_connection c now).
Proof.
  intros H1 H2 H3. unfold on_connection.
  apply keeps_bind; [by apply keeps_emit|]. intros _.
  apply keeps_bind; [by apply keeps_modify|]. intros _.
  intros s Hs. rewrite sendToClient_result. scbn. split; [done|].
  destruct (writable s c) eqn:Hw; [|done]. constructor; [|done]. by eapply H3.
Qed.

Lemma keeps_upstream P E ev :
  downstream ev = false →
  (∀ w s, P s → P (with_polymarketWs w s)) →
  (∀ n s, P s → P (with_reconnects n s)) →
  (∀ line, E (Log line)) →
  (∀ s c d, P s → writable s c = true → E (WsSend c d)) →
  keeps P E (step ev).
Proof.
  intros Hev H1 H2 H3 H4. destruct ev; try done; cbn [step].
  - unfold connectToPolymarket. apply keeps_modify. intros s. apply H1.
  - apply keeps_modify. intros s. apply H1.
  - by apply keeps_emit.
  - by apply keeps_on_upstream_message.
  - unfold on_upstream_close. apply keeps_bind; [by apply keeps_emit|].
    intros _. apply keeps_modify. intros s. apply H2.
  - by apply keeps_emit.
  - unfold on_reconnect. apply keeps_get. intros s Hs.
    destruct (reconnects s); [by apply keeps_ret|].
    apply keeps_bind; [apply keeps_modify; intros s'; apply H2| |done].
    intros _. unfold connectToPolymarket. apply keeps_modify. intros s'. apply H1.
Qed.

Lemma handlers_send_to_open s (m : M unit) :
  keeps (same_sockets s) (send_to_open s) m →
  Forall (send_to_open (final (m s))) (trace (m s)).
Proof.
  intros H. destruct (H s (same_sockets_refl s)) as [HP HE].
  eapply Forall_impl; [exact HE|]. intros e He c d ->.
  rewrite (writable_same_sockets s _ c HP). by eapply He.
Qed.

Lemma send_to_open_same s s' c d :
  same_sockets s s' → writable s' c = true → send_to_open s (WsSend c d).
Proof.
  intros H Hw c' d' [= <- <-]. by rewrite <-(writable_same_sockets s s' c H).
Qed.

Lemma step_sends_to_open ev s :
  Forall (send_to_open (final (step ev s))) (trace (step ev s)).
Proof.
  destruct ev; cbn [step].
  - (* connection *)
    unfold on_connection. rewrite (bind_ret _ _ _ tt) by done. munfold.
    rewrite sendToClient_result. scbn. constructor; [done|].
    destruct (writable _ clientId) eqn:Hw; [|done].
    constructor; [|done]. by intros c d [= <- <-].
  - apply handlers_send_to_open, keeps_on_message; try done.
    + intros f c s' H. eapply same_sockets_trans; [exact H|apply same_sockets_alter].
    + intros s' c d. apply send_to_open_same.
  - (* close *)
    destruct (keeps_on_close (λ _, True) not_send clientId) with (s := s)
      as [_ H]; try done.
    eapply Forall_impl; [exact H|]. intros e He c d ->. by destruct (He c d).
  - by repeat constructor.
  - by munfold.
  - apply handlers_send_to_open, keeps_on_interval; done.
  - apply handlers_send_to_open, keeps_on_settled; try done.
    intros s' c d. apply send_to_open_same.
  - by munfold.
  - by munfold.
  - by repeat constructor.
  - apply handlers_send_to_open, keeps_on_upstream_message; try done.
    intros s' c d. apply send_to_open_same.
  - unfold on_upstream_close. munfold. by repeat constructor.
  - by repeat constructor.
  - unfold on_reconnect. rewrite (bind_pure _ _ _ s) by done.
    destruct (reconnects s); [done|]. unfold connectToPolymarket. by munfold.
Qed.

(** X13.  Whatever the event and whatever the state, a frame is written
    only to a connection that is registered and whose socket is open, also
    once the callback has run: no frame goes to a connection that has been
    closed or was never opened. *)
Theorem frames_go_only_to_open_sockets
    (s : service) (ev : event) (c : string) (d : json) :
  WsSend c d ∈ trace (step ev s) →
  writable (final (step ev s)) c = true
  ∧ ∃ cl, clients (final (step ev s)) !! c = Some cl ∧ ws cl = OPEN.
Proof.
  intros Hin.
  assert (writable (final (step ev s)) c = true) as Hw.
  { pose proof (step_sends_to_open ev s) as H.
    rewrite Forall_forall in H. by eapply H. }
  split; [done|]. unfold writable in Hw.
  destruct (clients (final (step ev s)) !! c) as [cl|]; [|done].
  exists cl. split; [done|]. by apply bool_decide_eq_true in Hw.
Qed.

Lemma frames_go_only_to_open_sockets_witness :
  let s := final (run [EvConnection "A" "t0"] constructor) in
  WsSend "A" (JObj [("type", JStr "pong")]) ∈ trace (step (EvMessage "A" ping_request) s)
  ∧ writable (final (step (EvMessage "A" ping_request) s)) "A" = true.
Proof.
  cbn zeta.
  assert (WsSend "A" (JObj [("type", JStr "pong")])
            ∈ trace (step (EvMessage "A" ping_request)
                       (final (run [EvConnection "A" "t0"] constructor)))) as Hin.
  { assert (trace (step (EvMessage "A" ping_request)
                     (final (run [EvConnection "A" "t0"] constructor)))
            = [WsSend "A" (JObj [("type", JStr "pong")])]) as ->
      by (vm_compute; reflexivity).
    apply list_elem_of_here. }
  split; [exact Hin|].
  exact (proj1 (frames_go_only_to_open_sockets _ _ _ _ Hin)).
Defined.

(** ** The upstream socket *)

Lemma other_messages_forward_nothing c m s :
  subscribe_frame (EvMessage c m) = false →
  Forall not_forward (trace (on_message c m s)).
Proof.
  intros Hm. destruct m as [|data].
  { unfold on_message, try_catch, JSON_parse.
    rewrite (bind_pure_throw _ _ _ "SyntaxError") by done. munfold.
    by repeat constructor. }
  rewrite on_message_parsed.
  assert (keeps (λ _, True) not_forward
            (try_catch (handleClientMessage c data)
               (λ e, emit (Log (LogParseError e))))) as H; [|by apply H].
  apply keeps_try_catch; [|intros e; by apply keeps_emit].
  unfold handleClientMessage. apply keeps_get. intros s' _.
  destruct (clients s' !! c); [|by munfold].
  destruct data as [|b|n|str|xs|fs];
    try (rewrite (bind_pure _ _ _ None) by done;
         cbn [is_string]; munfold; by repeat constructor).
  - rewrite (bind_pure_throw _ _ _ "TypeError") by done. by munfold.
  - rewrite (bind_pure _ _ _ _ (prop_object _ _ _)).
    cbn [subscribe_frame] in Hm. rewrite Hm.
    destruct (is_string _ "unsubscribe").
    { by apply (keeps_handleUnsubscribe (λ _, True) not_forward). }
    destruct (is_string _ "ping").
    { by apply (keeps_sendToClient (λ _, True) not_forward). }
    munfold. by repeat constructor.
Qed.

Lemma closed_upstream_forwards_nothing ev s :
  polymarketWs s ≠ Some OPEN →
  Forall not_forward (trace (step ev s)).
Proof.
  intros Hws. destruct (downstream ev) eqn:Hev.
  2: { by apply (keeps_upstream (λ _, True) not_forward ev). }
  destruct ev; try done; cbn [step].
  - by apply (keeps_on_connection (λ _, True) not_forward).
  - apply (keeps_on_message (λ s', polymarketWs s' = polymarketWs s) not_forward);
      try done.
    intros s' channel params Hs' Hopen. by rewrite Hs' in Hopen.
  - by apply (keeps_on_close (λ _, True) not_forward).
  - by repeat constructor.
  - by apply (keeps_on_interval (λ _, True) not_forward).
  - by apply (keeps_on_settled (λ _, True) not_forward).
Qed.

(** X9.  A callback forwards something to the upstream socket only if
    that socket is open when the callback starts and the event is a
    message whose [type] is [subscribe]: unsubscribe requests, closed
    connections, poll results and upstream messages never reach
    Polymarket. *)
Theorem forwarding_needs_subscribe_and_open_upstream (s : service) (ev : event) :
  polymarketWs s ≠ Some OPEN ∨ subscribe_frame ev = false →
  forwarded (trace (step ev s)) = [].
Proof.
  intros [Hws|Hev]; apply forwarded_none.
  - by apply closed_upstream_forwards_nothing.
  - destruct (downstream ev) eqn:Hd.
    2: { by apply (keeps_upstream (λ _, True) not_forward ev). }
    destruct ev; try done; cbn [step].
    + by apply (keeps_on_connection (λ _, True) not_forward).
    + by apply other_messages_forward_nothing.
    + by apply (keeps_on_close (λ _, True) not_forward).
    + by repeat constructor.
    + by apply (keeps_on_interval (λ _, True) not_forward).
    + by apply (keeps_on_settled (λ _, True) not_forward).
Qed.

Lemma forwarding_needs_subscribe_witness :
  let s := final (run [EvConnectUpstream; EvUpstreamTransport OPEN;
                       EvConnection "A" "t0"] constructor) in
  let ev := EvMessage "A" (unsubscribe_request (JStr "orderbook") (orderbook_of "M1")) in
  (polymarketWs s ≠ Some OPEN ∨ subscribe_frame ev = false)
  ∧ forwarded (trace (step ev s)) = [].
Proof.
  cbn zeta.
  assert (subscribe_frame
            (EvMessage "A" (unsubscribe_request (JStr "orderbook") (orderbook_of "M1")))
          = false) as H by (vm_compute; reflexivity).
  split; [right; exact H|].
  apply forwarding_needs_subscribe_and_open_upstream. right. exact H.
Defined.



Lemma keeps_run P E (evs : list event) :
  (∀ ev, ev ∈ evs → keeps P E (step ev)) → keeps P E (run evs).
Proof.
  unfold run. induction evs as [|ev evs IH]; intros H; cbn [for_each].
  - apply keeps_ret.
  - apply keeps_bind; [apply H; left|].
    intros _. apply IH. intros ev' Hev'. apply H. by right.
Qed.

Lemma downstream_keeps_upstream_absent ev :
  downstream ev = true →
  keeps (λ s, polymarketWs s = None) not_forward (step ev).
Proof.
  intros Hev. destruct ev; try done; cbn [step].
  - by apply keeps_on_connection.
  - apply keeps_on_message; try done.
    intros s channel params Hs Hopen. by rewrite Hs in Hopen.
  - by apply keeps_on_close.
  - by apply keeps_emit.
  - by apply keeps_on_interval.
  - by apply keeps_on_settled.
Qed.

(** X11.  As long as [connectToPolymarket] is not called — and the server
    never calls it — there is no upstream socket, whatever the clients,
    the timers and the fetches do, and no subscribe request is forwarded
    anywhere. *)
Theorem without_upstream_nothing_is_forwarded (evs : list event) :
  forallb downstream evs = true →
  polymarketWs (final (run evs constructor)) = None
  ∧ forwarded (trace (run evs constructor)) = [].
Proof.
  intros Hevs.
  destruct (keeps_run (λ s, polymarketWs s = None) not_forward evs)
    with (s := constructor) as [H1 H2]; [|done|].
  - intros ev Hev. apply downstream_keeps_upstream_absent.
    rewrite forallb_forall in Hevs. apply Hevs. by apply list_elem_of_In.
  - split; [done|]. by apply forwarded_none.
Qed.

Lemma without_upstream_witness :
  forallb downstream A_subscribes_M1 = true
  ∧ polymarketWs (final (run A_subscribes_M1 constructor)) = None.
Proof.
  assert (forallb downstream A_subscribes_M1 = true) as H
    by (vm_compute; reflexivity).
  split; [exact H|].
  exact (proj1 (without_upstream_nothing_is_forwarded _ H)).
Defined.

(** X12.  Nothing that happens on the upstream socket — connecting, a
    change of state, a message of any content, an error, a close, a
    reconnect — throws, changes a connection record, the registry of
    subscribers, the polling tasks or the cycles in flight, or starts a
    fetch. *)
Theorem upstream_events_leave_subscriptions_alone (s : service) (ev : event) :
  downstream ev = false →
  out (step ev s) = Ret tt
  ∧ clients (final (step ev s)) = clients s
  ∧ registry (final (step ev s)) = registry s
  ∧ polls (final (step ev s)) = polls s
  ∧ fetches (trace (step ev s)) = [].
Proof.
  intros Hev. split.
  { destruct ev; try done; cbn [step].
    - apply try_catch_log.
    - unfold on_reconnect. rewrite (bind_pure _ _ _ s) by done.
      by destruct (reconnects s). }
  destruct (keeps_upstream
              (λ s', clients s' = clients s ∧ registry s' = registry s
                     ∧ polls s' = polls s)
              (λ e, ∀ k, e ≠ Fetch k) ev Hev) with (s := s)
    as [(H1 & H2 & H3) H4]; try done.
  do 3 (split; [done|]).
  clear -H4. induction H4 as [|e tr He _ IH]; [done|].
  cbn [fetches omap list_omap]. destruct e; try done. by destruct (He marketId).
Qed.

Lemma upstream_events_witness :
  downstream (EvUpstreamMessage Garbled) = false
  ∧ registry (final (step (EvUpstreamMessage Garbled)
                       (final (run A_subscribes_M1 constructor))))
    = registry (final (run A_subscribes_M1 constructor)).
Proof.
  split; [reflexivity|].
  exact (proj1 (proj2 (proj2
    (upstream_events_leave_subscriptions_alone
       (final (run A_subscribes_M1 constructor)) (EvUpstreamMessage Garbled)
       eq_refl)))).
Defined.


(** ** [broadcast] *)

Lemma flat_map_entries {A B C} (f : A → list C) (g : A * B → list C)
    (l : list (A * B)) :
  (∀ e, e ∈ l → g e = f e.1) → flat_map g l = flat_map f l.*1.
Proof.
  induction l as [|e l IH]; intros H; [done|]. cbn [flat_map fmap list_fmap].
  rewrite (H e) by left. f_equal. apply IH. intros e' He'. apply H. by right.
Qed.

(** X14.  [broadcast(data)] writes [data] exactly once to every registered
    connection whose socket is open, whether or not the connection has
    subscribed to anything, writes nothing to the others, and changes
    nothing. *)
Theorem broadcast_reaches_every_open_connection (s : service) (data : json) :
  out (broadcast data s) = Ret tt
  ∧ final (broadcast data s) = s
  ∧ printed (trace (broadcast data s)) = []
  ∧ ∀ c, received c (trace (broadcast data s))
         = if writable s c then [data] else [].
Proof.
  unfold broadcast. rewrite (bind_pure _ _ _ s) by done.
  match goal with |- context [for_each ?xs ?body s] =>
    destruct (for_each_frame xs body s) as (Ho & Hf & Ht) end.
  { intros [c cl]. cbn [fst snd]. by destruct (decide (ws cl = OPEN)). }
  split; [done|]. split; [done|]. rewrite Ht.
  rewrite (flat_map_entries (λ c, trace (sendToClient c data s))).
  2:{ intros [c cl] Hin%elem_of_map_to_list. cbn [fst snd].
      rewrite sendToClient_result. unfold writable. rewrite Hin. scbn.
      destruct (decide (ws cl = OPEN)) as [H|H].
      - by rewrite bool_decide_eq_true_2.
      - by rewrite bool_decide_eq_false_2. }
  split.
  - induction ((map_to_list (clients s)).*1) as [|c cs IH]; [done|].
    cbn [flat_map]. rewrite printed_app, IH, sendToClient_result. scbn.
    by destruct (writable s c).
  - intros c. rewrite received_send_all by apply NoDup_fst_map_to_list.
    destruct (decide (c ∈ (map_to_list (clients s)).*1)) as [|Hnin]; [done|].
    unfold writable. destruct (clients s !! c) as [cl|] eqn:Hc; [|done].
    destruct Hnin. apply list_elem_of_fmap. exists (c, cl).
    split; [done|]. by apply elem_of_map_to_list.
Qed.

(** ** Connection ids *)

Lemma append_cons (x : ascii) (a b : string) :
  String x a +:+ b = String x (a +:+ b).
Proof. reflexivity. Qed.

Lemma append_nil (b : string) : EmptyString +:+ b = b.
Proof. reflexivity. Qed.

Lemma append_assoc_char (a : string) (ch : ascii) (s : string) :
  (a +:+ String ch EmptyString) +:+ s = a +:+ String ch s.
Proof. induction a as [|x a IH]; [done|]. by rewrite !append_cons, IH. Qed.

Lemma digits_app (a b : string) :
  digits a = true → digits b = true → digits (a +:+ b) = true.
Proof.
  intros Ha Hb. induction a as [|x a IH]; [done|].
  rewrite append_cons. cbn [digits] in *.
  apply andb_true_iff in Ha as [Hx Ha]. by rewrite Hx, IH.
Qed.

Lemma pretty_N_char_digit x : digits (String (pretty_N_char x) EmptyString) = true.
Proof. unfold pretty_N_char. by repeat case_match. Qed.

Lemma pretty_N_go_digits x s :
  ∃ d, pretty_N_go x s = d +:+ s ∧ digits d = true.
Proof.
  revert s. induction (N.lt_wf_0 x) as [x _ IH]. intros s.
  assert (x = 0 ∨ 0 < x)%N as [->|Hx] by lia.
  { exists EmptyString. by rewrite pretty_N_go_0. }
  rewrite pretty_N_go_step by done.
  destruct (IH (x `div` 10)%N) with (s := String (pretty_N_char (x `mod` 10)) s)
    as (d & -> & Hd).
  { by apply N.div_lt. }
  exists (d +:+ String (pretty_N_char (x `mod` 10)) EmptyString).
  split; [by rewrite append_assoc_char|].
  apply digits_app; [done|apply pretty_N_char_digit].
Qed.

Lemma pretty_N_digits (n : N) : digits (pretty n) = true.
Proof.
  unfold pretty, pretty_N. case_decide; [done|].
  destruct (pretty_N_go_digits n EmptyString) as (d & -> & Hd).
  by apply digits_app.
Qed.

Lemma split_at_underscore (a b r1 r2 : string) :
  digits a = true → digits b = true →
  a +:+ "_" +:+ r1 = b +:+ "_" +:+ r2 → a = b ∧ r1 = r2.
Proof.
  revert b. induction a as [|x a IH]; intros [|y b] Ha Hb Heq;
    rewrite ?append_cons, ?append_nil in Heq; cbn [digits] in *.
  - by injection Heq as ->.
  - injection Heq as <- _. by apply andb_true_iff in Hb as [Hb _].
  - injection Heq as -> _. by apply andb_true_iff in Ha as [Ha _].
  - injection Heq as -> Heq.
    apply andb_true_iff in Ha as [_ Ha]. apply andb_true_iff in Hb as [_ Hb].
    destruct (IH b Ha Hb Heq) as [-> ->]. done.
Qed.

(** X15.  Two connection ids are the same exactly when they were made from
    the same clock reading and the same random suffix: the timestamp and
    the suffix can both be read back from an id. *)
Theorem generateClientId_is_injective (now1 now2 : N) (random1 random2 : string) :
  generateClientId now1 random1 = generateClientId now2 random2
  ↔ now1 = now2 ∧ random1 = random2.
Proof.
  split; [|by intros [-> ->]].
  unfold generateClientId. intros Heq%(inj (String.app "client_")).
  apply split_at_underscore in Heq as [Hn ->]; [|apply pretty_N_digits..].
  split; [|done]. by apply (inj pretty).
Qed.

(** ** Key sets and the registry *)





(** ** Fetches *)

Lemma no_fetch_in tr k :
  Forall (λ e, ∀ k', e ≠ Fetch k') tr → Fetch k ∉ tr.
Proof.
  intros H Hin. rewrite Forall_forall in H. by destruct (H _ Hin k).
Qed.

Lemma try_catch_trace (body : M unit) (line : string → console) s e :
  e ∈ trace (try_catch body (λ err, emit (Log (line err))) s) →
  e ∈ trace (body s) ∨ ∃ l, e = Log l.
Proof.
  unfold try_catch. destruct (body s) as [[[]|err] s1 t1]; munfold; [by left|].
  intros [H|H]%elem_of_app; [by left|]. right.
  apply list_elem_of_singleton in H. by eexists.
Qed.

Lemma when_truthy_subscribe_fetches c mid s k :
  Inv s →
  Fetch k ∈ trace (when_truthy mid (λ v, k ← map_key v; subscribeToOrderbook c k) s) →
  is_Some (orderbookSubscriptions
             (final (when_truthy mid
                       (λ v, k ← map_key v; subscribeToOrderbook c k) s)) !! k).
Proof.
  intros HI. unfold when_truthy.
  destruct mid as [v|]; [destruct (Js.truthy (Some v))|];
    [|by intros ?%elem_of_nil..].
  destruct (map_key_spec v s) as (k0 & s2 & Hk & _ & _ & _ & _ & _ & HInv & _).
  rewrite (bind_pure_gen _ _ _ s2 k0) by done.
  pose proof (HInv HI) as HI2. intros Hin.
  destruct (orderbookSubscriptions s2 !! k0) as [S|] eqn:HS.
  - destruct (printable s2 k0) eqn:Hp.
    + rewrite (subscribe_existing _ _ _ S) in Hin by done. scbn.
      by apply list_elem_of_singleton in Hin.
    + rewrite (subscribe_existing_unprintable _ _ _ S) in Hin by done. scbn.
      by apply elem_of_nil in Hin.
  - assert (orderbookIntervals s2 !! k0 = None) as Hi.
    { apply eq_None_not_Some. rewrite <-(inv_interval _ HI2), HS. by intros [? ?]. }
    destruct (printable s2 k0) eqn:Hp.
    + rewrite subscribe_first in * by done. scbn.
      apply elem_of_cons in Hin as [[= ->]|Hin].
      * rewrite lookup_insert_eq. by eexists.
      * apply elem_of_cons in Hin as [|Hin]; [done|].
        by apply list_elem_of_singleton in Hin.
    + rewrite subscribe_first_unprintable in * by done. scbn.
      apply list_elem_of_singleton in Hin as [= ->].
      rewrite lookup_insert_eq. by eexists.
Qed.

Lemma handleSubscribe_fetches c data s k :
  Inv s →
  Fetch k ∈ trace (handleSubscribe c data s) →
  is_Some (orderbookSubscriptions (final (handleSubscribe c data s)) !! k).
Proof.
  intros HI. unfold handleSubscribe.
  rewrite (bind_pure _ _ _ s) by done.
  destruct (clients s !! c) as [cl|] eqn:Hc; [|by intros ?%elem_of_nil].
  destruct (prop_pure (Some data) "channel" s) as [[ch H]|[e H]].
  2:{ rewrite (bind_pure_throw _ _ _ e) by done. by intros ?%elem_of_nil. }
  rewrite (bind_pure _ _ _ ch) by done. clear H.
  destruct (prop_pure (Some data) "params" s) as [[ps H]|[e H]].
  2:{ rewrite (bind_pure_throw _ _ _ e) by done. by intros ?%elem_of_nil. }
  rewrite (bind_pure _ _ _ ps) by done. clear H.
  destruct (subscriptionKey ch ps) as [key|].
  2:{ rewrite (bind_pure_throw _ _ _ "TypeError") by done. by intros ?%elem_of_nil. }
  rewrite (bind_pure _ _ _ key) by done.
  rewrite bind_modify. set (s1 := with_clients _ s).
  assert (same_sockets s s1) as Hss1 by apply same_sockets_alter.
  assert (Inv s1) as HI1.
  { apply (Inv_frame s); try done. intros c'. by apply same_sockets_is_Some. }
  assert (is_Some (clients s1 !! c)) as Hc1.
  { apply (same_sockets_is_Some s); [done|]. by rewrite Hc. }
  destruct (orderbook_market_id_pure ch ps s1) as [[mid H]|[e H]].
  2:{ rewrite (bind_pure_throw _ _ _ e) by done. by intros ?%elem_of_nil. }
  rewrite (bind_pure _ _ _ mid) by done. clear H.
  destruct (when_truthy_subscribe c mid s1 HI1 Hc1) as (_ & _ & _ & Ho).
  cbn zeta in Ho.
  pose proof (when_truthy_subscribe_fetches c mid s1 k HI1) as Hblk.
  destruct (falsy_or_prints mid).
  2:{ by rewrite (bind_throw _ _ _ "TypeError") by done. }
  rewrite (bind_ret _ _ _ tt) by done. scbn.
  set (s2 := final (when_truthy mid _ s1)) in *.
  match goal with |- context [ (get ≫= ?f) s2 ] =>
    destruct (acknowledge_silent (UpstreamSubscribe ch ps) c
      (Js.obj [("type", Some (JStr "subscribed")); ("channel", ch); ("params", ps)]) s2)
      as [_ ->];
    assert (Forall (λ e, ∀ k', e ≠ Fetch k') (trace ((get ≫= f) s2))) as Hack
  end.
  { apply (keeps_get (λ _, True)); [|done]. intros s' _.
    apply (keeps_bind (λ _, True)); [| |done].
    - destruct (decide (polymarketWs s' = Some OPEN));
        [by apply keeps_emit|apply keeps_ret].
    - intros _. by apply keeps_sendToClient. }
  intros [Hin|Hin]%elem_of_app; [by apply Hblk|].
  by apply (no_fetch_in _ k) in Hack.
Qed.

Lemma on_message_fetches c m s k :
  Inv s →
  Fetch k ∈ trace (on_message c m s) →
  subscribe_frame (EvMessage c m) = true
  ∧ is_Some (orderbookSubscriptions (final (on_message c m s)) !! k).
Proof.
  intros HI Hin.
  destruct m as [|data].
  { unfold on_message, try_catch, JSON_parse in Hin.
    rewrite (bind_pure_throw _ _ _ "SyntaxError") in Hin by done. munfold.
    by apply list_elem_of_singleton in Hin. }
  rewrite on_message_parsed in *.
  destruct (try_catch_log (handleClientMessage c data) LogParseError s) as [_ ->].
  apply try_catch_trace in Hin as [Hin|[l [=]]].
  revert Hin. unfold handleClientMessage.
  rewrite (bind_pure _ _ _ s) by done.
  destruct (clients s !! c); [|by intros ?%elem_of_nil].
  destruct data as [|b|n|str|xs|fs];
    try (rewrite (bind_pure _ _ _ None) by done;
         cbn [is_string]; munfold; by intros ?%list_elem_of_singleton).
  - rewrite (bind_pure_throw _ _ _ "TypeError") by done. by intros ?%elem_of_nil.
  - rewrite (bind_pure _ _ _ _ (prop_object _ _ _)). cbn [subscribe_frame].
    destruct (is_string (Js.field "type" fs) "subscribe").
    { intros Hin. split; [done|]. by apply handleSubscribe_fetches. }
    intros Hin. exfalso. revert Hin. apply no_fetch_in.
    destruct (is_string _ "unsubscribe").
    { by apply (keeps_handleUnsubscribe (λ _, True)). }
    destruct (is_string _ "ping").
    { by apply (keeps_sendToClient (λ _, True)). }
    munfold. by repeat constructor.
Qed.

(** X17.  A fetch is started only by an interval timer or by a subscribe
    request, and only for a market that has a subscriber set and a live
    interval timer once the callback has run; if the id of the market
    converts to a string, some connection is subscribed to the market
    then.  Closing, unsubscribing, poll results and the upstream socket
    never start a fetch. *)
Theorem fetch_only_for_a_registered_market (s : service) (ev : event) (k : mkey) :
  reachable s →
  Fetch k ∈ trace (step ev s) →
  let s' := final (step ev s) in
  is_Some (orderbookSubscriptions s' !! k)
  ∧ (∃ t, timers s' !! t = Some k)
  ∧ (printable s' k = true → ∃ c, holds s' c k)
  ∧ (subscribe_frame ev = true ∨ ∃ t, ev = EvInterval t ∧ timers s !! t = Some k).
Proof.
  intros HI%reachable_Inv Hin. cbn zeta.
  pose proof (Inv_step ev s HI) as HI'.
  assert (is_Some (orderbookSubscriptions (final (step ev s)) !! k)
          ∧ (subscribe_frame ev = true
             ∨ ∃ t, ev = EvInterval t ∧ timers s !! t = Some k)) as [Hset Hev].
  { destruct (downstream ev) eqn:Hev.
    2:{ exfalso. revert Hin. apply no_fetch_in.
        by apply (keeps_upstream (λ _, True) _ ev). }
    destruct ev; try done; cbn [step] in *.
    - exfalso. revert Hin. apply no_fetch_in.
      by apply (keeps_on_connection (λ _, True)).
    - destruct (on_message_fetches _ _ _ _ HI Hin) as [Hsub Hh].
      split; [done|by left].
    - exfalso. revert Hin. apply no_fetch_in.
      by apply (keeps_on_close (λ _, True)).
    - exfalso. revert Hin. apply no_fetch_in. by repeat constructor.
    - exfalso. revert Hin. apply no_fetch_in. munfold. constructor.
    - destruct (timers s !! t) as [k0|] eqn:Ht.
      + rewrite (on_interval_live _ _ _ Ht) in *. scbn.
        apply list_elem_of_singleton in Hin as [= ->].
        split; [|right; by eexists].
        apply (inv_interval s HI). exists t. by apply (inv_timer s HI).
      + exfalso. revert Hin. unfold on_interval.
        rewrite (bind_pure _ _ _ s) by done. rewrite Ht. by intros ?%elem_of_nil.
    - exfalso. revert Hin. apply no_fetch_in.
      by apply (keeps_on_settled (λ _, True)). }
  split; [done|]. split; [|split; [|done]].
  - apply (inv_interval _ HI') in Hset as [t Ht]. exists t.
    by apply (inv_timer _ HI').
  - intros Hp. destruct Hset as [S HS].
    destruct (set_choose_L S) as [c Hc].
    { intros He. apply (inv_nonempty _ HI' k S HS) in He. congruence. }
    by exists c, S.
Qed.

Lemma fetch_only_for_a_registered_market_witness :
  let s := final (run [EvConnection "A" "t0"] constructor) in
  let ev := EvMessage "A" (subscribe_request (JStr "orderbook") (orderbook_of "M1")) in
  reachable s
  ∧ Fetch (KStr "M1") ∈ trace (step ev s)
  ∧ ∃ c, holds (final (step ev s)) c (KStr "M1").
Proof.
  cbn zeta.
  assert (reachable (final (run [EvConnection "A" "t0"] constructor))) as Hr
    by (by eexists).
  assert (Fetch (KStr "M1")
            ∈ trace (step (EvMessage "A"
                       (subscribe_request (JStr "orderbook") (orderbook_of "M1")))
                       (final (run [EvConnection "A" "t0"] constructor)))) as Hin.
  { assert (trace (step (EvMessage "A"
                     (subscribe_request (JStr "orderbook") (orderbook_of "M1")))
                     (final (run [EvConnection "A" "t0"] constructor)))
            = [Fetch (KStr "M1"); Log (LogStartedPolling (KStr "M1"));
               Log (LogSubscribed "A" (KStr "M1"));
               WsSend "A" (acknowledgement "subscribed" (Some (JStr "orderbook"))
                             (Some (orderbook_of "M1")))]) as ->
      by (vm_compute; reflexivity).
    apply list_elem_of_here. }
  split; [exact Hr|]. split; [exact Hin|].
  exact (proj1 (proj2 (proj2 (fetch_only_for_a_registered_market _ _ _ Hr Hin)))
           eq_refl).
Defined.

(** ** Nothing is held without a connection *)

(** X18.  When the last connection is gone, nothing is held any more, and
    for every market whose id converts to a string everything that was set
    up is gone too: no subscriber set, no recorded interval and no live
    interval timer remains for it, whatever the connections did while they
    were there.  What may remain are empty subscriber sets. *)
Theorem no_connection_nothing_held (s : service) :
  reachable s →
  clients s = ∅ →
  (∀ c k, ¬ holds s c k)
  ∧ (∀ k S, orderbookSubscriptions s !! k = Some S → S = ∅)
  ∧ ∀ k, printable s k = true →
         orderbookSubscriptions s !! k = None
         ∧ orderbookIntervals s !! k = None
         ∧ ∀ t, timers s !! t ≠ Some k.
Proof.
  intros [I1 I2 I3 I4 I5 I6]%reachable_Inv Hcl.
  assert (∀ k S, orderbookSubscriptions s !! k = Some S → S = ∅) as Hempty.
  { intros k S HS. apply set_eq. intros c. split; [|set_solver].
    intros Hc. destruct (I5 k S c HS Hc) as [cl Hc']. by rewrite Hcl in Hc'. }
  split; [|split; [done|]].
  { intros c k (S & HS & Hc). apply Hempty in HS as ->. set_solver. }
  intros k Hp.
  assert (orderbookSubscriptions s !! k = None) as Hsub.
  { destruct (orderbookSubscriptions s !! k) as [S|] eqn:HS; [|done].
    pose proof (Hempty k S HS) as He. apply (I1 k S HS) in He. congruence. }
  assert (orderbookIntervals s !! k = None) as Hint.
  { apply eq_None_not_Some. rewrite <-I2, Hsub. by intros [? ?]. }
  do 2 (split; [done|]).
  intros t Ht. apply I3 in Ht. by rewrite Hint in Ht.
Qed.

Lemma no_connection_nothing_held_witness :
  let s := final (run (A_subscribes_M1 ++ [EvClose "A"]) constructor) in
  reachable s ∧ clients s = ∅ ∧ orderbookIntervals s !! KStr "M1" = None.
Proof.
  cbn zeta.
  assert (reachable (final (run (A_subscribes_M1 ++ [EvClose "A"]) constructor)))
    as Hr by (by eexists).
  assert (clients (final (run (A_subscribes_M1 ++ [EvClose "A"]) constructor)) = ∅)
    as Hc by (apply (bool_decide_unpack _); vm_compute; exact I).
  split; [exact Hr|]. split; [exact Hc|].
  exact (proj1 (proj2 (proj2 (proj2 (no_connection_nothing_held _ Hr Hc))
                         (KStr "M1") eq_refl))).
Defined.

(** ** Markets whose id converts to a string *)



(** X20.  In a reachable state, [unsubscribeFromOrderbook] for a market
    the connection does not hold, when the id of the market converts to a
    string or the market has no subscriber set, and the cleanup and the
    [close] callback for a connection that is not registered any more,
    return normally and leave the whole state, registry and polling timers
    included, as it was; in particular a second [close] of a connection
    changes nothing after the first. *)
Theorem printable_unheld_unsubscribe_and_repeated_close_are_noops
    (s : service) (c c' d : string) (k : mkey) :
  reachable s →
  ¬ holds s c k →
  printable s k = true ∨ orderbookSubscriptions s !! k = None →
  clients s !! c' = None →
  (out (unsubscribeFromOrderbook c k s) = Ret tt
   ∧ final (unsubscribeFromOrderbook c k s) = s)
  ∧ cleanupClientSubscriptions c' s = Result (Ret tt) s []
  ∧ (out (on_close c' s) = Ret tt ∧ final (on_close c' s) = s)
  ∧ (out (on_close d (final (on_close d s))) = Ret tt
     ∧ final (on_close d (final (on_close d s))) = final (on_close d s)).
Proof.
  intros HI%reachable_Inv Hn Hk Hc'.
  split; [|split; [|split]].
  - destruct (unsubscribe_unheld c k s HI Hn) as [-> ->]. split; [|done].
    apply decide_False. intros [[S HS] Hp]. destruct Hk; congruence.
  - by apply cleanup_nothing, closed_holds_nothing.
  - by rewrite on_close_unregistered.
  - destruct (Inv_on_close d s HI) as [_ HI'].
    rewrite (on_close_unregistered d (final (on_close d s))); [done..|].
    rewrite on_close_final by done. scbn. apply lookup_delete_eq.
Qed.

Lemma printable_unheld_unsubscribe_and_repeated_close_witness :
  let s := final (run A_subscribes_M1 constructor) in
  reachable s ∧ ¬ holds s "B" (KStr "M1") ∧ clients s !! "B" = None
  ∧ final (unsubscribeFromOrderbook "B" (KStr "M1") s) = s
  ∧ final (on_close "B" s) = s
  ∧ final (on_close "A" (final (on_close "A" s))) = final (on_close "A" s).
Proof.
  cbn zeta.
  assert (reachable (final (run A_subscribes_M1 constructor))) as Hr
    by (by exists A_subscribes_M1).
  assert (¬ holds (final (run A_subscribes_M1 constructor)) "B" (KStr "M1")) as Hn
    by (apply (bool_decide_unpack (¬ _)); vm_compute; exact I).
  assert (clients (final (run A_subscribes_M1 constructor)) !! "B" = None) as Hc
    by (vm_compute; reflexivity).
  destruct (printable_unheld_unsubscribe_and_repeated_close_are_noops
              _ "B" "B" "A" (KStr "M1") Hr Hn (or_introl eq_refl) Hc)
    as ([_ H1] & _ & [_ H2] & [_ H3]).
  exact (conj Hr (conj Hn (conj Hc (conj H1 (conj H2 H3))))).
Defined.

(** X21.  A subscribe request for a market whose id does not convert to a
    string, here [{"toString": 1}], is handled by the message callback
    without an acknowledgement, and leaves a fetch cycle in flight.  When
    that cycle fails, the line that reports the failure throws: the
    exception leaves [pollOrderbook], nothing is printed and no later
    event is handled. *)
Theorem failed_poll_of_unprintable_market_throws :
  let failure := EvSettled 0 (FetchFailed "Failed to fetch market details")
                   "2025-01-01T00:00:01.000Z" in
  let s := final (run A_subscribes_unprintable constructor) in
  out (run A_subscribes_unprintable constructor) = Ret tt
  ∧ polls s = [KRef 0]
  ∧ printable s (KRef 0) = false
  ∧ out (step failure s) = Throw "TypeError"
  ∧ printed (trace (step failure s)) = []
  ∧ ∀ evs, run (failure :: evs) s
           = Result (Throw "TypeError") (final (step failure s))
               (trace (step failure s)).
Proof.
  cbn zeta. set (s := final (run A_subscribes_unprintable constructor)).
  assert (out (step (EvSettled 0 (FetchFailed "Failed to fetch market details")
                       "2025-01-01T00:00:01.000Z") s) = Throw "TypeError") as Ho
    by (vm_compute; reflexivity).
  split; [by vm_compute|]. split; [by vm_compute|]. split; [by vm_compute|].
  split; [done|]. split; [by vm_compute|].
  intros evs. unfold run at 1. cbn [for_each].
  by rewrite (bind_throw _ _ _ "TypeError").
Qed.
